(** * patchutils: a shallow embedding of [patchutils.py]

    The Python module reads patch files (normal, ed, unified, git) through a
    positioned line reader.  This development embeds the reader framework,
    the lexical helpers, the hunk parsers, the header scan of
    [PatchFile.add_patch] and the driver [PatchFile.__init__], and proves
    properties of them.

    Conventions of the embedding:
    - a Python [str] is a [list ascii] (code points below 256); Python
      integers are [Z];
    - a method that mutates its object takes the object and returns the new
      one; the reader is threaded through a state-and-exception monad;
    - Python exceptions are the [Raise] outcome; a loop whose model runs on
      fuel reports [Fuel] when the fuel is used up, and the inner loops are
      shown never to do so;
    - [dateutil.parser.parse] and the epoch timestamp are outside the module
      and are parameters of the header code. *)

From Stdlib Require Import ZArith List Ascii String Bool Lia.
From Stdlib Require Import FunctionalExtensionality.
Import ListNotations.
Local Open Scope Z_scope.

(* ================================================================== *)
(** ** Python strings and lists *)
(* ================================================================== *)

Module Py.

Definition str := list ascii.

(** A Python literal; escapes are written with the characters below. *)
Definition lit (s : string) : str := list_ascii_of_string s.

Definition nl : ascii := "010"%char.
Definition cr : ascii := "013"%char.
Definition tab : ascii := "009"%char.
Definition dquote : ascii := "034"%char.
Definition bslash : ascii := "092"%char.

(** [lit s] followed by a newline: one line of input. *)
Definition ln (s : string) : str := lit s ++ [nl].

Definition len {A} (l : list A) : Z := Z.of_nat (List.length l).

Definition null {A} (l : list A) : bool :=
  match l with [] => true | _ => false end.

Fixpoint str_eqb (s t : str) : bool :=
  match s, t with
  | [], [] => true
  | c :: s', d :: t' => Ascii.eqb c d && str_eqb s' t'
  | _, _ => false
  end.

(** Slice bounds as Python normalises them: a negative bound counts from the
    end, and both are clamped into [0, len]. *)
Definition clamp (n i : Z) : Z :=
  if i <? 0 then Z.max (i + n) 0 else Z.min i n.

(** [l[lo:hi]]; [None] is an omitted bound. *)
Definition slice {A} (l : list A) (lo hi : option Z) : list A :=
  let n := len l in
  let a := match lo with None => 0 | Some i => clamp n i end in
  let b := match hi with None => n | Some j => clamp n j end in
  firstn (Z.to_nat (b - a)) (skipn (Z.to_nat a) l).

(** [l[i]]; [None] stands for IndexError. *)
Definition index {A} (l : list A) (i : Z) : option A :=
  let n := len l in
  let k := if i <? 0 then i + n else i in
  if (k <? 0) || (n <=? k) then None else nth_error l (Z.to_nat k).

Fixpoint startswith (s p : str) : bool :=
  match p, s with
  | [], _ => true
  | c :: p', d :: s' => Ascii.eqb c d && startswith s' p'
  | _ :: _, [] => false
  end.

(** [s.startswith(p, i)] for a non-empty [p]. *)
Definition startswith_at (s p : str) (i : Z) : bool :=
  startswith (slice s (Some i) None) p.

Definition endswith (s p : str) : bool := startswith (rev s) (rev p).

Definition code (c : ascii) : Z := Z.of_N (N_of_ascii c).

(** [chr(n)] for [0 <= n < 256]. *)
Definition chr (n : Z) : ascii := ascii_of_N (Z.to_N n).

(** Unicode white space among the code points below 256: what [str.isspace],
    [str.strip], [str.split] and the pattern [\s] accept. *)
Definition is_space (c : ascii) : bool :=
  let n := code c in
  ((9 <=? n) && (n <=? 13)) || ((28 <=? n) && (n <=? 32))
  || (n =? 133) || (n =? 160).

(** The pattern [\d]: the decimal digits below 256 are the ASCII ones. *)
Definition is_digit (c : ascii) : bool :=
  let n := code c in (48 <=? n) && (n <=? 57).

(** [str.isdigit] of one character also takes the superscripts 1, 2, 3. *)
Definition isdigit_char (c : ascii) : bool :=
  let n := code c in
  is_digit c || (n =? 178) || (n =? 179) || (n =? 185).

Definition is_octal (c : ascii) : bool :=
  let n := code c in (48 <=? n) && (n <=? 55).

Definition is_hex (c : ascii) : bool :=
  let n := code c in
  is_digit c || ((97 <=? n) && (n <=? 102)) || ((65 <=? n) && (n <=? 70)).

Fixpoint lstrip (s : str) : str :=
  match s with
  | c :: s' => if is_space c then lstrip s' else s
  | [] => []
  end.

Definition rstrip (s : str) : str := rev (lstrip (rev s)).

Definition strip (s : str) : str := rstrip (lstrip s).

Definition isspace (s : str) : bool := negb (null s) && forallb is_space s.

(** [s.split()]: the maximal runs of characters that are not white space. *)
Fixpoint split_from (s cur : str) : list str :=
  match s with
  | [] => if null cur then [] else [rev cur]
  | c :: s' =>
      if is_space c
      then (if null cur then split_from s' [] else rev cur :: split_from s' [])
      else split_from s' (c :: cur)
  end.

Definition split (s : str) : list str := split_from s [].

(** The longest prefix whose characters satisfy [p], and the rest. *)
Fixpoint span (p : ascii -> bool) (s : str) : str * str :=
  match s with
  | c :: s' =>
      if p c then let '(a, b) := span p s' in (c :: a, b) else ([], s)
  | [] => ([], [])
  end.

(** [s] without the literal prefix [p], when it has it. *)
Fixpoint eat (p s : str) : option str :=
  match p, s with
  | [], _ => Some s
  | c :: p', d :: s' => if Ascii.eqb c d then eat p' s' else None
  | _ :: _, [] => None
  end.

(** The value of a digit in bases up to 36. *)
Definition digit_value (c : ascii) : option Z :=
  let n := code c in
  if (48 <=? n) && (n <=? 57) then Some (n - 48)
  else if (97 <=? n) && (n <=? 122) then Some (n - 87)
  else if (65 <=? n) && (n <=? 90) then Some (n - 55)
  else None.

(** The digits of [int(s, base)]: single underscores may separate digits,
    and there is at least one digit.  [prev_us]: the previous character was
    an underscore; [seen]: a digit was read. *)
Fixpoint int_digits (base : Z) (s : str) (prev_us seen : bool) (acc : Z)
  : option Z :=
  match s with
  | [] => if prev_us then None else if seen then Some acc else None
  | c :: s' =>
      if Ascii.eqb c "_"%char
      then (if prev_us then None else int_digits base s' true seen acc)
      else match digit_value c with
           | Some d =>
               if d <? base
               then int_digits base s' false true (acc * base + d)
               else None
           | None => None
           end
  end.

(** The base prefix [int] accepts for bases 8 and 16, with the one
    underscore allowed after it. *)
Definition int_prefix (base : Z) (s : str) : str :=
  match s with
  | z :: p :: s' =>
      if Ascii.eqb z "0"%char &&
         (((base =? 8) && (Ascii.eqb p "o"%char || Ascii.eqb p "O"%char)) ||
          ((base =? 16) && (Ascii.eqb p "x"%char || Ascii.eqb p "X"%char)))
      then match s' with
           | u :: s'' => if Ascii.eqb u "_"%char then s'' else s'
           | [] => s'
           end
      else s
  | _ => s
  end.

(** The white space [int] drops around a number: the ASCII white space of
    C, and the Unicode white space above the ASCII range.  The separators
    28 to 31, which [str.strip] takes off, are no white space for [int]. *)
Definition is_int_space (c : ascii) : bool :=
  let n := code c in
  ((9 <=? n) && (n <=? 13)) || (n =? 32) || (n =? 133) || (n =? 160).

Fixpoint int_lstrip (s : str) : str :=
  match s with
  | c :: s' => if is_int_space c then int_lstrip s' else s
  | [] => []
  end.

Definition int_strip (s : str) : str :=
  rev (int_lstrip (rev (int_lstrip s))).

(** [int(s, base)] for base 8, 10 or 16; [None] stands for ValueError.
    White space around the number is dropped, a sign may lead. *)
Definition int (base : Z) (s : str) : option Z :=
  let s := int_strip s in
  let '(sign, s) :=
    match s with
    | c :: s' =>
        if Ascii.eqb c "+"%char then (1, s')
        else if Ascii.eqb c "-"%char then (-1, s')
        else (1, s)
    | [] => (1, s)
    end in
  let s := int_prefix base s in
  match s with
  | c :: _ =>
      if Ascii.eqb c "_"%char then None
      else option_map (Z.mul sign) (int_digits base s false false 0)
  | [] => None
  end.

(** [int(s)] of a string the pattern [\d+] matched. *)
Definition int10 (s : str) : Z :=
  fold_left (fun a c => a * 10 + (code c - 48)) s 0.

End Py.
Import Py.

(* ================================================================== *)
(** ** Outcomes and the reader monad *)
(* ================================================================== *)

Inductive exn : Type :=
| TypeError | IndexError | ValueError | UnboundLocalError
| ZeroDivisionError | AttributeError | NotImplementedError.

(** The outcome of running Python code: a value, an exception, or a model
    loop that used up its fuel. *)
Inductive result (A : Type) : Type :=
| Ok (a : A)
| Raise (e : exn)
| Fuel.
Arguments Ok {A} a.
Arguments Raise {A} e.
Arguments Fuel {A}.

Definition rbind {A B} (x : result A) (k : A -> result B) : result B :=
  match x with
  | Ok a => k a
  | Raise e => Raise e
  | Fuel => Fuel
  end.

(** A computation over a state [S]: the object a method mutates. *)
Definition M (S A : Type) : Type := S -> result (A * S).

Definition ret {S A} (a : A) : M S A := fun s => Ok (a, s).

Definition bind {S A B} (m : M S A) (k : A -> M S B) : M S B :=
  fun s => match m s with
           | Ok (a, s') => k a s'
           | Raise e => Raise e
           | Fuel => Fuel
           end.

Definition raise {S A} (e : exn) : M S A := fun _ => Raise e.
Definition out_of_fuel {S A} : M S A := fun _ => Fuel.
Definition get {S} : M S S := fun s => Ok (s, s).
Definition put {S} (s : S) : M S unit := fun _ => Ok (tt, s).
Definition gets {S A} (f : S -> A) : M S A := fun s => Ok (f s, s).
Definition modify {S} (f : S -> S) : M S unit := fun s => Ok (tt, f s).

Declare Scope py_scope.
Delimit Scope py_scope with py.
Notation "x <- m ;; k" := (bind m (fun x => k))
  (at level 61, m at next level, right associativity) : py_scope.
Notation "' p <- m ;; k" := (bind m (fun p => k))
  (at level 61, p pattern, m at next level, right associativity) : py_scope.
Notation "m ;;; k" := (bind m (fun _ => k))
  (at level 61, right associativity) : py_scope.
Local Open Scope py_scope.

Definition lift_result {S A} (x : result A) : M S A :=
  fun s => match x with
           | Ok a => Ok (a, s)
           | Raise e => Raise e
           | Fuel => Fuel
           end.

(* ================================================================== *)
(** ** The reader framework: class [Reader] *)
(* ================================================================== *)

(** What a subclass of [Reader] provides: the four methods the base class
    leaves unimplemented, over the subclass's own state.  [lines_left]
    bounds the number of lines [_get_line] can still return; it is the fuel
    of the loops that read until the end of the input. *)
Class ReaderImpl (I : Type) : Type := {
  impl_get_pos : I -> Z -> Z;
  impl_set_pos : Z -> M I unit;
  impl_get_line : M I (option str);
  impl_get_raw_lines : Z -> option Z -> M I (list str);
  lines_left : I -> nat
}.

(** The attributes of the base class, and the subclass's state. *)
Record Reader (I : Type) : Type := mkReader {
  tab_size : Z;
  indent : Z;
  rfc934_nesting : Z;
  strip_cr : bool;
  line : str;
  impl : I
}.
Arguments mkReader {I}.
Arguments tab_size {I}.
Arguments indent {I}.
Arguments rfc934_nesting {I}.
Arguments strip_cr {I}.
Arguments line {I}.
Arguments impl {I}.

(** [Reader.__init__].  In Python [line] is no attribute before the first
    read that succeeds, and reading it then raises AttributeError; the
    model starts it empty, and speaks of [line] after such a read or of a
    [line] that was set. *)
Definition new_reader {I} (i : I) : Reader I := mkReader 8 0 0 false [] i.

Definition with_indent {I} (v : Z) (r : Reader I) : Reader I :=
  mkReader (tab_size r) v (rfc934_nesting r) (strip_cr r) (line r) (impl r).
Definition with_rfc934_nesting {I} (v : Z) (r : Reader I) : Reader I :=
  mkReader (tab_size r) (indent r) v (strip_cr r) (line r) (impl r).
Definition with_strip_cr {I} (v : bool) (r : Reader I) : Reader I :=
  mkReader (tab_size r) (indent r) (rfc934_nesting r) v (line r) (impl r).
Definition with_line {I} (v : str) (r : Reader I) : Reader I :=
  mkReader (tab_size r) (indent r) (rfc934_nesting r) (strip_cr r) v (impl r).
Definition with_impl {I} (v : I) (r : Reader I) : Reader I :=
  mkReader (tab_size r) (indent r) (rfc934_nesting r) (strip_cr r) (line r) v.

Section ReaderFramework.
Context {I : Type} {RI : ReaderImpl I}.

(** A method of the subclass run on the reader. *)
Definition lift {A} (m : M I A) : M (Reader I) A :=
  fun r => match m (impl r) with
           | Ok (a, i) => Ok (a, with_impl i r)
           | Raise e => Raise e
           | Fuel => Fuel
           end.

Definition get_pos (lineoff : Z) : M (Reader I) Z :=
  gets (fun r => impl_get_pos (impl r) lineoff).
Definition set_pos (pos : Z) : M (Reader I) unit := lift (impl_set_pos pos).
Definition _get_line : M (Reader I) (option str) := lift impl_get_line.
Definition get_raw_lines (start : Z) (end_ : option Z)
  : M (Reader I) (list str) := lift (impl_get_raw_lines start end_).

(** The [for] loop of [strip_indent] from index [i] on, [l] being
    [line[i:]]: the indentation counted and the value [i] is left with
    (the last index when the range is exhausted). *)
Fixpoint strip_scan (tab_size indent i : Z) (l : str) : result (Z * Z) :=
  match l with
  | [] => Ok (indent, i - 1)
  | c :: l' =>
      if Ascii.eqb c tab then
        if tab_size =? 0 then Raise ZeroDivisionError
        else strip_scan tab_size (indent + (tab_size - indent mod tab_size))
                        (i + 1) l'
      else if Ascii.eqb c " "%char || Ascii.eqb c "X"%char then
        strip_scan tab_size (indent + 1) (i + 1) l'
      else Ok (indent, i)
  end.

(** [Reader.strip_indent]: over an empty [line] the loop variable is never
    bound. *)
Definition strip_indent : M (Reader I) Z :=
  r <- get ;;
  match line r with
  | [] => raise UnboundLocalError
  | _ :: _ =>
      '(ind, i) <- lift_result (strip_scan (tab_size r) 0 0 (line r)) ;;
      modify (with_line (slice (line r) (Some i) None)) ;;;
      ret ind
  end.

(** The [for] loop of [pget_line] from index [i] on. *)
Fixpoint indent_scan (tab_size indent curindent i : Z) (l : str) : result Z :=
  match l with
  | [] => Ok (i - 1)
  | c :: l' =>
      if curindent >=? indent then Ok i
      else if Ascii.eqb c tab then
        if tab_size =? 0 then Raise ZeroDivisionError
        else indent_scan tab_size indent
               (curindent + (tab_size - curindent mod tab_size)) (i + 1) l'
      else if Ascii.eqb c " "%char || Ascii.eqb c "X"%char then
        indent_scan tab_size indent (curindent + 1) (i + 1) l'
      else Ok i
  end.

(** The whole [for] statement: over an empty line [i] keeps what it held,
    [None] when it was never bound. *)
Definition for_indent (tab_size indent : Z) (l : str) (i : option Z)
  : result (option Z) :=
  match l with
  | [] => Ok i
  | _ :: _ => rbind (indent_scan tab_size indent 0 0 l) (fun k => Ok (Some k))
  end.

(** [while nesting > 0 and line.startswith('- ', i)]. *)
Fixpoint unquote (nesting : nat) (l : str) (i : Z) : Z :=
  match nesting with
  | O => i
  | S n => if startswith_at l (lit "- ") i then unquote n l (i + 2) else i
  end.

(** Reading an unbound local. *)
Definition bound {S A} (i : option A) : M S A :=
  match i with
  | Some k => ret k
  | None => raise UnboundLocalError
  end.

(** The [while needmore] loop of [pget_line]: the line it stops at and the
    index [i], or [None] at the end of the input. *)
Fixpoint pget_loop (fuel : nat) (indent rfc934_nesting : Z)
    (skip_comments : bool) (i : option Z)
  : M (Reader I) (option (str * option Z)) :=
  match fuel with
  | O => out_of_fuel
  | S fuel' =>
      l <- _get_line ;;
      match l with
      | None => ret None
      | Some l =>
          ts <- gets tab_size ;;
          i <- lift_result (for_indent ts indent l i) ;;
          i <- (if rfc934_nesting >? 0
                then k <- bound i ;;
                     ret (Some (unquote (Z.to_nat rfc934_nesting) l k))
                else ret i) ;;
          needmore <- (if skip_comments
                       then k <- bound i ;; ret (startswith_at l (lit "#") k)
                       else ret false) ;;
          if needmore
          then pget_loop fuel' indent rfc934_nesting skip_comments i
          else ret (Some (l, i))
      end
  end.

(** The loop of [pget_line] as the method runs it: [i] starts unbound, and
    the lines left to read are fuel enough. *)
Definition fetch_line (indent rfc934_nesting : Z) (skip_comments : bool)
  : M (Reader I) (option (str * option Z)) :=
  r <- get ;;
  pget_loop (S (lines_left (impl r))) indent rfc934_nesting skip_comments None.

(** [Reader.pget_line]. *)
Definition pget_line (indent rfc934_nesting : Z)
    (strip_cr skip_comments : bool) : M (Reader I) bool :=
  fetched <- fetch_line indent rfc934_nesting skip_comments ;;
  match fetched with
  | None => ret false
  | Some (l, i) =>
      if negb (endswith l [nl]) then ret false
      else
        k <- bound i ;;
        (if strip_cr && str_eqb (slice l (Some (-2)) None) [cr; nl]
         then modify (with_line (slice l (Some k) (Some (-2)) ++ [nl]))
         else modify (with_line (slice l (Some k) None))) ;;;
        ret true
  end.

(** [Reader.get_line]. *)
Definition get_line (skip_comments : bool) : M (Reader I) bool :=
  r <- get ;;
  pget_line (indent r) (rfc934_nesting r) (strip_cr r) skip_comments.

(** [Reader.get_raw_line]: its argument is not used. *)
Definition get_raw_line (skip_comments : bool) : M (Reader I) bool :=
  pget_line 0 0 false true.

End ReaderFramework.

(* ================================================================== *)
(** ** class [LineReader] *)
(* ================================================================== *)

Record LineReader : Type := mkLineReader {
  lines : list str;
  lineno : Z
}.

Definition with_lineno (v : Z) (s : LineReader) : LineReader :=
  mkLineReader (lines s) v.

(** [LineReader._get_line]. *)
Definition LineReader_get_line : M LineReader (option str) :=
  fun s =>
    if lineno s >=? len (lines s) then Ok (None, s)
    else match index (lines s) (lineno s) with
         | None => Raise IndexError
         | Some l => Ok (Some l, with_lineno (lineno s + 1) s)
         end.

#[export] Instance LineReader_impl : ReaderImpl LineReader := {
  impl_get_pos := fun s lineoff => lineno s + lineoff;
  impl_set_pos := fun pos => modify (with_lineno pos);
  impl_get_line := LineReader_get_line;
  impl_get_raw_lines := fun start end_ =>
    gets (fun s => slice (lines s) (Some start) end_);
  lines_left := fun s => Z.to_nat (len (lines s) - lineno s)
}.

(** [LineReader(lines)]. *)
Definition line_reader (ls : list str) : Reader LineReader :=
  new_reader (mkLineReader ls 0).

(* ================================================================== *)
(** ** The patterns of the hunk parsers *)
(* ================================================================== *)

Module Re.

(** [(?:,(\d+))?] before a character that is neither a digit nor a comma:
    the group and the rest. *)
Definition opt_comma_digits (s : str) : option str * str :=
  match s with
  | c :: s' =>
      if Ascii.eqb c ","%char
      then let '(d, r) := span is_digit s' in
           if null d then (None, s) else (Some d, r)
      else (None, s)
  | [] => (None, s)
  end.

(** [[ \t]*\r?\n] matches a prefix of [s]. *)
Definition line_end (s : str) : bool :=
  let '(_, r) := span (fun c => Ascii.eqb c " "%char || Ascii.eqb c tab) s in
  match r with
  | c :: r' =>
      if Ascii.eqb c cr
      then match r' with d :: _ => Ascii.eqb d nl | [] => false end
      else Ascii.eqb c nl
  | [] => false
  end.

(** [re_cmd.match]: the five groups of
    [(\d+)(?:,(\d+))?([acd])(\d+)(?:,(\d+))?[ \t]*\r?\n]. *)
Definition re_cmd (s : str)
  : option (str * option str * ascii * str * option str) :=
  let '(g1, r) := span is_digit s in
  if null g1 then None else
  let '(g2, r) := opt_comma_digits r in
  match r with
  | c :: r =>
      if Ascii.eqb c "a"%char || Ascii.eqb c "c"%char || Ascii.eqb c "d"%char
      then
        let '(g4, r) := span is_digit r in
        if null g4 then None else
        let '(g5, r) := opt_comma_digits r in
        if line_end r then Some (g1, g2, c, g4, g5) else None
      else None
  | [] => None
  end.

(** [([aicd]|s/.//)] or [([cd]|s/.//)], by the letters allowed: the group
    and the rest.  The dot takes any character but a newline. *)
Definition ed_letter (allowed : str) (s : str) : option (str * str) :=
  match s with
  | c :: r =>
      if existsb (Ascii.eqb c) allowed then Some ([c], r)
      else
        match s with
        | s0 :: s1 :: x :: s3 :: s4 :: r' =>
            if Ascii.eqb s0 "s"%char && Ascii.eqb s1 "/"%char
               && negb (Ascii.eqb x nl)
               && Ascii.eqb s3 "/"%char && Ascii.eqb s4 "/"%char
            then Some ([s0; s1; x; s3; s4], r')
            else None
        | _ => None
        end
  | [] => None
  end.

(** [re_edcmd.match]: group 1 or group 2 of
    [(?:(?:\d+)?([aicd]|s/.//)|\d+,\d+([cd]|s/.//))[ \t]*\r?\n],
    whichever took part in the match. *)
Definition re_edcmd (s : str) : option str :=
  let '(d1, r) := span is_digit s in
  match r with
  | c :: r' =>
      if Ascii.eqb c ","%char then
        if null d1 then None else
        let '(d2, r'') := span is_digit r' in
        if null d2 then None else
        match ed_letter (lit "cd") r'' with
        | Some (g, rest) => if line_end rest then Some g else None
        | None => None
        end
      else
        match ed_letter (lit "aicd") r with
        | Some (g, rest) => if line_end rest then Some g else None
        | None => None
        end
  | [] => None
  end.

(** [re_unihunk.match]: the five groups of
    [@@ -(\d+)(?:,(\d+))? \+(\d+)(?:,(\d+))? @@(?: (REST))?], where REST
    is [.*]. *)
Definition re_unihunk (s : str)
  : option (str * option str * str * option str * option str) :=
  match eat (lit "@@ -") s with
  | None => None
  | Some r =>
      let '(g1, r) := span is_digit r in
      if null g1 then None else
      let '(g2, r) := opt_comma_digits r in
      match eat (lit " +") r with
      | None => None
      | Some r =>
          let '(g3, r) := span is_digit r in
          if null g3 then None else
          let '(g4, r) := opt_comma_digits r in
          match eat (lit " @@") r with
          | None => None
          | Some r =>
              match r with
              | c :: r' =>
                  if Ascii.eqb c " "%char
                  then Some (g1, g2, g3, g4,
                             Some (fst (span (fun c => negb (Ascii.eqb c nl)) r')))
                  else Some (g1, g2, g3, g4, None)
              | [] => Some (g1, g2, g3, g4, None)
              end
          end
      end
  end.

End Re.

(** [needle in hay] for strings. *)
Fixpoint contains (hay needle : str) : bool :=
  startswith hay needle ||
  match hay with
  | [] => false
  | _ :: hay' => contains hay' needle
  end.

(** [get_edcmd]. *)
Definition get_edcmd (l : str) : option str := Re.re_edcmd l.

(* ================================================================== *)
(** ** Changes and hunks *)
(* ================================================================== *)

Record Change : Type := mkChange {
  op : ascii;
  text : str
}.

Record Hunk : Type := mkHunk {
  srcline : option Z;
  dstline : option Z;
  section : option str;
  src : list Change;
  dst : list Change;
  hunk_begin : option Z;
  hunk_end : option Z
}.

(** [Hunk()]. *)
Definition new_hunk : Hunk := mkHunk None None None [] [] None None.

Definition with_srcline (v : option Z) (h : Hunk) : Hunk :=
  mkHunk v (dstline h) (section h) (src h) (dst h) (hunk_begin h) (hunk_end h).
Definition with_dstline (v : option Z) (h : Hunk) : Hunk :=
  mkHunk (srcline h) v (section h) (src h) (dst h) (hunk_begin h) (hunk_end h).
Definition with_section (v : option str) (h : Hunk) : Hunk :=
  mkHunk (srcline h) (dstline h) v (src h) (dst h) (hunk_begin h) (hunk_end h).
Definition with_src (v : list Change) (h : Hunk) : Hunk :=
  mkHunk (srcline h) (dstline h) (section h) v (dst h) (hunk_begin h) (hunk_end h).
Definition with_dst (v : list Change) (h : Hunk) : Hunk :=
  mkHunk (srcline h) (dstline h) (section h) (src h) v (hunk_begin h) (hunk_end h).
Definition with_hunk_begin (v : option Z) (h : Hunk) : Hunk :=
  mkHunk (srcline h) (dstline h) (section h) (src h) (dst h) v (hunk_end h).
Definition with_hunk_end (v : option Z) (h : Hunk) : Hunk :=
  mkHunk (srcline h) (dstline h) (section h) (src h) (dst h) (hunk_begin h) v.

(** The count a unified hunk header declares: 1 when the group is absent. *)
Definition declared (g : option str) : Z :=
  match g with
  | None => 1
  | Some d => int10 d
  end.

(** One pass of the body of the [while] loop of [UniHunk.parse] after the
    line is chosen: [None] is [return False], otherwise the counters and the
    hunk the next pass starts from. *)
Definition uni_line (l : str) (ptrn_lines repl_lines : Z) (h : Hunk)
  : result (option (Z * Z * Hunk)) :=
  match l with
  | [] => Raise IndexError
  | ch :: rest =>
      if Ascii.eqb ch "-"%char then
        if ptrn_lines <=? 0 then Ok None
        else Ok (Some (ptrn_lines - 1, repl_lines,
                       with_src (src h ++ [mkChange ch rest]) h))
      else if existsb (Ascii.eqb ch) [" "%char; "="%char; tab; nl] then
        if (ptrn_lines <=? 0) || (repl_lines <=? 0) then Ok None
        else
          let change :=
            if existsb (Ascii.eqb ch) [tab; nl]
            then mkChange " "%char l
            else mkChange " "%char rest in
          Ok (Some (ptrn_lines - 1, repl_lines - 1,
                    with_dst (dst h ++ [change])
                             (with_src (src h ++ [change]) h)))
      else if Ascii.eqb ch "+"%char then
        if repl_lines <=? 0 then Ok None
        else Ok (Some (ptrn_lines, repl_lines - 1,
                       with_dst (dst h ++ [mkChange ch rest]) h))
      else Ok None
  end.

Section HunkParsers.
Context {I : Type} {RI : ReaderImpl I}.

(** [Hunk.parse] of the base class. *)
Definition Hunk_parse (h : Hunk) : M (Reader I) (bool * Hunk) :=
  ret (false, h).

(** [NormalHunk.parse].  [ptrn_lines] and [repl_lines] are computed and
    dropped, as in the source; they are the second component of
    [NormalHunk_counts]. *)
Definition NormalHunk_counts (groups : str * option str * ascii * str * option str)
  : Z * option str :=
  let '(g1, g2, cmd, g4, g5) := groups in
  let ptrn_lines :=
    match g2 with
    | None => if Ascii.eqb cmd "a"%char then 0 else 1
    | Some d => int10 d - int10 g1 + 1
    end in
  (ptrn_lines, g5).

Definition NormalHunk_parse (h : Hunk) : M (Reader I) (bool * Hunk) :=
  ok <- get_line true ;;
  if negb ok then ret (false, h) else
  r <- get ;;
  match Re.re_cmd (line r) with
  | None =>
      pos <- get_pos (-1) ;;
      set_pos pos ;;;
      ret (false, h)
  | Some (g1, g2, cmd, g4, g5) =>
      let h := with_srcline (Some (int10 g1)) h in
      let ptrn_lines := fst (NormalHunk_counts (g1, g2, cmd, g4, g5)) in
      let h := with_dstline (Some (int10 g4)) h in
      let repl_lines := g5 in
      ret (true, h)
  end.

(** The [while reader.get_line(False)] loop of [EdHunk.parse]. *)
Fixpoint ed_body (fuel : nat) (h : Hunk) : M (Reader I) (bool * Hunk) :=
  match fuel with
  | O => out_of_fuel
  | S fuel' =>
      ok <- get_line false ;;
      if negb ok then ret (false, h) else
      r <- get ;;
      if str_eqb (line r) (lit "." ++ [nl])
      then pos <- get_pos (-1) ;;
           ret (true, with_hunk_end (Some pos) h)
      else ed_body fuel' h
  end.

(** [EdHunk.parse]; [edcmd in 'ds'] is a substring test, and a TypeError
    when [get_edcmd] found no command. *)
Definition EdHunk_parse (h : Hunk) : M (Reader I) (bool * Hunk) :=
  ok <- get_line true ;;
  if negb ok then ret (false, h) else
  pos <- get_pos (-1) ;;
  let h := with_hunk_begin (Some pos) h in
  r <- get ;;
  match get_edcmd (line r) with
  | None => raise TypeError
  | Some edcmd =>
      if contains (lit "ds") edcmd
      then ret (true, with_hunk_end (hunk_begin h) h)
      else ed_body (S (lines_left (impl r))) h
  end.

(** The [while ptrn_lines > 0 or repl_lines > 0] loop of [UniHunk.parse]
    with what follows it. *)
Fixpoint uni_body (fuel : nat) (ptrn_lines repl_lines : Z) (h : Hunk)
  : M (Reader I) (bool * Hunk) :=
  if (ptrn_lines >? 0) || (repl_lines >? 0) then
    match fuel with
    | O => out_of_fuel
    | S fuel' =>
        ok <- get_line true ;;
        r <- get ;;
        let chosen :=
          if negb ok || (len (line r) <? 1)
          then if repl_lines <? 3 then Some (lit " " ++ [nl]) else None
          else Some (line r) in
        match chosen with
        | None => ret (false, h)
        | Some l =>
            next <- lift_result (uni_line l ptrn_lines repl_lines h) ;;
            match next with
            | None => ret (false, h)
            | Some (p, q, h') => uni_body fuel' p q h'
            end
        end
    end
  else
    pos <- get_pos (-1) ;;
    ret (true, with_hunk_end (Some pos) h).

(** The header fields [UniHunk.parse] sets from the groups of the [@@]
    line, and the two counters. *)
Definition uni_header (groups : str * option str * str * option str * option str)
    (begin : Z) (h : Hunk) : Z * Z * Hunk :=
  let '(g1, g2, g3, g4, g5) := groups in
  let h := with_hunk_begin (Some begin) h in
  let srcline := int10 g1 in
  let '(ptrn_lines, srcline) :=
    match g2 with
    | None => (1, srcline)
    | Some d =>
        let p := int10 d in
        (p, if p =? 0 then srcline + 1 else srcline)
    end in
  let h := with_srcline (Some srcline) h in
  let dstline := int10 g3 in
  let '(repl_lines, dstline) :=
    match g4 with
    | None => (1, dstline)
    | Some d =>
        let q := int10 d in
        (q, if q =? 0 then dstline + 1 else dstline)
    end in
  let h := with_dstline (Some dstline) h in
  let h := with_section g5 h in
  (ptrn_lines, repl_lines, h).

(** [UniHunk.parse]. *)
Definition UniHunk_parse (h : Hunk) : M (Reader I) (bool * Hunk) :=
  ok <- get_line true ;;
  if negb ok then ret (false, h) else
  r <- get ;;
  match Re.re_unihunk (line r) with
  | None =>
      pos <- get_pos (-1) ;;
      set_pos pos ;;;
      ret (false, h)
  | Some groups =>
      begin <- get_pos (-1) ;;
      let '(ptrn_lines, repl_lines, h) := uni_header groups begin h in
      uni_body (Z.to_nat (ptrn_lines + repl_lines)) ptrn_lines repl_lines h
  end.

(** [ContextHunk.parse] and [NewContextHunk.parse]. *)
Definition ContextHunk_parse (h : Hunk) : M (Reader I) (bool * Hunk) :=
  raise NotImplementedError.

End HunkParsers.

(* ================================================================== *)
(** ** Lexical helpers *)
(* ================================================================== *)

(** [fetchmode]. *)
Definition fetchmode (spec : str) : Z :=
  match int 8 spec with
  | Some v => v
  | None => 0
  end.

(** [hay.index(needle)]; [None] stands for ValueError. *)
Fixpoint find_from (hay needle : str) (k : Z) : option Z :=
  if startswith hay needle then Some k
  else match hay with
       | [] => None
       | _ :: hay' => find_from hay' needle (k + 1)
       end.

(** [unescape], on [seq = match.group(0)[1:]]; [None] stands for the
    ValueError it raises.  Every alternative of [re_unescape] takes a
    character after the backslash, so [seq] is not empty. *)
Definition unescape (seq : str) : option ascii :=
  if negb (null seq) && forallb isdigit_char seq then
    option_map (fun v => chr (Z.land v 255)) (int 8 seq)
  else
    match seq with
    | [] => None
    | c :: rest =>
        if Ascii.eqb c "x"%char then
          if len seq <? 2 then None
          else option_map (fun v => chr (Z.land v 255)) (int 16 rest)
        else
          match find_from (lit "abfnrtv" ++ [bslash; dquote]) seq 0 with
          | Some k =>
              index ["007"%char; "008"%char; "012"%char; nl; cr; tab;
                     "011"%char; bslash; dquote] k
          | None => None
          end
    end.

(** One replacement of [re_unescape.sub] followed by the rest. *)
Definition emit (seq : str) (rest : option str) : option str :=
  match unescape seq, rest with
  | Some c, Some t => Some (c :: t)
  | _, _ => None
  end.

(** [re_unescape.sub(unescape, s)] for the pattern
    [\\[0-7]{1,3}|\\x[0-9a-fA-F]+|\\.], scanning left to right.
    [hex = Some ds]: the scan is inside a match of the second alternative
    whose hex digits so far are [rev ds]. *)
Fixpoint sub_unescape (s : str) (hex : option str) : option str :=
  match s with
  | [] =>
      match hex with
      | Some ds => emit ("x"%char :: rev ds) (Some [])
      | None => Some []
      end
  | c :: r =>
      let normal :=
        if Ascii.eqb c bslash then
          match r with
          | [] => Some [c]
          | d1 :: r1 =>
              if is_octal d1 then
                match r1 with
                | d2 :: r2 =>
                    if is_octal d2 then
                      match r2 with
                      | d3 :: r3 =>
                          if is_octal d3
                          then emit [d1; d2; d3] (sub_unescape r3 None)
                          else emit [d1; d2] (sub_unescape r2 None)
                      | [] => emit [d1; d2] (sub_unescape r2 None)
                      end
                    else emit [d1] (sub_unescape r1 None)
                | [] => emit [d1] (sub_unescape r1 None)
                end
              else
                match r1 with
                | h :: r2 =>
                    if Ascii.eqb d1 "x"%char && is_hex h
                    then sub_unescape r2 (Some [h])
                    else if Ascii.eqb d1 nl
                    then option_map (cons c) (sub_unescape r None)
                    else emit [d1] (sub_unescape r1 None)
                | [] =>
                    if Ascii.eqb d1 nl
                    then option_map (cons c) (sub_unescape r None)
                    else emit [d1] (sub_unescape r1 None)
                end
          end
        else option_map (cons c) (sub_unescape r None) in
      match hex with
      | Some ds =>
          if is_hex c then sub_unescape r (Some (c :: ds))
          else emit ("x"%char :: rev ds) normal
      | None => normal
      end
  end.

Definition not_nl (c : ascii) : bool := negb (Ascii.eqb c nl).

(** The body of [re_cstring] after the opening quote: the text up to and
    with the closing quote (reversed into [acc]) and what follows it. *)
Fixpoint cstring_scan (s acc : str) : option (str * str) :=
  match s with
  | [] => None
  | c :: r =>
      if Ascii.eqb c dquote then Some (rev (c :: acc), r)
      else if Ascii.eqb c bslash then
        match r with
        | d :: r' =>
            if Ascii.eqb d nl then None else cstring_scan r' (d :: c :: acc)
        | [] => None
        end
      else cstring_scan r (c :: acc)
  end.

(** [re_cstring.match]: the quoted string, quotes included, and the rest of
    its line. *)
Definition re_cstring (spec : str) : option (str * str) :=
  match spec with
  | q :: r =>
      if Ascii.eqb q dquote
      then match cstring_scan r [q] with
           | Some (g1, rest) => Some (g1, fst (span not_nl rest))
           | None => None
           end
      else None
  | [] => None
  end.

(** [parse_c_name]. *)
Definition parse_c_name (spec : str) : option str * str :=
  match re_cstring spec with
  | None => (None, spec)
  | Some (g1, g2) =>
      match sub_unescape g1 None with
      | Some name => (Some name, g2)
      | None => (None, spec)
      end
  end.

(** [re_tabterm.match]: the text before the first tab, and the rest of the
    line after it. *)
Definition re_tabterm (spec : str) : option (str * str) :=
  let '(g1, r) := span (fun c => negb (Ascii.eqb c tab)) spec in
  match r with
  | _ :: r' => Some (g1, fst (span not_nl r'))
  | [] => None
  end.

(** [parse_name]. *)
Definition parse_name (spec : str) (tabterm : bool) : option str * str :=
  let spec := lstrip spec in
  if startswith spec [dquote] then parse_c_name spec
  else
    let default :=
      let '(g1, r) := span (fun c => negb (is_space c)) spec in
      (Some g1, fst (span not_nl (lstrip r))) in
    if tabterm then
      match re_tabterm spec with
      | Some (g1, g2) => (Some (rstrip g1), g2)
      | None => default
      end
    else default.

(** [$]: at the end of the string or before its last newline. *)
Definition dollar (s : str) : bool := null s || str_eqb s [nl].

Definition is_lower_hex (c : ascii) : bool :=
  let n := code c in is_digit c || ((97 <=? n) && (n <=? 102)).

(** The optional group of [re_gitindex], trying [\s+] on [k], [k-1], ..., 1
    characters of white space: the text the inner group takes. *)
Fixpoint gitindex_group (k : nat) (rest : str) : option str :=
  match k with
  | O => None
  | S k' =>
      let '(m, after) := span not_nl (skipn k rest) in
      if dollar after then Some m else gitindex_group k' rest
  end.

(** [re_gitindex.match]: group 1 when the pattern matches. *)
Definition re_gitindex (s : str) : option (option str) :=
  let '(h1, r) := span is_lower_hex s in
  if null h1 then None else
  match eat (lit "..") r with
  | None => None
  | Some r =>
      let '(h2, r) := span is_lower_hex r in
      if null h2 then None else
      match gitindex_group (List.length (fst (span is_space r))) r with
      | Some m => Some (Some m)
      | None => if dollar r then Some None else None
      end
  end.

(** [re.search] of a star, an optional carriage return and a newline
    before [$]. *)
Fixpoint star_at_end (s : str) : bool :=
  match s with
  | [] => false
  | c :: r =>
      (Ascii.eqb c "*"%char &&
       match r with
       | d :: r' =>
           (Ascii.eqb d nl && dollar r') ||
           (Ascii.eqb d cr &&
            match r' with
            | e :: r'' => Ascii.eqb e nl && dollar r''
            | [] => false
            end)
       | [] => false
       end)
      || star_at_end r
  end.

(** The number of characters the leading ["- "] pairs take. *)
Fixpoint dash_prefix (l : str) : Z :=
  match l with
  | c :: d :: l' =>
      if Ascii.eqb c "-"%char && Ascii.eqb d " "%char
      then 2 + dash_prefix l' else 0
  | _ => 0
  end.

(* ================================================================== *)
(** ** File information, headers, patches *)
(* ================================================================== *)

Inductive DiffType : Type :=
| ANY_DIFF | CONTEXT_DIFF | NORMAL_DIFF | ED_DIFF
| NEW_CONTEXT_DIFF | UNI_DIFF | GIT_BINARY_DIFF.

Definition DiffType_eqb (a b : DiffType) : bool :=
  match a, b with
  | ANY_DIFF, ANY_DIFF | CONTEXT_DIFF, CONTEXT_DIFF
  | NORMAL_DIFF, NORMAL_DIFF | ED_DIFF, ED_DIFF
  | NEW_CONTEXT_DIFF, NEW_CONTEXT_DIFF | UNI_DIFF, UNI_DIFF
  | GIT_BINARY_DIFF, GIT_BINARY_DIFF => true
  | _, _ => false
  end.

(** [diff_type in (...)]. *)
Definition dt_in (d : DiffType) (l : list DiffType) : bool :=
  existsb (DiffType_eqb d) l.

(** The subclasses of [Patch]. *)
Inductive PatchClass : Type :=
| NormalPatch | EdPatch | UniPatch
| ContextPatch | NewContextPatch | GitBinaryPatch.

Definition class_diff_type (c : PatchClass) : DiffType :=
  match c with
  | NormalPatch => NORMAL_DIFF
  | EdPatch => ED_DIFF
  | UniPatch => UNI_DIFF
  | ContextPatch => CONTEXT_DIFF
  | NewContextPatch => NEW_CONTEXT_DIFF
  | GitBinaryPatch => GIT_BINARY_DIFF
  end.

(** [FileHeader]. *)
Record FileHeader : Type := mkFileHeader {
  fh_lines : list str
}.

Section Headers.

(** The timestamps [dateutil.parser.parse] returns; [dateparse s] is
    [None] when it raises ValueError, the one exception [set_timestr]
    catches.  The library is not part of the module: a string on which it
    raises another exception, as OverflowError on a number too large for
    a date, is not in the domain the model speaks of, and [set_timestr]
    lets that exception through.  [epoch] is
    [datetime.datetime.utcfromtimestamp(0)]. *)
Variable Stamp : Type.
Variable dateparse : str -> option Stamp.
Variable epoch : Stamp.

Record FileInfo : Type := mkFileInfo {
  name : option str;
  timestr : option str;
  stamp : option Stamp;
  mode : option Z;
  copy : bool;
  rename : bool
}.

Definition with_name (v : option str) (f : FileInfo) : FileInfo :=
  mkFileInfo v (timestr f) (stamp f) (mode f) (copy f) (rename f).
Definition with_timestr (v : option str) (f : FileInfo) : FileInfo :=
  mkFileInfo (name f) v (stamp f) (mode f) (copy f) (rename f).
Definition with_stamp (v : option Stamp) (f : FileInfo) : FileInfo :=
  mkFileInfo (name f) (timestr f) v (mode f) (copy f) (rename f).
Definition with_mode (v : option Z) (f : FileInfo) : FileInfo :=
  mkFileInfo (name f) (timestr f) (stamp f) v (copy f) (rename f).
Definition with_copy (v : bool) (f : FileInfo) : FileInfo :=
  mkFileInfo (name f) (timestr f) (stamp f) (mode f) v (rename f).
Definition with_rename (v : bool) (f : FileInfo) : FileInfo :=
  mkFileInfo (name f) (timestr f) (stamp f) (mode f) (copy f) v.

(** [FileInfo.set_name]. *)
Definition set_name (v : option str) (f : FileInfo) : FileInfo :=
  match v with
  | Some n =>
      if (len n >? 0) && str_eqb n (lit "/dev/null")
      then with_name None (with_stamp (Some epoch) f)
      else with_name v f
  | None => with_name v f
  end.

(** [FileInfo.set_timestr]. *)
Definition set_timestr (v : option str) (f : FileInfo) : FileInfo :=
  let f := with_stamp None (with_timestr v f) in
  match v with
  | Some t =>
      if len t >? 0 then
        let f := with_timestr (Some (rstrip t)) f in
        with_stamp (match dateparse (rstrip t) with
                    | Some d => Some d
                    | None => stamp f
                    end) f
      else f
  | None => f
  end.

(** [FileInfo.set_spec]. *)
Definition set_spec (spec : str) (f : FileInfo) : FileInfo :=
  let '(n, t) := parse_name spec true in
  set_name n (set_timestr (Some t) f).

(** [FileInfo()]. *)
Definition new_fileinfo : FileInfo :=
  with_rename false
    (with_copy false
       (with_mode None
          (set_name None
             (set_timestr None (mkFileInfo None None None None false false))))).

(** What [Header.index] holds: the text after [Index:], or the pair
    [parse_c_name] returned for a quoted one. *)
Inductive IndexValue : Type :=
| IndexText (s : str)
| IndexPair (n : option str) (rest : str).

Record Header : Type := mkHeader {
  old : FileInfo;
  new : FileInfo;
  index_ : option IndexValue;
  hdr_begin : option Z;
  hdr_end : option Z
}.

Definition with_old (v : FileInfo) (h : Header) : Header :=
  mkHeader v (new h) (index_ h) (hdr_begin h) (hdr_end h).
Definition with_new (v : FileInfo) (h : Header) : Header :=
  mkHeader (old h) v (index_ h) (hdr_begin h) (hdr_end h).
Definition with_index (v : option IndexValue) (h : Header) : Header :=
  mkHeader (old h) (new h) v (hdr_begin h) (hdr_end h).
Definition with_hdr_begin (v : option Z) (h : Header) : Header :=
  mkHeader (old h) (new h) (index_ h) v (hdr_end h).
Definition with_hdr_end (v : option Z) (h : Header) : Header :=
  mkHeader (old h) (new h) (index_ h) (hdr_begin h) v.

(** [Header()]. *)
Definition new_header : Header :=
  mkHeader new_fileinfo new_fileinfo None None None.

Record Patch : Type := mkPatch {
  patch_class : PatchClass;
  patch_header : Header;
  hunks : list Hunk;
  patch_begin : option Z;
  patch_end : option Z
}.

(** [Patch.__init__] of the class [c]. *)
Definition new_patch (c : PatchClass) (header : option Header) : Patch :=
  let h := match header with Some h => h | None => new_header end in
  mkPatch c h [] (hdr_begin h) None.

Definition with_hunks (v : list Hunk) (p : Patch) : Patch :=
  mkPatch (patch_class p) (patch_header p) v (patch_begin p) (patch_end p).
Definition with_patch_begin (v : option Z) (p : Patch) : Patch :=
  mkPatch (patch_class p) (patch_header p) (hunks p) v (patch_end p).
Definition with_patch_end (v : option Z) (p : Patch) : Patch :=
  mkPatch (patch_class p) (patch_header p) (hunks p) (patch_begin p) v.

Record PatchFile : Type := mkPatchFile {
  pf_diff_type : DiffType;
  pf_header : option FileHeader;
  patches : list Patch;
  revision : option str;
  pf_end : option Z
}.

Definition with_pf_header (v : option FileHeader) (f : PatchFile) : PatchFile :=
  mkPatchFile (pf_diff_type f) v (patches f) (revision f) (pf_end f).
Definition with_patches (v : list Patch) (f : PatchFile) : PatchFile :=
  mkPatchFile (pf_diff_type f) (pf_header f) v (revision f) (pf_end f).
Definition with_revision (v : option str) (f : PatchFile) : PatchFile :=
  mkPatchFile (pf_diff_type f) (pf_header f) (patches f) v (pf_end f).
Definition with_pf_end (v : option Z) (f : PatchFile) : PatchFile :=
  mkPatchFile (pf_diff_type f) (pf_header f) (patches f) (revision f) v.

Context {I : Type} {RI : ReaderImpl I}.

(** [self.next_hunk().parse(reader)] for each class of patch;
    [GitBinaryPatch.next_hunk] raises. *)
Definition next_hunk_parse (c : PatchClass) : M (Reader I) (bool * Hunk) :=
  match c with
  | NormalPatch => NormalHunk_parse new_hunk
  | EdPatch => EdHunk_parse new_hunk
  | UniPatch => UniHunk_parse new_hunk
  | ContextPatch | NewContextPatch => ContextHunk_parse new_hunk
  | GitBinaryPatch => raise NotImplementedError
  end.

(** The [while hunk.parse(reader)] loop of [Patch.parse]. *)
Fixpoint parse_hunks (fuel : nat) (c : PatchClass) (acc : list Hunk)
  : M (Reader I) (list Hunk) :=
  match fuel with
  | O => out_of_fuel
  | S fuel' =>
      '(ok, h) <- next_hunk_parse c ;;
      if ok then parse_hunks fuel' c (acc ++ [h]) else ret acc
  end.

(** [Patch.parse]. *)
Definition Patch_parse (p : Patch) : M (Reader I) Patch :=
  p <- match patch_begin p with
       | None => pos <- get_pos 0 ;; ret (with_patch_begin (Some pos) p)
       | Some _ => ret p
       end ;;
  r <- get ;;
  hs <- parse_hunks (S (lines_left (impl r))) (patch_class p) [] ;;
  pos <- get_pos (-1) ;;
  ret (with_patch_end (Some pos) (with_hunks hs p)).

(** The locals of [PatchFile.add_patch] that live across the passes of its
    loop, with [self.revision]. *)
Record Scan : Type := mkScan {
  need_header : bool;
  edcmdpos : option Z;
  git_diff : bool;
  exthdrs : bool;
  hdr : Header;
  patch : option Patch;
  start : option Z;
  scan_revision : option str
}.

Definition with_need_header (v : bool) (s : Scan) : Scan :=
  mkScan v (edcmdpos s) (git_diff s) (exthdrs s) (hdr s) (patch s) (start s)
         (scan_revision s).
Definition with_edcmdpos (v : option Z) (s : Scan) : Scan :=
  mkScan (need_header s) v (git_diff s) (exthdrs s) (hdr s) (patch s)
         (start s) (scan_revision s).
Definition with_git_diff (v : bool) (s : Scan) : Scan :=
  mkScan (need_header s) (edcmdpos s) v (exthdrs s) (hdr s) (patch s)
         (start s) (scan_revision s).
Definition with_exthdrs (v : bool) (s : Scan) : Scan :=
  mkScan (need_header s) (edcmdpos s) (git_diff s) v (hdr s) (patch s)
         (start s) (scan_revision s).
Definition with_hdr (v : Header) (s : Scan) : Scan :=
  mkScan (need_header s) (edcmdpos s) (git_diff s) (exthdrs s) v (patch s)
         (start s) (scan_revision s).
Definition with_patch (p : Patch) (at_ : Z) (s : Scan) : Scan :=
  mkScan (need_header s) (edcmdpos s) (git_diff s) (exthdrs s) (hdr s)
         (Some p) (Some at_) (scan_revision s).
Definition with_scan_revision (v : option str) (s : Scan) : Scan :=
  mkScan (need_header s) (edcmdpos s) (git_diff s) (exthdrs s) (hdr s)
         (patch s) (start s) v.

(** [if hdr.begin is None: hdr.begin = pos]. *)
Definition begin_if_none (pos : Z) (h : Header) : Header :=
  match hdr_begin h with
  | None => with_hdr_begin (Some pos) h
  | Some _ => h
  end.

Definition is_some {A} (o : option A) : bool :=
  match o with Some _ => true | None => false end.

(** The truth value of what [get_edcmd] returns. *)
Definition truthy (o : option str) : bool :=
  match o with Some s => negb (null s) | None => false end.

(** The git extended header lines of the [elif] chain, from [index] to
    [copy to]: the scan after the branch taken, or [None] when the line is
    none of them. *)
Definition git_header_line (l : str) (s : Scan) : option Scan :=
  let h := hdr s in
  let ext (h : Header) := Some (with_exthdrs true (with_hdr h s)) in
  if startswith l (lit "index ") then
    match re_gitindex (slice l (Some 6) None) with
    | Some g =>
        match g with
        | Some m =>
            let v := Some (fetchmode m) in
            ext (with_old (with_mode v (old h)) (with_new (with_mode v (new h)) h))
        | None => ext h
        end
    | None => Some s
    end
  else if startswith l (lit "old mode ") then
    ext (with_old (with_mode (Some (fetchmode (slice l (Some 9) None))) (old h)) h)
  else if startswith l (lit "new mode ") then
    ext (with_new (with_mode (Some (fetchmode (slice l (Some 9) None))) (new h)) h)
  else if startswith l (lit "deleted file mode ") then
    ext (with_old (with_mode (Some (fetchmode (slice l (Some 9) None))) (old h)) h)
  else if startswith l (lit "new file mode ") then
    ext (with_new (with_mode (Some (fetchmode (slice l (Some 14) None))) (new h)) h)
  else if startswith l (lit "rename from ") then
    ext (with_old (with_rename true (old h)) h)
  else if startswith l (lit "rename to ") then
    ext (with_new (with_rename true (new h)) h)
  else if startswith l (lit "copy from ") then
    ext (with_old (with_copy true (old h)) h)
  else if startswith l (lit "copy to ") then
    ext (with_new (with_copy true (new h)) h)
  else None.

(** The names of a [diff --git] line. *)
Definition git_names (l : str) (h : Header) : Header :=
  let h := with_old (with_name None (old h)) (with_new (with_name None (new h)) h) in
  let '(old_name, s) := parse_name (slice l (Some 11) None) false in
  match old_name with
  | Some _ =>
      if len s >? 0 then
        let '(new_name, s) := parse_name (lstrip s) false in
        if isspace s
        then with_old (with_name old_name (old h))
                      (with_new (with_name new_name (new h)) h)
        else h
      else h
  | None => h
  end.

(** The [if]/[elif] chain at the head of the loop of [add_patch], on the
    line [l] read at indentation [ind]: the indentation, line and scan the
    rest of the pass goes on with, or [None] for [break]. *)
Definition header_chain (diff_type : DiffType) (ind : Z) (l : str)
    (cr_seen : bool) (s : Scan) : M (Reader I) (option (Z * str * Scan)) :=
  let h := hdr s in
  if dt_in diff_type [ANY_DIFF; NORMAL_DIFF] && negb (need_header s)
     && is_some (Re.re_cmd l) then
    modify (with_strip_cr cr_seen) ;;;
    ok <- get_raw_line true ;;
    if negb ok then ret None else
    ind <- strip_indent ;;
    r <- get ;;
    let l := line r in
    if startswith l (lit "< ") || startswith l (lit "> ") then
      at_ <- get_pos (-2) ;;
      modify (with_indent ind) ;;;
      ret (Some (ind, l, with_patch (new_patch NormalPatch None) at_ s))
    else ret (Some (ind, l, s))
  else if dt_in diff_type [ANY_DIFF; ED_DIFF] && negb (need_header s)
          && negb (is_some (edcmdpos s)) && truthy (get_edcmd l) then
    pos <- get_pos (-1) ;;
    modify (with_indent ind) ;;;
    modify (with_strip_cr cr_seen) ;;;
    ret (Some (ind, l, with_edcmdpos (Some pos) s))
  else if dt_in diff_type [ANY_DIFF; CONTEXT_DIFF; NEW_CONTEXT_DIFF]
          && startswith l (lit "*** ") then
    pos <- get_pos (-1) ;;
    let h := with_hdr_begin (Some pos) h in
    let h := with_new (set_spec (slice l (Some 4) None) (new h)) h in
    ret (Some (ind, l, with_need_header false (with_hdr h s)))
  else if startswith l (lit "+++ ") then
    let h := with_new (set_spec (slice l (Some 4) None) (new h)) h in
    modify (with_strip_cr cr_seen) ;;;
    ret (Some (ind, l, with_need_header false (with_hdr h s)))
  else if startswith l (lit "Index:") then
    pos <- get_pos (-1) ;;
    let h := begin_if_none pos h in
    let idx := lstrip (slice l (Some 6) None) in
    let h :=
      if startswith idx [dquote]
      then let '(n, rest) := parse_c_name idx in
           with_index (Some (IndexPair n rest)) h
      else with_index (Some (IndexText idx)) h in
    modify (with_strip_cr cr_seen) ;;;
    ret (Some (ind, l, with_need_header false (with_hdr h s)))
  else if startswith l (lit "Prereq:") then
    pos <- get_pos (-1) ;;
    let h := begin_if_none pos h in
    let s := with_hdr h s in
    match split (lstrip (slice l (Some 7) None)) with
    | rev0 :: _ => ret (Some (ind, l, with_scan_revision (Some rev0) s))
    | [] => ret (Some (ind, l, s))
    end
  else if dt_in diff_type [ANY_DIFF; UNI_DIFF]
          && startswith l (lit "diff --git ") then
    if exthdrs s then
      e <- get_pos (-2) ;;
      at_ <- get_pos (-1) ;;
      let h := with_hdr_end (Some e) h in
      ret (Some (ind, l,
                 with_patch (new_patch UniPatch (Some h)) at_ (with_hdr h s)))
    else
      pos <- get_pos (-1) ;;
      let h := git_names l (with_hdr_begin (Some pos) h) in
      ret (Some (ind, l,
                 with_need_header false (with_git_diff true (with_hdr h s))))
  else
    match (if git_diff s then git_header_line l s else None) with
    | Some s' => ret (Some (ind, l, s'))
    | None =>
        if git_diff s && startswith l (lit "GIT binary patch") then
          e <- get_pos (-2) ;;
          at_ <- get_pos (-1) ;;
          let h := with_hdr_end (Some e) h in
          ret (Some (ind, l,
                     with_patch (new_patch GitBinaryPatch (Some h)) at_
                                (with_hdr h s)))
        else
          let i := dash_prefix l in
          if startswith_at l (lit "--- ") i then
            pos <- get_pos (-1) ;;
            let h := begin_if_none pos h in
            let h := with_old (set_spec (slice l (Some (i + 4)) None) (old h)) h in
            (if is_some (stamp (old h))
             then modify (with_rfc934_nesting (i / 2))
             else ret tt) ;;;
            modify (with_strip_cr cr_seen) ;;;
            ret (Some (ind, l, with_need_header false (with_hdr h s)))
          else ret (Some (ind, l, s))
    end.

(** The [if not need_header:] statement that ends a pass of the loop:
    [None] for [break]. *)
Definition trigger_chain (diff_type : DiffType) (ind : Z) (l : str)
    (cr_seen : bool) (s : Scan) : M (Reader I) (option Scan) :=
  let h := hdr s in
  if need_header s then ret (Some s)
  else if is_some (edcmdpos s) && str_eqb l (lit "." ++ [nl]) then
    at_ <- bound (edcmdpos s) ;;
    ret (Some (with_patch (new_patch EdPatch None) at_ s))
  else if dt_in diff_type [ANY_DIFF; UNI_DIFF]
          && startswith l (lit "@@ -") then
    modify (with_indent ind) ;;;
    e <- get_pos (-2) ;;
    at_ <- get_pos (-1) ;;
    let h := with_hdr_end (Some e) h in
    ret (Some (with_patch (new_patch UniPatch (Some h)) at_ (with_hdr h s)))
  else if dt_in diff_type [ANY_DIFF; CONTEXT_DIFF; NEW_CONTEXT_DIFF]
          && startswith l (lit "********") then
    let previndent := ind in
    ok <- get_raw_line true ;;
    if negb ok then ret None else
    ind <- strip_indent ;;
    r <- get ;;
    let l := line r in
    if (previndent =? ind) && startswith l (lit "*** ") then
      let h := with_new (old h) (with_old (new h) h) in
      modify (with_indent ind) ;;;
      modify (with_strip_cr cr_seen) ;;;
      e <- get_pos (-2) ;;
      at_ <- get_pos (-1) ;;
      let h := with_hdr_end (Some e) h in
      let c := if star_at_end l then NewContextPatch else ContextPatch in
      ret (Some (with_patch (new_patch c (Some h)) at_ (with_hdr h s)))
    else ret (Some s)
  else ret (Some s).

(** One pass of the loop of [add_patch], after [get_raw_line] returned
    true: whether the pass left the loop by [break], and the scan. *)
Definition add_patch_pass (diff_type : DiffType) (s : Scan)
  : M (Reader I) (bool * Scan) :=
  ind <- strip_indent ;;
  r <- get ;;
  let l := line r in
  let cr_seen := str_eqb (slice l (Some (-2)) None) [cr; nl] in
  c <- header_chain diff_type ind l cr_seen s ;;
  match c with
  | None => ret (true, s)
  | Some (ind, l, s) =>
      t <- trigger_chain diff_type ind l cr_seen s ;;
      match t with
      | None => ret (true, s)
      | Some s' => ret (false, s')
      end
  end.

(** [while patch is None and reader.get_raw_line()]. *)
Fixpoint add_patch_loop (fuel : nat) (diff_type : DiffType) (s : Scan)
  : M (Reader I) Scan :=
  match patch s with
  | Some _ => ret s
  | None =>
      match fuel with
      | O => out_of_fuel
      | S fuel' =>
          ok <- get_raw_line true ;;
          if negb ok then ret s else
          '(broke, s') <- add_patch_pass diff_type s ;;
          if broke then ret s' else add_patch_loop fuel' diff_type s'
      end
  end.

(** The end of [add_patch], once a patch is found: the reader goes to the
    start of the patch, the patch parses its hunks and joins the list. *)
Definition add_patch_parse (s : Scan) (f : PatchFile)
  : M (Reader I) (bool * PatchFile) :=
  at_ <- bound (start s) ;;
  p <- bound (patch s) ;;
  set_pos at_ ;;;
  p <- Patch_parse p ;;
  e <- get_pos (-1) ;;
  ret (true, with_patches (patches f ++ [p]) (with_pf_end (Some e) f)).

(** [PatchFile.add_patch]. *)
Definition add_patch (need_header : bool) (f : PatchFile)
  : M (Reader I) (bool * PatchFile) :=
  let need_header :=
    if dt_in (pf_diff_type f) [ED_DIFF; NORMAL_DIFF] then false
    else need_header in
  modify (with_rfc934_nesting 0) ;;;
  r <- get ;;
  s <- add_patch_loop (S (lines_left (impl r))) (pf_diff_type f)
         (mkScan need_header None false false new_header None None
                 (revision f)) ;;
  let f := with_revision (scan_revision s) f in
  found <-
    match patch s with
    | Some _ => ret (Some s)
    | None =>
        if is_some (edcmdpos s) then
          at_ <- bound (edcmdpos s) ;;
          ret (Some (with_patch (new_patch EdPatch None) at_ s))
        else if exthdrs s then
          e <- get_pos (-1) ;;
          at_ <- get_pos 0 ;;
          let h := with_hdr_end (Some e) (hdr s) in
          ret (Some (with_patch (new_patch UniPatch (Some h)) at_
                                (with_hdr h s)))
        else ret None
    end ;;
  match found with
  | None => ret (false, f)
  | Some s => add_patch_parse s f
  end.

(** [self.patches[-1]]. *)
Definition last_patch (f : PatchFile) : option Patch :=
  index (patches f) (-1).

(** The [while self.add_patch(reader, need_header)] loop of
    [PatchFile.__init__]. *)
Fixpoint init_loop (fuel : nat) (need_header : bool) (startpos : Z)
    (f : PatchFile) : M (Reader I) PatchFile :=
  match fuel with
  | O => out_of_fuel
  | S fuel' =>
      '(ok, f) <- add_patch need_header f ;;
      if ok then
        f <- match pf_header f with
             | None =>
                 match last_patch f with
                 | None => raise IndexError
                 | Some p =>
                     ls <- get_raw_lines startpos
                             (hdr_begin (patch_header p)) ;;
                     ret (with_pf_header (Some (mkFileHeader ls)) f)
                 end
             | Some _ => ret f
             end ;;
        init_loop fuel' need_header startpos f
      else ret f
  end.

(** [PatchFile.__init__]; the loop over the patches runs on [fuel]. *)
Definition PatchFile_init (fuel : nat) (diff_type : DiffType)
    (need_header : bool) : M (Reader I) PatchFile :=
  let f := mkPatchFile diff_type None [] None None in
  startpos <- get_pos 0 ;;
  f <- init_loop fuel need_header startpos f ;;
  match pf_header f with
  | None =>
      ls <- get_raw_lines startpos None ;;
      ret (with_pf_header (Some (mkFileHeader ls)) f)
  | Some _ => ret f
  end.

End Headers.

(* ================================================================== *)
(** ** class [FileReader] *)
(* ================================================================== *)

(** The file object behind a [FileReader]: its content and the offset of
    the next read.  [readline] returns the text up to and with the next
    newline, or what is left of the file. *)
Record PyFile : Type := mkPyFile {
  content : str;
  offset : Z
}.

Fixpoint take_line (s : str) : str :=
  match s with
  | [] => []
  | c :: s' => if Ascii.eqb c nl then [c] else c :: take_line s'
  end.

Definition readline (fl : PyFile) : str * PyFile :=
  let l := take_line (skipn (Z.to_nat (offset fl)) (content fl)) in
  (l, mkPyFile (content fl) (offset fl + len l)).

Definition tell (fl : PyFile) : Z := offset fl.

(** [seek] to an absolute offset; a negative one is refused. *)
Definition seek (p : Z) (fl : PyFile) : result PyFile :=
  if p <? 0 then Raise ValueError else Ok (mkPyFile (content fl) p).

Module FR.

Record FileReader : Type := mkFileReader {
  f : option PyFile;
  line2pos : list Z;
  lineno : Z
}.

(** [FileReader.get_pos]. *)
Definition get_pos (s : FileReader) (lineoff : Z) : Z := lineno s + lineoff.

(** [FileReader.set_pos]. *)
Definition set_pos (pos : Z) : M FileReader unit :=
  fun s =>
    match f s with
    | None => Raise AttributeError
    | Some fl =>
        match index (line2pos s) pos with
        | None => Raise IndexError
        | Some p =>
            match seek p fl with
            | Ok fl' => Ok (tt, mkFileReader (Some fl') (line2pos s) pos)
            | Raise e => Raise e
            | Fuel => Fuel
            end
        end
    end.

(** [FileReader._get_line]. *)
Definition _get_line : M FileReader (option str) :=
  fun s =>
    match f s with
    | None => Ok (None, s)
    | Some fl =>
        let '(l, fl') := readline fl in
        if len l =? 0 then Ok (None, mkFileReader (Some fl') (line2pos s) (lineno s))
        else
          let n := lineno s + 1 in
          let l2p :=
            if len (line2pos s) <=? n
            then line2pos s ++ [tell fl'] else line2pos s in
          Ok (Some l, mkFileReader (Some fl') l2p n)
    end.

(** The [while self.lineno != end] loop of [get_raw_lines]. *)
Fixpoint raw_loop (fuel : nat) (end_ : option Z) (acc : list str)
  : M FileReader (list str) :=
  fun s =>
    if match end_ with Some e => lineno s =? e | None => false end
    then Ok (acc, s)
    else
      match fuel with
      | O => Fuel
      | S fuel' =>
          match _get_line s with
          | Ok (Some l, s') => raw_loop fuel' end_ (acc ++ [l]) s'
          | Ok (None, s') => Ok (acc, s')
          | Raise e => Raise e
          | Fuel => Fuel
          end
      end.

(** The lines [_get_line] can still return: no more than the characters
    after the offset. *)
Definition lines_left (s : FileReader) : nat :=
  match f s with
  | None => O
  | Some fl => Z.to_nat (len (content fl) - offset fl)
  end.

(** [FileReader.get_raw_lines]. *)
Definition get_raw_lines (start : Z) (end_ : option Z)
  : M FileReader (list str) :=
  s <- get ;;
  let oldpos := get_pos s 0 in
  set_pos start ;;;
  s <- get ;;
  ls <- raw_loop (S (lines_left s)) end_ [] ;;
  set_pos oldpos ;;;
  ret ls.

(** [FileReader(f)]: [set] records the offset the file is at. *)
Definition file_reader (fl : PyFile) : FileReader :=
  mkFileReader (Some fl) [tell fl] 0.

#[export] Instance impl : ReaderImpl FileReader := {
  impl_get_pos := get_pos;
  impl_set_pos := set_pos;
  impl_get_line := _get_line;
  impl_get_raw_lines := get_raw_lines;
  lines_left := lines_left
}.

End FR.

#[global] Existing Instance FR.impl.

(* ================================================================== *)
(** ** What the statements below speak of *)
(* ================================================================== *)


(** *** The scenarios of the specification *)

(** Scenario 1: a unified patch with one hunk. *)
Definition scenario1 : list str :=
  [lit "--- a" ++ [tab] ++ ln "2020-01-01 00:00:00";
   lit "+++ b" ++ [tab] ++ ln "2020-01-01 00:00:01";
   ln "@@ -1,2 +1,2 @@";
   ln " hello";
   ln "-world";
   ln "+WORLD"].

(** Scenario 6 as the specification words it: every line of scenario 1
    behind the two characters of a mail quote. *)
Definition scenario1_all_quoted : list str :=
  map (fun l => lit "- " ++ l) scenario1.

(** Scenario 1 quoted the way RFC 934 quotes: the lines that begin with a
    dash get the two characters, the others are left as they are. *)
Definition rfc934_quote (l : str) : str :=
  if startswith l (lit "-") then lit "- " ++ l else l.

Definition scenario1_rfc934 : list str := map rfc934_quote scenario1.

(** [dateutil.parser.parse] on the two timestamps of scenario 1, as seconds
    since the epoch; no other text is taken for a date. *)
Definition scenario_dates (s : str) : option Z :=
  if str_eqb s (lit "2020-01-01 00:00:00") then Some 1577836800
  else if str_eqb s (lit "2020-01-01 00:00:01") then Some 1577836801
  else None.

(** *** The reconstruction of the input the specification speaks of *)

(** Following the spec's words: the raw line range of a patch, from its
    [begin] to its [end], the last line it consumed. *)
Definition patch_lines {Stamp : Type} (ls : list str) (p : Patch Stamp)
  : list str :=
  match patch_begin Stamp p, patch_end Stamp p with
  | Some b, Some e => slice ls (Some b) (Some (e + 1))
  | _, _ => []
  end.

(** Following the spec's words: [FileHeader.lines] concatenated with the
    raw line ranges of all patches. *)
Definition reconstruction {Stamp : Type} (ls : list str) (f : PatchFile Stamp)
  : list str :=
  match pf_header Stamp f with
  | Some fh => fh_lines fh
  | None => []
  end ++ List.concat (map (patch_lines ls) (patches Stamp f)).

(** Scenario 1 in a mail: a line of text after the patch. *)
Definition scenario1_in_mail : list str := scenario1 ++ [ln "Regards"].

(** *** The state of a file reader and the lines of its file *)

(** The line index of a file reader is right for the file with content [c]:
    each entry after the offset [o] is the offset before it plus the
    length of the line read there, a line that is not empty. *)
Fixpoint chain (c : str) (o : Z) (rest : list Z) : bool :=
  match rest with
  | [] => true
  | o' :: rest' =>
      let l := fst (readline (mkPyFile c o)) in
      negb (null l) && (o' =? o + len l) && chain c o' rest'
  end.

(** A file reader as its methods leave it: it has a file, its line index
    starts at an offset of the file and is right, its position is a line of
    the index, and the file stands at the offset of that line. *)
Definition FR_wf (s : FR.FileReader) : bool :=
  match FR.f s, FR.line2pos s with
  | Some fl, o0 :: rest =>
      (0 <=? o0) && chain (content fl) o0 rest &&
      (0 <=? FR.lineno s) && (FR.lineno s <? len (FR.line2pos s)) &&
      match index (FR.line2pos s) (FR.lineno s) with
      | Some o => offset fl =? o
      | None => false
      end
  | _, _ => false
  end.

(** The lines [readline] returns one after the other from the offset [o]
    of a file with content [c]. *)
Fixpoint read_lines (fuel : nat) (c : str) (o : Z) : list str :=
  match fuel with
  | O => []
  | S n =>
      let l := fst (readline (mkPyFile c o)) in
      if null l then [] else l :: read_lines n c (o + len l)
  end.

(** The lines of the stream a file reader was set on: those of its file
    from the first offset of the line index. *)
Definition stream_lines (s : FR.FileReader) : list str :=
  match FR.f s, FR.line2pos s with
  | Some fl, o0 :: _ =>
      read_lines (S (List.length (content fl))) (content fl) o0
  | _, _ => []
  end.

(** Two file readers a caller cannot tell apart by reading on: the same
    file at the same offset, the same position. *)
Definition same_view (a b : FR.FileReader) : Prop :=
  FR.f a = FR.f b /\ FR.lineno a = FR.lineno b.

(** Two readers with the same attributes over file readers that read on
    alike. *)
Definition same_reader (r1 r2 : Reader FR.FileReader) : Prop :=
  tab_size r1 = tab_size r2 /\ indent r1 = indent r2 /\
  rfc934_nesting r1 = rfc934_nesting r2 /\ strip_cr r1 = strip_cr r2 /\
  line r1 = line r2 /\ same_view (impl r1) (impl r2).

(** Two outcomes that agree: the same value over readers that read on
    alike, or the same failure. *)
Definition same_outcome {A} (x y : result (A * Reader FR.FileReader)) : Prop :=
  match x, y with
  | Ok (a, r1), Ok (b, r2) => a = b /\ same_reader r1 r2
  | Raise e1, Raise e2 => e1 = e2
  | Fuel, Fuel => True
  | _, _ => False
  end.

(** *** Readers over a list of lines *)

Abbreviation pos r := (lineno (impl r)).
Abbreviation input r := (lines (impl r)).

(** The attributes a read leaves alone. *)
Definition same_modes (r r' : Reader LineReader) : Prop :=
  tab_size r' = tab_size r /\ indent r' = indent r /\
  rfc934_nesting r' = rfc934_nesting r /\ strip_cr r' = strip_cr r /\
  input r' = input r.

(** *** The invariants of the header scan and of the driver *)

Section Invariants.
Variable Stamp : Type.

(** The header and the hunks of the patches of a parsed file. *)
Definition patches_of (x : result (PatchFile Stamp * Reader LineReader))
  : option (list (Patch Stamp)) :=
  match x with
  | Ok (f, _) => Some (patches Stamp f)
  | _ => None
  end.

Definition old_mode (p : Patch Stamp) : option Z :=
  mode Stamp (old Stamp (patch_header Stamp p)).
Definition new_mode (p : Patch Stamp) : option Z :=
  mode Stamp (new Stamp (patch_header Stamp p)).

(** A patch whose header has a [begin] begins there, at or after [p0]. *)
Definition patch_ok (p0 : Z) (p : Patch Stamp) : Prop :=
  forall b, hdr_begin Stamp (patch_header Stamp p) = Some b ->
            patch_begin Stamp p = Some b /\ p0 <= b.

(** The header the scan fills in begins at or after [p0], and so does the
    patch it has found. *)
Definition scan_ok (p0 : Z) (s : Scan Stamp) : Prop :=
  (forall b, hdr_begin Stamp (hdr Stamp s) = Some b -> p0 <= b) /\
  (forall p, patch Stamp s = Some p -> patch_ok p0 p).

(** What the loop of [PatchFile.__init__] keeps true of the file: no patch
    and no file header yet, or a first patch that keeps to the input after
    [p0] and the lines from [sp] to the [begin] of its header as file
    header. *)
Definition file_ok (ls : list str) (sp p0 : Z) (f : PatchFile Stamp) : Prop :=
  (pf_header Stamp f = None /\ patches Stamp f = []) \/
  (exists p rest,
     patches Stamp f = p :: rest /\ patch_ok p0 p /\
     pf_header Stamp f =
       Some (mkFileHeader
               (slice ls (Some sp) (hdr_begin Stamp (patch_header Stamp p))))).

End Invariants.

(** *** The lines of a file and the loop of [get_raw_lines] *)

(** The lines of a file from an offset on. *)
Definition lines_at (c : str) (o : Z) : list str :=
  read_lines (S (List.length c)) c o.

(** What [FR_wf] says, piece by piece. *)
Definition wf_facts (s : FR.FileReader) (fl : PyFile) (o0 : Z)
    (rest : list Z) : Prop :=
  FR.f s = Some fl /\ FR.line2pos s = o0 :: rest /\ 0 <= o0 /\
  chain (content fl) o0 rest = true /\
  0 <= FR.lineno s /\ FR.lineno s < len (o0 :: rest) /\
  nth_error (o0 :: rest) (Z.to_nat (FR.lineno s)) = Some (offset fl).

(** The lines [get_raw_lines] collects from the line [k] on, out of the
    lines [ls] the file still has: up to the line [e], or all of them when
    there is no end or the end is behind. *)
Definition until (end_ : option Z) (k : Z) (ls : list str) : list str :=
  match end_ with
  | Some e => if k <=? e then firstn (Z.to_nat (e - k)) ls else ls
  | None => ls
  end.

(** A computation that cannot tell two readers apart that look alike. *)
Definition sim {A} (m : M (Reader FR.FileReader) A) : Prop :=
  forall r1 r2, same_reader r1 r2 -> same_outcome (m r1) (m r2).

(** *** Inputs the statements are run on *)

(** A body cut short after its first line: the second context line is made
    up by the parser. *)
Definition chopped_hunk : Reader LineReader :=
  line_reader [ln "@@ -1,2 +1,2 @@"; ln " a"].

Definition chopped_hunk_parsed : Hunk :=
  Eval vm_compute in
    match UniHunk_parse new_hunk chopped_hunk with
    | Ok (_, h, _) => h
    | _ => new_hunk
    end.

Definition insert_hunk : Reader LineReader :=
  line_reader [ln "@@ -7 +8,0 @@"; ln "-gone"].

Definition insert_hunk_parsed : Hunk :=
  Eval vm_compute in
    match UniHunk_parse new_hunk insert_hunk with
    | Ok (_, h, _) => h
    | _ => new_hunk
    end.


(** A file whose last line was cut: a comment, then a line without its
    newline. *)
Definition cut_input : Reader LineReader :=
  line_reader [ln "# note"; lit "--- a"].

(** Three lines of a mail before the patch of scenario 1. *)
Definition scenario1_after_text : list str :=
  [ln "Hello,"; ln "please apply."; ln "--"] ++ scenario1.

Definition mail_reader : Reader LineReader :=
  line_reader scenario1_after_text.

(** Three lines, and a file reader that has read two of them. *)
Definition three_lines : str := ln "a" ++ ln "b" ++ ln "c".

Definition two_read : FR.FileReader :=
  FR.mkFileReader (Some (mkPyFile three_lines 4)) [0; 2; 4] 2.

(** The same reader set back to its second line. *)
Definition mid_read : FR.FileReader :=
  FR.mkFileReader (Some (mkPyFile three_lines 2)) [0; 2; 4] 1.

(** *** Indentation *)

(** The characters [strip_indent] and the loop of [pget_line] count as
    indentation: a tab, a space and the letter X. *)
Definition is_indent_char (c : ascii) : bool :=
  Ascii.eqb c tab || (Ascii.eqb c " "%char || Ascii.eqb c "X"%char).

(** *** Further inputs the statements are run on *)

(** The reader of [chopped_hunk] after its first line was read. *)
Definition header_read : Reader LineReader :=
  Eval vm_compute in
    match get_line true chopped_hunk with
    | Ok (_, r) => r
    | _ => chopped_hunk
    end.

(** *** Names and modes *)

(** The number a string of octal digits writes. *)
Definition octal_value (s : str) : Z :=
  fold_left (fun a c => a * 8 + (code c - 48)) s 0.

(** A character a quoted name holds as it is: no quote and no backslash. *)
Definition plain_char (c : ascii) : bool :=
  negb (Ascii.eqb c dquote) && negb (Ascii.eqb c bslash).

Definition not_tab (c : ascii) : bool := negb (Ascii.eqb c tab).

Definition not_space (c : ascii) : bool := negb (is_space c).

(** An ed script: a change command with its text, then a delete. *)
Definition ed_script : Reader LineReader :=
  line_reader [ln "3c"; ln "new text"; ln "."; ln "1d"].

(** The hunk [EdHunk.parse] reads from [ed_script], and the reader after
    it. *)
Definition ed_script_parsed : Hunk * Reader LineReader :=
  Eval vm_compute in
    match EdHunk_parse new_hunk ed_script with
    | Ok (_, h, r) => (h, r)
    | _ => (new_hunk, ed_script)
    end.

(** The command line of a normal diff with the lines it stands for. *)
Definition normal_diff : Reader LineReader :=
  line_reader [ln "2,3c2,3"; ln "< old1"; ln "< old2"; ln "---";
               ln "> new1"; ln "> new2"].

Definition normal_diff_parsed : Hunk * Reader LineReader :=
  Eval vm_compute in
    match NormalHunk_parse new_hunk normal_diff with
    | Ok (_, h, r) => (h, r)
    | _ => (new_hunk, normal_diff)
    end.

(** The reader of [chopped_hunk] after the hunk was parsed. *)
Definition chopped_hunk_after : Reader LineReader :=
  Eval vm_compute in
    match UniHunk_parse new_hunk chopped_hunk with
    | Ok (_, _, r) => r
    | _ => chopped_hunk
    end.

(** A unified patch without a header, and what [Patch.parse] makes of it
    on [chopped_hunk]. *)
Definition bare_uni_patch : Patch Z :=
  new_patch Z scenario_dates 0 UniPatch None.

Definition bare_uni_patch_parsed : Patch Z * Reader LineReader :=
  Eval vm_compute in
    match Patch_parse Z bare_uni_patch chopped_hunk with
    | Ok (p, r) => (p, r)
    | _ => (bare_uni_patch, chopped_hunk)
    end.

(** The file of scenario 1 before its first patch is added, and after. *)
Definition empty_patch_file : PatchFile Z :=
  mkPatchFile Z ANY_DIFF None [] None None.

Definition scenario1_added : PatchFile Z * Reader LineReader :=
  Eval vm_compute in
    match add_patch Z scenario_dates 0 true empty_patch_file
            (line_reader scenario1) with
    | Ok (_, f, r) => (f, r)
    | _ => (empty_patch_file, line_reader scenario1)
    end.

(** *** A line the header scan and the hunk parser read differently *)

(** The line begins a unified hunk for the header scan, and is no hunk
    header for the hunk parser. *)
Definition stuck_line (l : str) : Prop :=
  exists t, l = lit "@@ -" ++ t /\ endswith l [nl] = true /\
            Re.re_unihunk l = None.

(** *** A normal diff read as a file *)

(** The lines of [normal_diff] after two lines of text. *)
Definition normal_diff_in_mail : Reader LineReader :=
  line_reader ([ln "Hello,"; ln "please apply."] ++ input normal_diff).

Definition normal_diff_file : PatchFile Z * Reader LineReader :=
  Eval vm_compute in
    match PatchFile_init Z scenario_dates 0 3 ANY_DIFF false
            normal_diff_in_mail with
    | Ok (f, r) => (f, r)
    | _ => (mkPatchFile Z ANY_DIFF None [] None None, normal_diff_in_mail)
    end.

(* ================================================================== *)
(** * Properties *)
(* ================================================================== *)

(** ** Tactics *)

(** Case analysis on the scrutinee of a [match] in a hypothesis. *)
Ltac break_in H :=
  match type of H with
  | context [match ?x with _ => _ end] =>
      let E := fresh "E" in destruct x eqn:E
  | context [if ?x then _ else _] =>
      let E := fresh "E" in destruct x eqn:E
  end.

Ltac inv H := inversion H; subst; clear H.

(** Unfolding the monad. *)
Ltac munfold :=
  unfold bind, ret, get, gets, put, modify, raise, out_of_fuel, bound,
    lift_result, lift in *.

Ltac msimpl_in H :=
  cbv beta iota zeta delta
    [bind ret get gets put modify raise out_of_fuel bound lift_result
     get_pos] in H.

Ltac msimpl :=
  cbv beta iota zeta delta
    [bind ret get gets put modify raise out_of_fuel bound lift_result
     get_pos].

(** ** The line reader *)

Lemma same_modes_refl r : same_modes r r.
Proof. repeat split. Qed.

Lemma same_modes_trans r1 r2 r3 :
  same_modes r1 r2 -> same_modes r2 r3 -> same_modes r1 r3.
Proof.
  unfold same_modes; intros (?&?&?&?&?) (?&?&?&?&?).
  repeat split; congruence.
Qed.

Lemma LineReader_get_line_spec (r r' : Reader LineReader) x :
  _get_line r = Ok (x, r') ->
  same_modes r r' /\ line r' = line r /\
  match x with
  | None => r' = r /\ len (input r) <= pos r
  | Some l => pos r' = pos r + 1 /\ index (input r) (pos r) = Some l /\
              pos r < len (input r)
  end.
Proof.
  unfold _get_line, lift; simpl. unfold LineReader_get_line.
  destruct r as [ts ind nest scr ln [ls n]]; simpl.
  destruct (n >=? len ls) eqn:E.
  - intros H; inv H. repeat split. apply Z.geb_le in E. lia.
  - destruct (index ls n) eqn:Ei; intros H; inv H.
    repeat split; simpl; auto.
    rewrite Z.geb_leb in E. apply Z.leb_gt in E. lia.
Qed.

Lemma for_indent_bound ts ind l i k :
  for_indent ts ind l i = Ok k -> l <> [] -> exists j, k = Some j.
Proof.
  unfold for_indent. destruct l; [congruence|].
  intros H _. unfold rbind in H.
  destruct (indent_scan ts ind 0 0 (a :: l)); inv H. eauto.
Qed.

(** What the loop of [pget_line] does to the reader: it only moves the
    position forward, and the line it stops at is the one before the final
    position. *)
Lemma pget_loop_spec fuel ind nest skip :
  forall i (r r' : Reader LineReader) x,
  pget_loop fuel ind nest skip i r = Ok (x, r') ->
  same_modes r r' /\ line r' = line r /\ pos r <= pos r' /\
  match x with
  | None => True
  | Some (l, _) =>
      pos r < pos r' /\ pos r' <= len (input r) /\
      index (input r) (pos r' - 1) = Some l
  end.
Proof.
  induction fuel as [|fuel IH]; intros i r r' x H; simpl in H.
  - discriminate.
  - munfold. destruct (_get_line r) as [[o r1]| |] eqn:G; try discriminate.
    apply LineReader_get_line_spec in G. destruct G as (Hm & Hl & Hx).
    destruct o as [l|].
    + destruct Hx as (Hp & Hi & Hlt).
      destruct (for_indent (tab_size r1) ind l i) as [i1| |]; try discriminate.
      assert (Hstep : forall (i2 : option Z) (needmore : bool),
        (if needmore then pget_loop fuel ind nest skip i2
         else fun s => Ok (Some (l, i2), s)) r1 = Ok (x, r') ->
        same_modes r r' /\ line r' = line r /\ pos r <= pos r' /\
        match x with
        | None => True
        | Some (l, _) =>
            pos r < pos r' /\ pos r' <= len (input r) /\
            index (input r) (pos r' - 1) = Some l
        end).
      { intros i2 [|] H2; cbv beta in H2.
        - apply IH in H2. destruct H2 as (Hm2 & Hl2 & Hp2 & Hx2).
          assert (Hin : input r1 = input r) by apply Hm.
          split; [eapply same_modes_trans; eauto|].
          split; [congruence|]. split; [lia|].
          destruct x as [[l' ?]|]; auto. rewrite Hin in Hx2.
          intuition lia.
        - inv H2. split; auto. split; auto. split; [lia|].
          rewrite Hp. replace (pos r + 1 - 1) with (pos r) by lia.
          intuition lia. }
      destruct (nest >? 0), skip, i1 as [k|]; msimpl_in H;
        try discriminate;
        first [ eapply Hstep; exact H | eapply (Hstep _ false); exact H ].
    + inv H. destruct Hx as (-> & _). repeat split; auto; lia.
Qed.

Lemma indent_scan_no_fuel ts ind l : forall cur i,
  indent_scan ts ind cur i l <> Fuel.
Proof.
  induction l as [|c l IH]; intros cur i; simpl; [discriminate|].
  destruct (cur >=? ind); [discriminate|].
  destruct (Ascii.eqb c tab).
  - destruct (ts =? 0); [discriminate | apply IH].
  - destruct (_ || _); [apply IH | discriminate].
Qed.

Lemma for_indent_no_fuel ts ind l i : for_indent ts ind l i <> Fuel.
Proof.
  unfold for_indent, rbind. destruct l; [discriminate|].
  pose proof (indent_scan_no_fuel ts ind (a :: l) 0 0).
  destruct (indent_scan ts ind 0 0 (a :: l)); congruence.
Qed.

Lemma strip_scan_no_fuel ts l : forall ind i, strip_scan ts ind i l <> Fuel.
Proof.
  induction l as [|c l IH]; intros ind i; simpl; [discriminate|].
  destruct (Ascii.eqb c tab).
  - destruct (ts =? 0); [discriminate | apply IH].
  - destruct (_ || _); [apply IH | discriminate].
Qed.

(** The fuel [pget_line] gives its loop is enough. *)
Lemma pget_loop_total fuel ind nest skip :
  forall i (r : Reader LineReader),
  (lines_left (impl r) < fuel)%nat ->
  pget_loop fuel ind nest skip i r <> Fuel.
Proof.
  induction fuel as [|fuel IH]; intros i r Hf; [lia|].
  simpl. msimpl.
  destruct (_get_line r) as [[o r1]| |] eqn:G; try discriminate.
  - apply LineReader_get_line_spec in G. destruct G as (Hm & Hl & Hx).
    destruct o as [l|]; [|discriminate].
    destruct Hx as (Hp & Hi & Hlt).
    pose proof (for_indent_no_fuel (tab_size r1) ind l i) as Hn.
    destruct (for_indent (tab_size r1) ind l i) as [i1| |]; try congruence.
    assert (Hr1 : (lines_left (impl r1) < fuel)%nat).
    { simpl in *. destruct Hm as (_&_&_&_&Hin). rewrite Hin, Hp. lia. }
    destruct (nest >? 0), skip, i1 as [k|]; msimpl; try discriminate;
      try (destruct (startswith_at _ _ _); [apply IH; exact Hr1 | discriminate]).
  - unfold _get_line, lift in G. simpl in G. unfold LineReader_get_line in G.
    destruct (_ >=? _); [discriminate|]. destruct (index _ _); discriminate.
Qed.

(** What [pget_line] does to the reader: on success it stands after a line
    that ends in a newline; on failure the line buffer is as it was. *)
Lemma pget_line_spec ind nest scr skip (r r' : Reader LineReader) b :
  pget_line ind nest scr skip r = Ok (b, r') ->
  same_modes r r' /\ pos r <= pos r' /\
  if b then
    pos r < pos r' /\ pos r' <= len (input r) /\
    exists l, index (input r) (pos r' - 1) = Some l /\
              endswith l [nl] = true
  else line r' = line r.
Proof.
  unfold pget_line, fetch_line. msimpl. intros H.
  destruct (pget_loop _ ind nest skip None r) as [[x r1]| |] eqn:L;
    try discriminate.
  apply pget_loop_spec in L. destruct L as (Hm & Hl & Hp & Hx).
  destruct x as [[l i]|].
  - destruct (endswith l [nl]) eqn:En; simpl in H.
    + destruct i as [k|]; [|discriminate].
      assert (Hr : same_modes r1 r' /\ pos r' = pos r1 /\ b = true).
      { destruct (scr && _); inv H; repeat split. }
      destruct Hr as (Hr & Hq & ->). rewrite Hq.
      split; [eapply same_modes_trans; eauto|]. split; [exact Hp|].
      destruct Hx as (? & ? & ?). repeat split; auto. eauto.
    + inv H. auto.
  - inv H. auto.
Qed.

Lemma pget_line_total ind nest scr skip (r : Reader LineReader) :
  pget_line ind nest scr skip r <> Fuel.
Proof.
  unfold pget_line, fetch_line. msimpl.
  pose proof (pget_loop_total (S (lines_left (impl r))) ind nest skip None r)
    as Hn.
  destruct (pget_loop _ ind nest skip None r) as [[x r1]| |];
    try discriminate; [|exfalso; apply Hn; [lia | reflexivity]].
  destruct x as [[l i]|]; [|discriminate].
  destruct (negb _); [discriminate|].
  destruct i; [|discriminate]. destruct (scr && _); discriminate.
Qed.

Lemma get_line_unfold {I} {RI : ReaderImpl I} skip (r : Reader I) :
  get_line skip r = pget_line (indent r) (rfc934_nesting r) (strip_cr r) skip r.
Proof. reflexivity. Qed.

(** ** Digits and the groups of the patterns *)

Lemma span_forallb p s a b : span p s = (a, b) -> forallb p a = true.
Proof.
  revert a b. induction s as [|c s IH]; intros a b H; simpl in H.
  - inv H. reflexivity.
  - destruct (p c) eqn:E.
    + destruct (span p s) as [a' b'] eqn:S. inv H. simpl. rewrite E.
      eapply IH; eauto.
    + inv H. reflexivity.
Qed.

Lemma int10_acc_nonneg s : forall a,
  forallb is_digit s = true -> 0 <= a ->
  0 <= fold_left (fun a c => a * 10 + (code c - 48)) s a.
Proof.
  induction s as [|c s IH]; intros a H Ha; simpl; [assumption|].
  simpl in H. apply andb_true_iff in H. destruct H as (Hc & Hs).
  apply IH; [assumption|]. unfold is_digit in Hc.
  apply andb_true_iff in Hc. destruct Hc as (Hc & _).
  apply Z.leb_le in Hc. lia.
Qed.

Lemma int10_nonneg s : forallb is_digit s = true -> 0 <= int10 s.
Proof. intros H. apply int10_acc_nonneg; [assumption | lia]. Qed.

Lemma opt_comma_digits_digits s g r :
  Re.opt_comma_digits s = (g, r) ->
  match g with Some d => forallb is_digit d = true | None => True end.
Proof.
  unfold Re.opt_comma_digits. destruct s as [|c s]; [intros H; inv H; exact I|].
  destruct (Ascii.eqb c ","%char); [|intros H; inv H; exact I].
  destruct (span is_digit s) as [d r0] eqn:S.
  destruct (null d); intros H; inv H; [exact I|].
  eapply span_forallb; eauto.
Qed.

Lemma declared_nonneg_of s g r :
  Re.opt_comma_digits s = (g, r) -> 0 <= declared g.
Proof.
  intros H. apply opt_comma_digits_digits in H. destruct g; simpl; [|lia].
  apply int10_nonneg; assumption.
Qed.

(** The counts a matching [@@] line declares are not negative. *)
Lemma re_unihunk_declared l g1 g2 g3 g4 g5 :
  Re.re_unihunk l = Some (g1, g2, g3, g4, g5) ->
  0 <= declared g2 /\ 0 <= declared g4.
Proof.
  unfold Re.re_unihunk. intros H.
  destruct (eat (lit "@@ -") l) as [r0|]; [|discriminate].
  destruct (span is_digit r0) as [a1 r1].
  destruct (null a1); [discriminate|].
  destruct (Re.opt_comma_digits r1) as [a2 r2] eqn:O2.
  destruct (eat (lit " +") r2) as [r3|]; [|discriminate].
  destruct (span is_digit r3) as [a3 r4].
  destruct (null a3); [discriminate|].
  destruct (Re.opt_comma_digits r4) as [a4 r5] eqn:O4.
  destruct (eat (lit " @@") r5) as [r6|]; [|discriminate].
  assert (g2 = a2 /\ g4 = a4) as (-> & ->).
  { destruct r6 as [|c r6]; [inv H; auto|].
    destruct (Ascii.eqb c " "%char); inv H; auto. }
  split; eapply declared_nonneg_of; eauto.
Qed.

(** ** The body of a unified hunk *)

Lemma uni_line_counts l p q h p' q' h' :
  uni_line l p q h = Ok (Some (p', q', h')) ->
  0 <= p -> 0 <= q ->
  0 <= p' /\ 0 <= q' /\ (p' + q' < p + q) /\
  len (src h') + p' = len (src h) + p /\
  len (dst h') + q' = len (dst h) + q /\
  srcline h' = srcline h /\ dstline h' = dstline h /\
  section h' = section h /\ hunk_begin h' = hunk_begin h.
Proof.
  unfold uni_line. destruct l as [|ch rest]; [discriminate|].
  intros H Hp Hq. unfold len in *.
  destruct (Ascii.eqb ch "-"%char).
  { destruct (p <=? 0) eqn:E; inv H. apply Z.leb_gt in E.
    simpl. rewrite length_app. simpl. repeat split; lia. }
  destruct (existsb (Ascii.eqb ch) [" "%char; "="%char; tab; nl]).
  { destruct ((p <=? 0) || (q <=? 0)) eqn:E; inv H.
    apply orb_false_iff in E. destruct E as (E1 & E2).
    apply Z.leb_gt in E1, E2.
    simpl. rewrite !length_app. simpl. repeat split; lia. }
  destruct (Ascii.eqb ch "+"%char); [|discriminate].
  destruct (q <=? 0) eqn:E; inv H. apply Z.leb_gt in E.
  simpl. rewrite length_app. simpl. repeat split; lia.
Qed.

Lemma uni_line_no_fuel l p q h : uni_line l p q h <> Fuel.
Proof.
  unfold uni_line. destruct l; [discriminate|].
  repeat match goal with |- context [if ?c then _ else _] => destruct c end;
    discriminate.
Qed.

Section UniBody.
Context {I : Type} {RI : ReaderImpl I}.

(** A hunk body that is accepted holds as many source and destination
    changes as the counters asked for. *)
Lemma uni_body_counts fuel :
  forall p q h (r r' : Reader I) h',
  0 <= p -> 0 <= q ->
  uni_body fuel p q h r = Ok (true, h', r') ->
  len (src h') = len (src h) + p /\ len (dst h') = len (dst h) + q.
Proof.
  induction fuel as [|fuel IH]; intros p q h r r' h' Hp Hq H.
  - simpl in H. destruct ((p >? 0) || (q >? 0)) eqn:E.
    + msimpl_in H. discriminate.
    + apply orb_false_iff in E. destruct E as (E1 & E2).
      rewrite Z.gtb_ltb in E1, E2. apply Z.ltb_ge in E1, E2.
      msimpl_in H. inv H. simpl. lia.
  - simpl in H. destruct ((p >? 0) || (q >? 0)) eqn:E.
    + msimpl_in H.
      destruct (get_line true r) as [[ok r1]| |]; try discriminate.
      destruct (if negb ok || (len (line r1) <? 1) then _ else _) as [l|]; msimpl_in H; [|discriminate].
      destruct (uni_line l p q h) as [[[[p1 q1] h1]|]| |] eqn:U;
        msimpl_in H; try discriminate.
      apply uni_line_counts in U; auto.
      destruct U as (Hp1 & Hq1 & _ & Hs & Hd & _).
      apply IH in H; auto. lia.
    + apply orb_false_iff in E. destruct E as (E1 & E2).
      rewrite Z.gtb_ltb in E1, E2. apply Z.ltb_ge in E1, E2.
      msimpl_in H. inv H. simpl. lia.
Qed.

(** The header fields are those set before the body is read, whatever the
    body does. *)
Lemma uni_body_header fuel :
  forall p q h (r r' : Reader I) b h',
  0 <= p -> 0 <= q ->
  uni_body fuel p q h r = Ok (b, h', r') ->
  srcline h' = srcline h /\ dstline h' = dstline h /\
  section h' = section h /\ hunk_begin h' = hunk_begin h.
Proof.
  induction fuel as [|fuel IH]; intros p q h r r' b h' Hp Hq H.
  - simpl in H. destruct ((p >? 0) || (q >? 0)); [msimpl_in H; discriminate|].
    msimpl_in H. inv H. auto.
  - simpl in H. destruct ((p >? 0) || (q >? 0)).
    + msimpl_in H.
      destruct (get_line true r) as [[ok r1]| |]; try discriminate.
      destruct (if negb ok || (len (line r1) <? 1) then _ else _) as [l|]; msimpl_in H; [|inv H; auto].
      destruct (uni_line l p q h) as [[[[p1 q1] h1]|]| |] eqn:U;
        msimpl_in H; try discriminate; [|inv H; auto].
      apply uni_line_counts in U; auto.
      destruct U as (Hp1 & Hq1 & _ & _ & _ & E1 & E2 & E3 & E4).
      apply IH in H; auto. destruct H as (? & ? & ? & ?).
      repeat split; congruence.
    + msimpl_in H. inv H. auto.
Qed.

End UniBody.

Lemma uni_header_spec g1 g2 g3 g4 g5 b h :
  exists h',
    uni_header (g1, g2, g3, g4, g5) b h = (declared g2, declared g4, h') /\
    srcline h' = Some (if declared g2 =? 0 then int10 g1 + 1 else int10 g1) /\
    dstline h' = Some (if declared g4 =? 0 then int10 g3 + 1 else int10 g3) /\
    section h' = g5 /\ hunk_begin h' = Some b /\
    src h' = src h /\ dst h' = dst h.
Proof.
  unfold uni_header, declared.
  destruct g2 as [d2|], g4 as [d4|]; simpl; eexists; repeat split.
Qed.

Section UniHunk.
Context {I : Type} {RI : ReaderImpl I}.

(** [UniHunk.parse] once its first line has matched the pattern. *)
Lemma UniHunk_parse_matched (r r1 : Reader I) g1 g2 g3 g4 g5 h0 :
  get_line true r = Ok (true, r1) ->
  Re.re_unihunk (line r1) = Some (g1, g2, g3, g4, g5) ->
  exists h1,
    UniHunk_parse h0 r =
      uni_body (Z.to_nat (declared g2 + declared g4))
               (declared g2) (declared g4) h1 r1 /\
    srcline h1 = Some (if declared g2 =? 0 then int10 g1 + 1 else int10 g1) /\
    dstline h1 = Some (if declared g4 =? 0 then int10 g3 + 1 else int10 g3) /\
    section h1 = g5 /\ src h1 = src h0 /\ dst h1 = dst h0.
Proof.
  intros G R. unfold UniHunk_parse. msimpl. rewrite G. simpl. rewrite R.
  destruct (uni_header_spec g1 g2 g3 g4 g5
              (impl_get_pos (impl r1) (-1)) h0) as (h1 & E & ? & ? & ? & ? & ? & ?).
  rewrite E. exists h1. repeat split; auto.
Qed.

End UniHunk.

(** C1.  A unified hunk [UniHunk.parse] accepts holds as many [src] changes
    as the pattern count of its [@@] line and as many [dst] changes as the
    replacement count, each 1 when it is left out.  The lines the parser
    makes up for a body that was cut short are counted like those it
    reads. *)
Theorem UniHunk_parse_counts {I : Type} {RI : ReaderImpl I}
    (r r1 r' : Reader I) g1 g2 g3 g4 g5 (h : Hunk) :
  get_line true r = Ok (true, r1) ->
  Re.re_unihunk (line r1) = Some (g1, g2, g3, g4, g5) ->
  UniHunk_parse new_hunk r = Ok (true, h, r') ->
  len (src h) = declared g2 /\ len (dst h) = declared g4.
Proof.
  intros G R P.
  destruct (UniHunk_parse_matched r r1 g1 g2 g3 g4 g5 new_hunk G R)
    as (h1 & E & _ & _ & _ & Hs & Hd).
  rewrite E in P. destruct (re_unihunk_declared _ _ _ _ _ _ R) as (Hp & Hq).
  apply uni_body_counts in P; auto.
  rewrite Hs, Hd in P. simpl in P. exact P.
Qed.

Lemma UniHunk_parse_counts_chopped :
  len (src chopped_hunk_parsed) = declared (Some (lit "2")) /\
  len (dst chopped_hunk_parsed) = declared (Some (lit "2")).
Proof.
  eapply (UniHunk_parse_counts chopped_hunk); vm_compute; reflexivity.
Defined.
(** C2.  The header of a unified hunk [@@ -S[,P] +D[,R] @@]: a count that
    is left out is 1, and the hunk is accepted with exactly that many
    source and destination changes; the line number of a side whose count
    is 0 is one more than the number written, otherwise the number
    written.  [@@ -3 +4 @@] takes one [-] and one [+] line.
    [@@ -0,0 +1,3 @@] followed by three [+] lines is accepted, with
    [srcline] and [dstline] both 1. *)
Theorem UniHunk_parse_append_rule :
  (forall (I : Type) (RI : ReaderImpl I) (r r1 r' : Reader I)
          g1 g2 g3 g4 g5 (h0 h : Hunk) (b : bool),
     get_line true r = Ok (true, r1) ->
     Re.re_unihunk (line r1) = Some (g1, g2, g3, g4, g5) ->
     UniHunk_parse h0 r = Ok (b, h, r') ->
     let P := match g2 with Some d => int10 d | None => 1 end in
     let R := match g4 with Some d => int10 d | None => 1 end in
     srcline h = Some (if P =? 0 then int10 g1 + 1 else int10 g1) /\
     dstline h = Some (if R =? 0 then int10 g3 + 1 else int10 g3) /\
     (b = true ->
      len (src h) = len (src h0) + P /\ len (dst h) = len (dst h0) + R))
  /\ (exists h r',
        UniHunk_parse new_hunk
          (line_reader [ln "@@ -3 +4 @@"; ln "-a"; ln "+b"; ln "+c"])
        = Ok (true, h, r') /\
        srcline h = Some 3 /\ dstline h = Some 4 /\
        src h = [mkChange "-" (ln "a")] /\
        dst h = [mkChange "+" (ln "b")] /\
        lineno (impl r') = 3)
  /\ (exists h r',
        UniHunk_parse new_hunk
          (line_reader [ln "@@ -0,0 +1,3 @@"; ln "+a"; ln "+b"; ln "+c"])
        = Ok (true, h, r') /\
        srcline h = Some 1 /\ dstline h = Some 1 /\
        src h = [] /\
        dst h = [mkChange "+" (ln "a"); mkChange "+" (ln "b");
                 mkChange "+" (ln "c")]).
Proof.
  split; [|split].
  - intros I RI r r1 r' g1 g2 g3 g4 g5 h0 h b G R P. cbv zeta.
    change (match g2 with Some d => int10 d | None => 1 end)
      with (declared g2).
    change (match g4 with Some d => int10 d | None => 1 end)
      with (declared g4).
    destruct (UniHunk_parse_matched r r1 g1 g2 g3 g4 g5 h0 G R)
      as (h1 & E & Hs & Hd & _ & Hsrc & Hdst).
    rewrite E in P. destruct (re_unihunk_declared _ _ _ _ _ _ R) as (Hp & Hq).
    pose proof (uni_body_header _ _ _ _ _ _ _ _ Hp Hq P) as (E1 & E2 & _).
    split; [congruence|]. split; [congruence|].
    intros ->. apply uni_body_counts in P; auto.
    rewrite Hsrc, Hdst in P. exact P.
  - eexists. eexists. vm_compute. repeat split.
  - eexists. eexists. vm_compute. repeat split.
Qed.

Lemma UniHunk_parse_append_rule_insert :
  srcline insert_hunk_parsed = Some 7 /\ dstline insert_hunk_parsed = Some 9 /\
  len (src insert_hunk_parsed) = 1 /\ len (dst insert_hunk_parsed) = 0.
Proof.
  assert (G : get_line true insert_hunk
              = Ok (true, with_line (ln "@@ -7 +8,0 @@")
                            (with_impl (mkLineReader (input insert_hunk) 1)
                                       insert_hunk)))
    by (vm_compute; reflexivity).
  assert (R : Re.re_unihunk (ln "@@ -7 +8,0 @@")
              = Some (lit "7", None, lit "8", Some (lit "0"), None))
    by (vm_compute; reflexivity).
  assert (P : UniHunk_parse new_hunk insert_hunk
              = Ok (true, insert_hunk_parsed,
                    with_line (ln "-gone")
                      (with_impl (mkLineReader (input insert_hunk) 2)
                                 insert_hunk)))
    by (vm_compute; reflexivity).
  destruct (proj1 UniHunk_parse_append_rule LineReader _ insert_hunk
              _ _ (lit "7") None (lit "8") (Some (lit "0")) None new_hunk
              insert_hunk_parsed true G R P) as (Hs & Hd & Hc).
  destruct (Hc eq_refl) as (Hsrc & Hdst).
  split; [exact Hs|]. split; [exact Hd|]. split; [exact Hsrc | exact Hdst].
Defined.

(** ** Positions of the line reader *)

Lemma get_line_spec skip (r r' : Reader LineReader) b :
  get_line skip r = Ok (b, r') ->
  same_modes r r' /\ pos r <= pos r' /\
  if b then
    pos r < pos r' /\ pos r' <= len (input r) /\
    exists l, index (input r) (pos r' - 1) = Some l /\ endswith l [nl] = true
  else line r' = line r.
Proof. rewrite get_line_unfold. apply pget_line_spec. Qed.

Lemma get_line_total skip (r : Reader LineReader) : get_line skip r <> Fuel.
Proof. rewrite get_line_unfold. apply pget_line_total. Qed.

Lemma get_line_pos skip (r r' : Reader LineReader) b :
  get_line skip r = Ok (b, r') ->
  input r' = input r /\ pos r <= pos r' /\ (b = true -> pos r < pos r').
Proof.
  intros H. apply get_line_spec in H. destruct H as (Hm & Hp & Hb).
  split; [apply Hm|]. split; [assumption|]. intros ->. apply Hb.
Qed.

Lemma set_pos_LineReader p (r : Reader LineReader) :
  set_pos p r = Ok (tt, with_impl (with_lineno p (impl r)) r).
Proof. reflexivity. Qed.

Lemma get_pos_LineReader off (r : Reader LineReader) :
  get_pos off r = Ok (pos r + off, r).
Proof. reflexivity. Qed.

Lemma uni_body_pos fuel :
  forall p q h (r r' : Reader LineReader) b h',
  uni_body fuel p q h r = Ok (b, h', r') ->
  input r' = input r /\ pos r <= pos r'.
Proof.
  induction fuel as [|fuel IH]; intros p q h r r' b h' H; simpl in H.
  - destruct ((p >? 0) || (q >? 0)); msimpl_in H; [discriminate|].
    inv H. split; [reflexivity | lia].
  - destruct ((p >? 0) || (q >? 0)); msimpl_in H.
    + destruct (get_line true r) as [[ok r1]| |] eqn:G; try discriminate.
      apply get_line_pos in G. destruct G as (Gi & Gp & _).
      destruct (if negb ok || (len (line r1) <? 1) then _ else _) as [l|];
        msimpl_in H; [|inv H; auto].
      destruct (uni_line l p q h) as [[[[p1 q1] h1]|]| |];
        msimpl_in H; try discriminate; [|inv H; auto].
      apply IH in H. destruct H as (Hi & Hp). split; [congruence | lia].
    + inv H. split; [reflexivity | lia].
Qed.

Lemma ed_body_pos fuel :
  forall h (r r' : Reader LineReader) b h',
  ed_body fuel h r = Ok (b, h', r') ->
  input r' = input r /\ pos r <= pos r'.
Proof.
  induction fuel as [|fuel IH]; intros h r r' b h' H; simpl in H.
  - discriminate.
  - msimpl_in H.
    destruct (get_line false r) as [[ok r1]| |] eqn:G; try discriminate.
    apply get_line_pos in G. destruct G as (Gi & Gp & _).
    destruct ok; simpl in H; [|inv H; auto].
    destruct (str_eqb (line r1) _).
    + inv H. auto.
    + apply IH in H. destruct H as (Hi & Hp). split; [congruence | lia].
Qed.

(** A hunk parser never moves the reader back, and moves it forward when
    it accepts a hunk. *)
Lemma next_hunk_parse_pos c (r r' : Reader LineReader) b h :
  next_hunk_parse c r = Ok (b, h, r') ->
  input r' = input r /\ pos r <= pos r' /\ (b = true -> pos r < pos r').
Proof.
  destruct c; unfold next_hunk_parse, ContextHunk_parse, raise;
    try discriminate.
  - (* NormalHunk *)
    unfold NormalHunk_parse. msimpl.
    destruct (get_line true r) as [[ok r1]| |] eqn:G; try discriminate.
    apply get_line_pos in G. destruct G as (Gi & Gp & Gt).
    destruct ok; cbn [negb];
      [|intros H; inv H; repeat split; auto; discriminate].
    specialize (Gt eq_refl).
    destruct (Re.re_cmd (line r1)) as [[[[[g1 g2] cmd] g4] g5]|].
    + intros H; inv H. repeat split; auto; lia.
    + rewrite set_pos_LineReader. intros H; inv H. simpl.
      repeat split; auto; try lia; discriminate.
  - (* EdHunk *)
    unfold EdHunk_parse. msimpl.
    destruct (get_line true r) as [[ok r1]| |] eqn:G; try discriminate.
    apply get_line_pos in G. destruct G as (Gi & Gp & Gt).
    destruct ok; cbn [negb];
      [|intros H; inv H; repeat split; auto; discriminate].
    specialize (Gt eq_refl).
    destruct (get_edcmd (line r1)) as [edcmd|]; [|discriminate].
    destruct (contains (lit "ds") edcmd).
    + intros H; inv H. repeat split; auto; lia.
    + intros H. apply ed_body_pos in H. destruct H as (Hi & Hp).
      repeat split; try congruence; lia.
  - (* UniHunk *)
    unfold UniHunk_parse. msimpl.
    destruct (get_line true r) as [[ok r1]| |] eqn:G; try discriminate.
    apply get_line_pos in G. destruct G as (Gi & Gp & Gt).
    destruct ok; cbn [negb];
      [|intros H; inv H; repeat split; auto; discriminate].
    specialize (Gt eq_refl).
    destruct (Re.re_unihunk (line r1)) as [groups|].
    + destruct (uni_header groups _ new_hunk) as [[p q] h1].
      intros H. apply uni_body_pos in H. destruct H as (Hi & Hp).
      repeat split; try congruence; lia.
    + rewrite set_pos_LineReader. intros H; inv H. simpl.
      repeat split; auto; try lia; discriminate.
Qed.




(** The line the loop stops at is the one before the position it leaves
    the line reader at. *)
Lemma fetch_line_LineReader ind nest skip (r r1 : Reader LineReader) l i :
  fetch_line ind nest skip r = Ok (Some (l, i), r1) ->
  index (input r) (pos r1 - 1) = Some l /\ pos r < pos r1.
Proof.
  unfold fetch_line. msimpl. intros H. apply pget_loop_spec in H.
  destruct H as (_ & _ & _ & ? & ? & ?). split; assumption.
Qed.

(** The fetch never runs out of fuel on a line reader. *)
Lemma fetch_line_total ind nest skip (r : Reader LineReader) :
  fetch_line ind nest skip r <> Fuel.
Proof.
  unfold fetch_line. msimpl. apply pget_loop_total. lia.
Qed.

(** ** Ed hunks *)

(** What [get_edcmd] returns is one of the letters, or the five characters
    of a substitute command; [edcmd in 'ds'] holds for the letter [d]
    alone. *)
Lemma ed_letter_in_ds allowed s g rest :
  Re.ed_letter allowed s = Some (g, rest) ->
  existsb (Ascii.eqb "s"%char) allowed = false ->
  contains (lit "ds") g = str_eqb g (lit "d").
Proof.
  unfold Re.ed_letter. destruct s as [|c r]; [discriminate|].
  intros H Hs. destruct (existsb (Ascii.eqb c) allowed) eqn:Ec.
  - inv H. destruct (Ascii.eqb_spec c "s"%char) as [->|Hn].
    + congruence.
    + simpl. destruct (Ascii.eqb_spec c "d"%char) as [->|Hd]; [reflexivity|].
      simpl. apply Ascii.eqb_neq in Hn. rewrite Hn. reflexivity.
  - destruct r as [|s1 [|x [|s3 [|s4 r']]]]; try discriminate.
    destruct (Ascii.eqb_spec c "s"%char) as [->|]; [|discriminate].
    simpl in H. destruct (Ascii.eqb_spec s1 "/"%char) as [->|]; [|discriminate].
    simpl in H.
    destruct (negb (Ascii.eqb x nl) && Ascii.eqb s3 "/"%char
              && Ascii.eqb s4 "/"%char); inv H.
    reflexivity.
Qed.

Lemma get_edcmd_in_ds l edcmd :
  get_edcmd l = Some edcmd ->
  contains (lit "ds") edcmd = str_eqb edcmd (lit "d").
Proof.
  unfold get_edcmd, Re.re_edcmd.
  destruct (span is_digit l) as [d1 r]. destruct r as [|c r']; [discriminate|].
  destruct (Ascii.eqb c ","%char).
  - destruct (null d1); [discriminate|].
    destruct (span is_digit r') as [d2 r''].
    destruct (null d2); [discriminate|].
    destruct (Re.ed_letter (lit "cd") r'') as [[g rest]|] eqn:E; [|discriminate].
    destruct (Re.line_end rest); [|discriminate]. intros H; inv H.
    eapply ed_letter_in_ds; eauto.
  - destruct (Re.ed_letter (lit "aicd") (c :: r')) as [[g rest]|] eqn:E;
      [|discriminate].
    destruct (Re.line_end rest); [|discriminate]. intros H; inv H.
    eapply ed_letter_in_ds; eauto.
Qed.

(** C6, where the code departs from it.  [EdHunk.parse] ends the hunk at
    the command line for [d]; for [s/.//] the test [edcmd in 'ds'] fails,
    the parser reads on for a line with a single dot, finds none and
    refuses the hunk at the end of the input. *)
Theorem EdHunk_parse_substitute_reads_on :
  (exists h r',
     EdHunk_parse new_hunk (line_reader [ln "5d"; ln "1s/.//"])
       = Ok (true, h, r') /\
     hunk_begin h = Some 0 /\ hunk_end h = Some 0 /\ lineno (impl r') = 1) /\
  (exists h r',
     EdHunk_parse new_hunk (line_reader [ln "1s/.//"; ln "5d"])
       = Ok (false, h, r') /\
     hunk_end h = None /\ lineno (impl r') = 2) /\
  get_edcmd (ln "1s/.//") = Some (lit "s/.//") /\
  contains (lit "ds") (lit "s/.//") = false.
Proof.
  repeat split; try (eexists; eexists; vm_compute; repeat split).
Qed.

(** ** Normal hunks *)

(** C7, where the code departs from it.  [NormalHunk.parse] reads the
    command line, computes the pattern count and returns: no body line is
    read, [src] and [dst] stay empty. *)
Theorem NormalHunk_parse_reads_no_body :
  exists h r',
    NormalHunk_parse new_hunk
      (line_reader [ln "2,3c2,3"; ln "< old1"; ln "< old2"; ln "---";
                    ln "> new1"; ln "> new2"]) = Ok (true, h, r') /\
    srcline h = Some 2 /\ dstline h = Some 2 /\
    src h = [] /\ dst h = [] /\ lineno (impl r') = 1 /\
    NormalHunk_counts (lit "2", Some (lit "3"), "c"%char, lit "2",
                       Some (lit "3")) = (2, Some (lit "3")).
Proof.
  eexists. eexists. vm_compute. repeat split.
Qed.

(** [NormalHunk.parse] on any reader: a line was read when it succeeds, and
    the hunk it returns never holds a change. *)
Lemma NormalHunk_parse_empty {I : Type} {RI : ReaderImpl I}
    (r r' : Reader I) b h :
  NormalHunk_parse new_hunk r = Ok (b, h, r') -> src h = [] /\ dst h = [].
Proof.
  unfold NormalHunk_parse. msimpl.
  destruct (get_line true r) as [[ok r1]| |]; try discriminate.
  destruct ok; cbn [negb]; [|intros H; inv H; auto].
  destruct (Re.re_cmd (line r1)) as [[[[[g1 g2] cmd] g4] g5]|].
  - intros H; inv H. auto.
  - destruct (set_pos _ r1) as [[[] r2]| |]; intros H; inv H. auto.
Qed.

(** ** Scenarios of the driver *)

Section Scenarios.
Variable Stamp : Type.
Variable dateparse : str -> option Stamp.
Variable epoch : Stamp.

Local Abbreviation patches_of := (patches_of Stamp).
Local Abbreviation old_mode := (old_mode Stamp).
Local Abbreviation new_mode := (new_mode Stamp).

(** C9, where the code departs from it.  The line [deleted file mode M]
    gives [fetchmode] the text from its tenth character on, which is no
    octal number: the old mode becomes 0.  The line [new file mode M] gives
    it the text after the prefix: the new mode becomes M. *)
Theorem deleted_file_mode_is_zero :
  option_map (map (fun p => (old_mode p, new_mode p)))
    (patches_of
       (PatchFile_init Stamp dateparse epoch 3 ANY_DIFF true
          (line_reader [ln "diff --git a/x b/x";
                        ln "deleted file mode 100644"])))
  = Some [(Some 0, None)] /\
  option_map (map (fun p => (old_mode p, new_mode p)))
    (patches_of
       (PatchFile_init Stamp dateparse epoch 3 ANY_DIFF true
          (line_reader [ln "diff --git a/x b/x";
                        ln "new file mode 100644"])))
  = Some [(None, Some 33188)] /\
  fetchmode (lit "100644") = 33188 /\
  slice (ln "deleted file mode 100644") (Some 9) None = ln "ile mode 100644".
Proof.
  repeat split; vm_compute; reflexivity.
Qed.

End Scenarios.

Lemma str_eqb_eq s t : str_eqb s t = true -> s = t.
Proof.
  revert t. induction s as [|c s IH]; intros [|d t] H; simpl in H;
    try discriminate; [reflexivity|].
  apply andb_true_iff in H. destruct H as (Hc & Hs).
  apply Ascii.eqb_eq in Hc. f_equal; auto.
Qed.

Section QuotedScenario.
Variable Stamp : Type.
Variable dateparse : str -> option Stamp.
Variable epoch : Stamp.

Local Abbreviation parse_file ls :=
  (PatchFile_init Stamp dateparse epoch 3 ANY_DIFF true (line_reader ls)).

(** C5, as the code has it.  With scenario 1 quoted as RFC 934 quotes, the
    lines that begin with a dash behind [- ], and a timestamp on the
    [---] line that parses as a date, the header scan sets the nesting to 1
    from the [- --- a] line and the file parses to the patch of the
    unquoted scenario: names [a] and [b], one hunk with its two [src] and
    two [dst] changes. *)
Theorem rfc934_quoted_scenario (d : Stamp) :
  dateparse (lit "2020-01-01 00:00:00") = Some d ->
  match add_patch Stamp dateparse epoch true
          (mkPatchFile Stamp ANY_DIFF None [] None None)
          (line_reader scenario1_rfc934) with
  | Ok (found, _, r) => found = true /\ rfc934_nesting r = 1
  | _ => False
  end /\
  patches_of Stamp (parse_file scenario1_rfc934)
    = patches_of Stamp (parse_file scenario1) /\
  match patches_of Stamp (parse_file scenario1_rfc934) with
  | Some [p] =>
      patch_class Stamp p = UniPatch /\
      name Stamp (old Stamp (patch_header Stamp p)) = Some (lit "a") /\
      name Stamp (new Stamp (patch_header Stamp p)) = Some (lit "b") /\
      hunks Stamp p =
        [mkHunk (Some 1) (Some 1) None
           [mkChange " " (ln "hello"); mkChange "-" (ln "world")]
           [mkChange " " (ln "hello"); mkChange "+" (ln "WORLD")]
           (Some 2) (Some 5)]
  | _ => False
  end.
Proof.
  intros H.
  assert (E : dateparse =
              fun s => if str_eqb s (lit "2020-01-01 00:00:00")
                       then Some d else dateparse s).
  { apply functional_extensionality. intros s.
    destruct (str_eqb s (lit "2020-01-01 00:00:00")) eqn:Es; [|reflexivity].
    apply str_eqb_eq in Es. subst s. exact H. }
  rewrite E. clear E H.
  split; [|split]; vm_compute; repeat split.
Qed.

End QuotedScenario.

Lemma rfc934_quoted_scenario_dates :
  patches_of Z (PatchFile_init Z scenario_dates 0 3 ANY_DIFF true
                  (line_reader scenario1_rfc934))
  = patches_of Z (PatchFile_init Z scenario_dates 0 3 ANY_DIFF true
                    (line_reader scenario1)).
Proof.
  assert (H : scenario_dates (lit "2020-01-01 00:00:00") = Some 1577836800)
    by (vm_compute; reflexivity).
  pose proof (rfc934_quoted_scenario Z scenario_dates 0 1577836800 H)
    as (_ & E & _).
  exact E.
Defined.

(** C5 as the spec states it fails: with every line of scenario 1 quoted,
    the lines after [- --- a] are read without unquoting, none of them is
    taken for a header or a hunk, and the file has no patch. *)
Lemma all_quoted_scenario_no_patch :
  patches_of Z (PatchFile_init Z scenario_dates 0 3 ANY_DIFF true
                  (line_reader scenario1_all_quoted)) = Some [] /\
  patches_of Z (PatchFile_init Z scenario_dates 0 3 ANY_DIFF true
                  (line_reader scenario1_all_quoted))
  <> patches_of Z (PatchFile_init Z scenario_dates 0 3 ANY_DIFF true
                     (line_reader scenario1)).
Proof.
  split; [vm_compute; reflexivity|]. vm_compute. discriminate.
Qed.

(** ** Slices of a list *)

Lemma slice_split {A} (l : list A) (a b : Z) :
  0 <= a <= b ->
  slice l (Some a) (Some b) ++ slice l (Some b) None = slice l (Some a) None.
Proof.
  intros Hab. unfold slice, clamp, len.
  destruct (a <? 0) eqn:Ea; [apply Z.ltb_lt in Ea; lia|].
  destruct (b <? 0) eqn:Eb; [apply Z.ltb_lt in Eb; lia|].
  set (n := Z.of_nat (List.length l)).
  assert (Hn : 0 <= n) by (unfold n; lia).
  replace (Z.to_nat (n - Z.min b n)) with (List.length l - Z.to_nat (Z.min b n))%nat
    by (unfold n in *; lia).
  replace (Z.to_nat (n - Z.min a n)) with (List.length l - Z.to_nat (Z.min a n))%nat
    by (unfold n in *; lia).
  rewrite <- !length_skipn. rewrite !firstn_all.
  replace (Z.to_nat (Z.min b n)) with
    (Z.to_nat (Z.min a n) + Z.to_nat (Z.min b n - Z.min a n))%nat by lia.
  rewrite Nat.add_comm, <- skipn_skipn. apply firstn_skipn.
Qed.

Lemma get_raw_lines_LineReader start end_ (r : Reader LineReader) :
  get_raw_lines start end_ r = Ok (slice (input r) (Some start) end_, r).
Proof. destruct r as [? ? ? ? ? [? ?]]. reflexivity. Qed.

(** ** The header scan keeps to the input after its start *)

Lemma strip_indent_impl (r r' : Reader LineReader) ind :
  strip_indent r = Ok (ind, r') -> impl r' = impl r.
Proof.
  unfold strip_indent. msimpl. destruct (line r); [discriminate|].
  destruct (strip_scan _ _ _ _) as [[i k]| |]; intros H; inv H. reflexivity.
Qed.

Lemma get_raw_line_pos skip (r r' : Reader LineReader) b :
  get_raw_line skip r = Ok (b, r') ->
  input r' = input r /\ pos r <= pos r' /\ (b = true -> pos r < pos r').
Proof.
  unfold get_raw_line. intros H. apply pget_line_spec in H.
  destruct H as (Hm & Hp & Hb).
  split; [apply Hm|]. split; [assumption|]. intros ->. apply Hb.
Qed.

Section HeaderScan.
Variable Stamp : Type.
Variable dateparse : str -> option Stamp.
Variable epoch : Stamp.

Local Abbreviation Scan := (Scan Stamp).
Local Abbreviation scan_ok := (scan_ok Stamp).
Local Abbreviation patch_ok := (patch_ok Stamp).

Lemma git_header_line_frame l (s s' : Scan) :
  git_header_line Stamp l s = Some s' ->
  hdr_begin Stamp (hdr Stamp s') = hdr_begin Stamp (hdr Stamp s) /\
  patch Stamp s' = patch Stamp s.
Proof.
  unfold git_header_line. intros H.
  repeat match type of H with
         | context [if ?c then _ else _] => destruct c
         | context [match ?x with Some _ => _ | None => _ end] => destruct x
         end;
    inv H; auto.
Qed.

Lemma git_names_begin l h :
  hdr_begin Stamp (git_names Stamp l h) = hdr_begin Stamp h.
Proof.
  unfold git_names.
  destruct (parse_name _ false) as [[n|] t]; [|reflexivity].
  destruct (len t >? 0); [|reflexivity].
  destruct (parse_name _ false) as [n' t'].
  destruct (isspace t'); reflexivity.
Qed.

(** One step of a proof about the scan: a read, a case of the chain, or
    the end of a branch. *)
Ltac scan_step H :=
  match type of H with
  | context [get_raw_line ?b ?r] =>
      let G := fresh "G" in
      destruct (get_raw_line b r) as [[[|] ?]| |] eqn:G;
      [apply get_raw_line_pos in G; destruct G as (? & ? & G);
       specialize (G eq_refl)
      |apply get_raw_line_pos in G; destruct G as (? & ? & _)
      |clear G|clear G]
  | context [strip_indent ?r] =>
      let G := fresh "G" in
      destruct (strip_indent r) as [[? ?]| |] eqn:G;
      [apply strip_indent_impl in G|clear G|clear G]
  | context [if ?c then _ else _] => destruct c eqn:?
  | context [match ?x with Some _ => _ | None => _ end] => destruct x eqn:?
  | context [match ?x with nil => _ | cons _ _ => _ end] => destruct x eqn:?
  end;
  cbn [negb impl_get_pos LineReader_impl] in H; msimpl_in H;
  try discriminate H.

Lemma begin_if_none_bound p0 q (h : Header Stamp) b :
  (forall b, hdr_begin Stamp h = Some b -> p0 <= b) -> p0 <= q ->
  hdr_begin Stamp (begin_if_none Stamp q h) = Some b -> p0 <= b.
Proof.
  unfold begin_if_none. intros Hh Hq.
  destruct (hdr_begin Stamp h) eqn:E; simpl; intros H.
  - apply Hh. congruence.
  - inv H. assumption.
Qed.

Lemma git_header_line_ok p0 l (s s0 : Scan) :
  git_header_line Stamp l s = Some s0 ->
  scan_ok p0 s -> scan_ok p0 s0.
Proof.
  intros H (Hb & Hpt). apply git_header_line_frame in H.
  destruct H as (E1 & E2). split.
  - intros b Eb. apply Hb. congruence.
  - intros p Ep. apply Hpt. congruence.
Qed.

(** The reader after the attribute updates of the scan. *)
Ltac reader_simpl :=
  unfold with_indent, with_strip_cr, with_rfc934_nesting, with_line,
    with_impl, with_lineno in *;
  cbn [impl lineno lines] in *;
  repeat match goal with
         | E : impl ?a = impl ?b |- _ => rewrite E in *; clear E
         end.

(** The end of a branch: the invariant of the scan it leaves. *)
Ltac scan_ok_solve Hs :=
  let Hb := fresh "Hb" in
  let Hpt := fresh "Hpt" in
  destruct Hs as (Hb & Hpt);
  split;
  [ let b := fresh "b" in
    let Eb := fresh "Eb" in
    intros b Eb; cbn in Eb;
    try rewrite git_names_begin in Eb; cbn in Eb;
    first [ apply Hb; exact Eb
          | inv Eb; lia
          | eapply begin_if_none_bound; [exact Hb| |exact Eb]; lia
          | destruct (parse_c_name _); cbn in Eb;
            eapply begin_if_none_bound; [exact Hb| |exact Eb]; lia ]
  | let p := fresh "p" in
    let Ep := fresh "Ep" in
    intros p Ep; cbn in Ep;
    first [ apply Hpt; exact Ep
          | inv Ep; unfold patch_ok, new_patch;
            let b := fresh "b" in
            let Eb := fresh "Eb" in
            intros b Eb; cbn in Eb; cbn;
            first [ discriminate Eb
                  | split; [exact Eb | apply Hb; exact Eb] ] ] ].

Lemma header_chain_inv dt ind l crs (s : Scan) (r r' : Reader LineReader)
    x p0 :
  header_chain Stamp dateparse epoch dt ind l crs s r = Ok (x, r') ->
  p0 < pos r -> scan_ok p0 s ->
  input r' = input r /\ pos r <= pos r' /\
  match x with
  | Some (_, _, s') => scan_ok p0 s'
  | None => True
  end.
Proof.
  intros H Hp Hs. unfold header_chain in H. msimpl_in H.
  repeat scan_step H.
  all: inv H.
  all: reader_simpl.
  all: split; [congruence|]; split; [lia|].
  all: try exact I.
  all: try (eapply git_header_line_ok; eassumption).
  all: scan_ok_solve Hs.
Qed.

Lemma trigger_chain_inv dt ind l crs (s : Scan) (r r' : Reader LineReader)
    x p0 :
  trigger_chain Stamp dateparse epoch dt ind l crs s r = Ok (x, r') ->
  p0 < pos r -> scan_ok p0 s ->
  input r' = input r /\ pos r <= pos r' /\
  match x with
  | Some s' => scan_ok p0 s'
  | None => True
  end.
Proof.
  intros H Hp Hs. unfold trigger_chain in H. msimpl_in H.
  repeat scan_step H.
  all: inv H.
  all: reader_simpl.
  all: split; [congruence|]; split; [lia|].
  all: try exact I.
  all: try exact Hs.
  all: scan_ok_solve Hs.
Qed.

Lemma add_patch_pass_inv dt (s s' : Scan) (r r' : Reader LineReader)
    broke p0 :
  add_patch_pass Stamp dateparse epoch dt s r = Ok (broke, s', r') ->
  p0 < pos r -> scan_ok p0 s ->
  input r' = input r /\ pos r <= pos r' /\ scan_ok p0 s'.
Proof.
  intros H Hp Hs. unfold add_patch_pass in H. msimpl_in H.
  destruct (strip_indent r) as [[ind r1]| |] eqn:G; try discriminate.
  apply strip_indent_impl in G.
  destruct (header_chain _ _ _ dt ind (line r1) _ s r1)
    as [[c r2]| |] eqn:C; try discriminate.
  apply header_chain_inv with (p0 := p0) in C; [|rewrite G; exact Hp|exact Hs].
  rewrite G in C. destruct C as (Ci & Cp & Cs).
  destruct c as [[[ind' l'] s1]|].
  - destruct (trigger_chain _ _ _ dt ind' l' _ s1 r2) as [[t r3]| |] eqn:T;
      try discriminate.
    apply trigger_chain_inv with (p0 := p0) in T; [|lia|exact Cs].
    destruct T as (Ti & Tp & Ts).
    destruct t as [s2|]; inv H;
      (split; [congruence | split; [lia | assumption]]).
  - inv H. split; [congruence | split; [lia | assumption]].
Qed.

Lemma add_patch_loop_inv fuel dt p0 :
  forall (s s' : Scan) (r r' : Reader LineReader),
  add_patch_loop Stamp dateparse epoch fuel dt s r = Ok (s', r') ->
  p0 <= pos r -> scan_ok p0 s ->
  input r' = input r /\ pos r <= pos r' /\ scan_ok p0 s'.
Proof.
  induction fuel as [|fuel IH]; intros s s' r r' H Hp Hs; simpl in H.
  - destruct (patch Stamp s); msimpl_in H; [|discriminate].
    inv H. split; [reflexivity | split; [lia | assumption]].
  - destruct (patch Stamp s); msimpl_in H.
    { inv H. split; [reflexivity | split; [lia | assumption]]. }
    destruct (get_raw_line true r) as [[ok r1]| |] eqn:G; try discriminate.
    apply get_raw_line_pos in G. destruct G as (Gi & Gp & Gt).
    destruct ok; cbn [negb] in H.
    + specialize (Gt eq_refl).
      destruct (add_patch_pass _ _ _ dt s r1) as [[[broke s1] r2]| |] eqn:P;
        try discriminate.
      apply add_patch_pass_inv with (p0 := p0) in P; [|lia|exact Hs].
      destruct P as (Pi & Pp & Ps).
      destruct broke.
      * inv H. split; [congruence | split; [lia | assumption]].
      * apply IH in H; [|lia|exact Ps]. destruct H as (Hi & Hq & Hs').
        split; [congruence | split; [lia | assumption]].
    + inv H. split; [congruence | split; [lia | assumption]].
Qed.

(** [Patch.parse] keeps the header of the patch, and its [begin] when it
    has one. *)
Lemma parse_hunks_input fuel c :
  forall acc (r r' : Reader LineReader) hs,
  parse_hunks fuel c acc r = Ok (hs, r') -> input r' = input r.
Proof.
  induction fuel as [|fuel IH]; intros acc r r' hs H; simpl in H.
  - discriminate.
  - msimpl_in H.
    destruct (next_hunk_parse c r) as [[[ok h] r1]| |] eqn:N; try discriminate.
    apply next_hunk_parse_pos in N. destruct N as (Ni & _).
    destruct ok.
    + apply IH in H. congruence.
    + inv H. assumption.
Qed.

Lemma Patch_parse_inv p0 (p p' : Patch Stamp) (r r' : Reader LineReader) :
  Patch_parse Stamp p r = Ok (p', r') ->
  patch_ok p0 p ->
  input r' = input r /\ patch_ok p0 p'.
Proof.
  unfold Patch_parse. msimpl. intros H Hk.
  assert (Hq : forall q : Patch Stamp,
    patch_header Stamp q = patch_header Stamp p ->
    (forall b, patch_begin Stamp p = Some b -> patch_begin Stamp q = Some b) ->
    match parse_hunks (S (lines_left (impl r))) (patch_class Stamp q) [] r with
    | Ok (hs, r1) =>
        Ok (with_patch_end Stamp (Some (impl_get_pos (impl r1) (-1)))
              (with_hunks Stamp hs q), r1)
    | Raise e => Raise e
    | Fuel => Fuel
    end = Ok (p', r') ->
    input r' = input r /\ patch_ok p0 p').
  { intros q Eh Eb Hq.
    destruct (parse_hunks _ _ [] r) as [[hs r1]| |] eqn:P; try discriminate.
    apply parse_hunks_input in P. inv Hq. split; [assumption|].
    intros b Hb. cbn in Hb. cbn. rewrite Eh in Hb.
    destruct (Hk b Hb) as (Hk1 & Hk2). split; [apply Eb; exact Hk1|exact Hk2]. }
  destruct (patch_begin Stamp p) eqn:E.
  - apply (Hq p); auto. intros b Hb; congruence.
  - apply (Hq (with_patch_begin Stamp (Some (impl_get_pos (impl r) 0)) p));
      auto. intros b Hb; discriminate.
Qed.


Lemma add_patch_parse_inv (s : Scan) (f f' : PatchFile Stamp)
    (r r' : Reader LineReader) found p0 :
  add_patch_parse Stamp s f r = Ok (found, f', r') ->
  scan_ok p0 s ->
  input r' = input r /\ pf_header Stamp f' = pf_header Stamp f /\
  found = true /\
  exists p, patches Stamp f' = patches Stamp f ++ [p] /\ patch_ok p0 p.
Proof.
  unfold add_patch_parse. msimpl. intros Hf (Hb1 & Hp1).
  destruct (start Stamp s) as [k|]; [|discriminate].
  destruct (patch Stamp s) as [p|] eqn:Ep; [|discriminate].
  rewrite set_pos_LineReader in Hf.
  destruct (Patch_parse Stamp p _) as [[p' r3]| |] eqn:P; try discriminate.
  apply Patch_parse_inv with (p0 := p0) in P; [|apply Hp1; reflexivity].
  destruct P as (Pi & Pk). inv Hf. cbn in Pi.
  split; [congruence|]. split; [reflexivity|]. split; [reflexivity|].
  exists p'. split; [reflexivity | exact Pk].
Qed.

(** [add_patch] leaves the input and the file header alone; the patch it
    adds keeps to the input after the position of the call. *)
Lemma add_patch_inv nh (f f' : PatchFile Stamp) (r r' : Reader LineReader)
    found :
  add_patch Stamp dateparse epoch nh f r = Ok (found, f', r') ->
  input r' = input r /\ pf_header Stamp f' = pf_header Stamp f /\
  if found
  then exists p, patches Stamp f' = patches Stamp f ++ [p] /\
                 patch_ok (pos r) p
  else patches Stamp f' = patches Stamp f.
Proof.
  unfold add_patch. msimpl. intros H.
  destruct (add_patch_loop _ _ _ _ _ _ (with_rfc934_nesting 0 r))
    as [[s r1]| |] eqn:L; try discriminate.
  apply add_patch_loop_inv with (p0 := pos r) in L;
    [|cbn; lia|split; [intros b Hb; discriminate|intros p Hp; discriminate]].
  destruct L as (Li & Lp & Ls). cbn in Li, Lp.
  assert (Hfin : forall (s1 : Scan),
    scan_ok (pos r) s1 ->
    add_patch_parse Stamp s1
      (with_revision Stamp (scan_revision Stamp s) f) r1
      = Ok (found, f', r') ->
    input r' = input r /\ pf_header Stamp f' = pf_header Stamp f /\
    if found
    then exists p, patches Stamp f' = patches Stamp f ++ [p] /\
                   patch_ok (pos r) p
    else patches Stamp f' = patches Stamp f).
  { intros s1 Hs1 Hf.
    apply add_patch_parse_inv with (p0 := pos r) in Hf; [|exact Hs1].
    destruct Hf as (Hi & Hh & -> & p & Hp & Hk).
    split; [congruence|]. split; [exact Hh|]. exists p. split; assumption. }
  destruct Ls as (Lb & Lpt).
  destruct (patch Stamp s) as [p|] eqn:Ep.
  - apply (Hfin s); [|exact H].
    split; [exact Lb|]. intros q Hq. rewrite Ep in Hq. apply Lpt. exact Hq.
  - destruct (is_some (edcmdpos Stamp s)).
    + destruct (edcmdpos Stamp s) as [k|]; [|discriminate].
      apply Hfin in H; [exact H|].
      split; [exact Lb|]. intros p Hp. cbn in Hp. inv Hp.
      intros b Hb. discriminate.
    + destruct (exthdrs Stamp s).
      * apply Hfin in H; [exact H|].
        split; [intros b Hb; apply Lb; exact Hb|].
        intros p Hp. cbn in Hp. inv Hp. intros b Hb. cbn in Hb. cbn.
        split; [exact Hb | apply Lb; exact Hb].
      * inv H. split; [assumption|]. split; reflexivity.
Qed.

End HeaderScan.

Section Preamble.
Variable Stamp : Type.
Variable dateparse : str -> option Stamp.
Variable epoch : Stamp.

Local Abbreviation file_ok := (file_ok Stamp).

Lemma init_loop_inv fuel nh ls sp p0 :
  forall (f f' : PatchFile Stamp) (r r' : Reader LineReader),
  init_loop Stamp dateparse epoch fuel nh sp f r = Ok (f', r') ->
  file_ok ls sp p0 f -> input r = ls ->
  (pf_header Stamp f = None -> pos r = p0) ->
  file_ok ls sp p0 f' /\ input r' = ls.
Proof.
  induction fuel as [|fuel IH]; intros f f' r r' H Hf Hi Hp; simpl in H.
  - discriminate.
  - msimpl_in H.
    destruct (add_patch _ _ _ nh f r) as [[[found f1] r1]| |] eqn:A;
      try discriminate.
    apply add_patch_inv in A. destruct A as (Ai & Ah & Ap).
    destruct found.
    + destruct Ap as (q & Aq & Ak).
      destruct Hf as [(Hh & Hn) | (p & rest & Hps & Hk & Hh)].
      * rewrite Ah, Hh in H. unfold last_patch in H. rewrite Aq, Hn in H.
        change (index ([] ++ [q]) (-1)) with (Some q) in H.
        cbv beta iota in H.
        rewrite get_raw_lines_LineReader in H.
        apply IH in H; [exact H| |congruence|cbn; discriminate].
        right. exists q, []. cbn. rewrite Aq, Hn. cbn.
        split; [reflexivity|]. rewrite <- (Hp Hh).
        split; [exact Ak|]. rewrite Ai, Hi. reflexivity.
      * rewrite Ah, Hh in H.
        apply IH in H; [exact H| |congruence|congruence].
        right. exists p, (rest ++ [q]). rewrite Aq, Hps.
        split; [reflexivity|]. split; [exact Hk|]. congruence.
    + inv H. split; [|congruence].
      destruct Hf as [(Hh & Hn) | (p & rest & Hps & Hk & Hh)].
      * left. split; congruence.
      * right. exists p, rest.
        split; [congruence | split; [assumption | congruence]].
Qed.

(** C4, as the code has it.  The file header holds the lines from the start
    of the input to the [begin] of the first patch's header, which is where
    that patch begins; with the rest of the input from there it gives the
    input back.  When no patch is found the file header is the whole
    input. *)
Theorem FileHeader_is_preamble (fuel : nat) (diff_type : DiffType)
    (need_header : bool) (r r' : Reader LineReader) (f : PatchFile Stamp) :
  PatchFile_init Stamp dateparse epoch fuel diff_type need_header r
    = Ok (f, r') ->
  0 <= pos r ->
  exists fh, pf_header Stamp f = Some fh /\
    match patches Stamp f with
    | [] => fh_lines fh = slice (input r) (Some (pos r)) None
    | p :: _ =>
        forall b, hdr_begin Stamp (patch_header Stamp p) = Some b ->
          patch_begin Stamp p = Some b /\ pos r <= b /\
          fh_lines fh = slice (input r) (Some (pos r)) (Some b) /\
          fh_lines fh ++ slice (input r) (Some b) None
            = slice (input r) (Some (pos r)) None
    end.
Proof.
  unfold PatchFile_init. msimpl. intros H H0.
  cbn [impl_get_pos LineReader_impl] in H. rewrite Z.add_0_r in H.
  destruct (init_loop _ _ _ fuel need_header (pos r) _ r)
    as [[f1 r1]| |] eqn:L; try discriminate.
  apply init_loop_inv with (ls := input r) (p0 := pos r) in L;
    [|left; split; reflexivity|reflexivity|reflexivity].
  destruct L as ([(Hh & Hn) | (p & rest & Hps & Hk & Hh)] & Li).
  - rewrite Hh in H. rewrite get_raw_lines_LineReader in H. inv H.
    eexists. split; [reflexivity|]. cbn. rewrite Hn, Li. reflexivity.
  - rewrite Hh in H. inv H. eexists. split; [exact Hh|].
    rewrite Hps. intros b Hb. destruct (Hk b Hb) as (Hbeg & Hle).
    cbn. rewrite Hb.
    split; [exact Hbeg|]. split; [exact Hle|]. split; [reflexivity|].
    apply slice_split. lia.
Qed.

End Preamble.

Lemma FileHeader_is_preamble_mail :
  match PatchFile_init Z scenario_dates 0 3 ANY_DIFF true mail_reader with
  | Ok (f, _) =>
      exists fh, pf_header Z f = Some fh /\
        match patches Z f with
        | [] => fh_lines fh = slice (input mail_reader) (Some (pos mail_reader)) None
        | p :: _ =>
            forall b, hdr_begin Z (patch_header Z p) = Some b ->
              patch_begin Z p = Some b /\ pos mail_reader <= b /\
              fh_lines fh = slice (input mail_reader) (Some (pos mail_reader)) (Some b) /\
              fh_lines fh ++ slice (input mail_reader) (Some b) None
                = slice (input mail_reader) (Some (pos mail_reader)) None
        end
  | _ => False
  end.
Proof.
  destruct (PatchFile_init Z scenario_dates 0 3 ANY_DIFF true mail_reader)
    as [[f r']| |] eqn:E;
    [|vm_compute in E; discriminate E|vm_compute in E; discriminate E].
  apply (FileHeader_is_preamble Z scenario_dates 0 3 ANY_DIFF true mail_reader r' f E).
  vm_compute. discriminate.
Defined.

(** C4 as the spec states it fails: the line after the patch of scenario 1
    is in no patch and not in the file header. *)
Lemma trailing_text_not_reconstructed :
  match PatchFile_init Z scenario_dates 0 3 ANY_DIFF true
          (line_reader scenario1_in_mail) with
  | Ok (f, _) =>
      reconstruction scenario1_in_mail f = scenario1 /\
      reconstruction scenario1_in_mail f <> scenario1_in_mail
  | _ => False
  end.
Proof.
  vm_compute. split; [reflexivity | discriminate].
Qed.

(** ** The file reader *)

Lemma take_line_length s : (List.length (take_line s) <= List.length s)%nat.
Proof.
  induction s as [|c s IH]; simpl; [lia|].
  destruct (Ascii.eqb c nl); simpl; lia.
Qed.

Lemma take_line_nil s : take_line s = [] -> s = [].
Proof.
  destruct s as [|c s]; simpl; [reflexivity|].
  destruct (Ascii.eqb c nl); discriminate.
Qed.

(** The line read at a valid offset is not longer than what is left, and is
    empty only at the end of the file. *)
Lemma readline_spec c o :
  0 <= o ->
  let l := fst (readline (mkPyFile c o)) in
  snd (readline (mkPyFile c o)) = mkPyFile c (o + len l) /\
  o + len l <= Z.max o (len c) /\
  (l = [] -> len c <= o).
Proof.
  intros Ho. unfold readline. cbn [fst snd content offset].
  set (rest := skipn (Z.to_nat o) c).
  split; [reflexivity|].
  pose proof (take_line_length rest) as Hl.
  pose proof (length_skipn (Z.to_nat o) c) as Hs. fold rest in Hs.
  unfold len. split; [lia|].
  intros E. apply take_line_nil in E. rewrite E in Hs. simpl in Hs. lia.
Qed.

Lemma read_lines_fuel c : forall n m o,
  0 <= o ->
  (Z.to_nat (len c - o) < n)%nat -> (Z.to_nat (len c - o) < m)%nat ->
  read_lines n c o = read_lines m c o.
Proof.
  induction n as [|n IH]; intros m o Ho Hn Hm; [lia|].
  destruct m as [|m]; [lia|]. cbn [read_lines].
  destruct (readline_spec c o Ho) as (_ & Hle & Hnil). cbv zeta in *.
  destruct (fst (readline (mkPyFile c o))) as [|a l']; [reflexivity|].
  cbn [null]. f_equal. unfold len in *. cbn [List.length] in *.
  apply IH; lia.
Qed.

Lemma lines_at_unfold c o :
  0 <= o ->
  lines_at c o =
    let l := fst (readline (mkPyFile c o)) in
    if null l then [] else l :: lines_at c (o + len l).
Proof.
  intros Ho. unfold lines_at at 1. cbn [read_lines]. cbv zeta.
  destruct (readline_spec c o Ho) as (_ & Hle & Hnil). cbv zeta in *.
  destruct (fst (readline (mkPyFile c o))) as [|a l'] eqn:E; [reflexivity|].
  cbn [null]. f_equal. unfold lines_at.
  unfold len in *. cbn [List.length] in *.
  apply read_lines_fuel; unfold len; lia.
Qed.

Lemma index_nth_error {A} (l : list A) i :
  0 <= i -> index l i = nth_error l (Z.to_nat i).
Proof.
  intros Hi. unfold index, len.
  destruct (i <? 0) eqn:E; [apply Z.ltb_lt in E; lia|]. rewrite E. simpl.
  destruct (Z.of_nat (List.length l) <=? i) eqn:E2; [|reflexivity].
  apply Z.leb_le in E2. symmetry. apply nth_error_None. lia.
Qed.

(** The entries of a right line index are offsets of the file, and the
    lines from the [k]-th entry on are the lines of the stream but the
    first [k]. *)
Lemma chain_skipn c : forall rest o k ok,
  chain c o rest = true -> 0 <= o ->
  nth_error (o :: rest) k = Some ok ->
  0 <= ok /\ skipn k (lines_at c o) = lines_at c ok.
Proof.
  induction rest as [|o' rest IH]; intros o k ok Hc Ho Hk.
  - destruct k as [|k]; simpl in Hk; [inv Hk; auto|].
    destruct k; discriminate.
  - destruct k as [|k]; [simpl in Hk; inv Hk; auto|].
    cbn [chain] in Hc. apply andb_true_iff in Hc. destruct Hc as (Hc & Hr).
    apply andb_true_iff in Hc. destruct Hc as (Hn & He).
    apply Z.eqb_eq in He.
    rewrite (lines_at_unfold c o Ho). cbv zeta.
    destruct (fst (readline (mkPyFile c o))) as [|a l'] eqn:E;
      [discriminate|].
    cbn [null skipn]. rewrite <- He.
    apply (IH o' k ok Hr); [unfold len in He; lia | exact Hk].
Qed.

Lemma chain_next c : forall rest o k ok o',
  chain c o rest = true ->
  nth_error (o :: rest) k = Some ok ->
  nth_error (o :: rest) (S k) = Some o' ->
  fst (readline (mkPyFile c ok)) <> [] /\
  o' = ok + len (fst (readline (mkPyFile c ok))).
Proof.
  induction rest as [|o1 rest IH]; intros o k ok o' Hc Hk Hk'.
  - destruct k as [|[|k]]; simpl in Hk'; discriminate.
  - cbn [chain] in Hc. apply andb_true_iff in Hc. destruct Hc as (Hc & Hr).
    apply andb_true_iff in Hc. destruct Hc as (Hn & He).
    apply Z.eqb_eq in He.
    destruct k as [|k].
    + simpl in Hk, Hk'. inv Hk. inv Hk'. split; [|reflexivity].
      intros E0. rewrite E0 in Hn. discriminate.
    + apply (IH o1 k ok o' Hr); assumption.
Qed.

Lemma last_cons {A} (rest : list A) : forall a d,
  List.last (a :: rest) d = List.last rest a.
Proof.
  induction rest as [|b rest IH]; intros a d; [reflexivity|].
  change (List.last (a :: b :: rest) d) with (List.last (b :: rest) d).
  rewrite (IH b d), (IH b a). reflexivity.
Qed.

Lemma chain_app c : forall rest o x,
  chain c o rest = true ->
  (let ol := List.last rest o in
   fst (readline (mkPyFile c ol)) <> [] /\
   x = ol + len (fst (readline (mkPyFile c ol)))) ->
  chain c o (rest ++ [x]) = true.
Proof.
  induction rest as [|o1 rest IH]; intros o x Hc Hx.
  - cbv zeta in Hx. cbn [List.last] in Hx. destruct Hx as (Hn & ->).
    cbn [app chain].
    destruct (fst (readline (mkPyFile c o))) eqn:E; [congruence|].
    cbn [null negb]. rewrite Z.eqb_refl. reflexivity.
  - cbn [chain] in Hc. apply andb_true_iff in Hc. destruct Hc as (Hc & Hr).
    cbn [app chain]. rewrite Hc. cbn [andb]. apply IH; [exact Hr|].
    rewrite <- (last_cons rest o1 o). exact Hx.
Qed.

Lemma nth_error_last {A} (rest : list A) : forall a,
  nth_error (a :: rest) (List.length rest) = Some (List.last rest a).
Proof.
  induction rest as [|b rest IH]; intros a; [reflexivity|].
  cbn [List.length nth_error]. rewrite IH. rewrite (last_cons rest b a).
  reflexivity.
Qed.

Lemma FR_wf_elim s :
  FR_wf s = true -> exists fl o0 rest, wf_facts s fl o0 rest.
Proof.
  unfold FR_wf, wf_facts.
  destruct (FR.f s) as [fl|]; [|discriminate].
  destruct (FR.line2pos s) as [|o0 rest] eqn:L; [discriminate|].
  intros H.
  apply andb_true_iff in H; destruct H as (H & Hidx).
  apply andb_true_iff in H; destruct H as (H & Hlt).
  apply andb_true_iff in H; destruct H as (H & Hn).
  apply andb_true_iff in H; destruct H as (H0 & Hc).
  apply Z.leb_le in H0, Hn. apply Z.ltb_lt in Hlt.
  rewrite index_nth_error in Hidx by assumption.
  destruct (nth_error (o0 :: rest) (Z.to_nat (FR.lineno s))) as [o|] eqn:E;
    [|discriminate].
  apply Z.eqb_eq in Hidx. subst o.
  exists fl, o0, rest. repeat split; auto.
Qed.

Lemma FR_wf_intro s fl o0 rest : wf_facts s fl o0 rest -> FR_wf s = true.
Proof.
  unfold FR_wf, wf_facts. intros (Hf & Hl & H0 & Hc & Hn & Hlt & Hi).
  rewrite Hf, Hl, Hc. rewrite index_nth_error by assumption. rewrite Hi.
  rewrite Z.eqb_refl.
  apply Z.leb_le in H0, Hn. apply Z.ltb_lt in Hlt. rewrite H0, Hn, Hlt.
  reflexivity.
Qed.

(** [FileReader._get_line] on a well-formed reader: it returns the next
    line of the file, keeps the reader well formed and the line index a
    prefix of the new one. *)
Lemma FR_get_line_wf s fl o0 rest :
  wf_facts s fl o0 rest ->
  exists x s' fl' ext,
    FR._get_line s = Ok (x, s') /\
    wf_facts s' fl' o0 (rest ++ ext) /\
    content fl' = content fl /\
    match x with
    | None =>
        fl' = fl /\ FR.lineno s' = FR.lineno s /\
        lines_at (content fl) (offset fl) = []
    | Some l =>
        FR.lineno s' = FR.lineno s + 1 /\
        lines_at (content fl) (offset fl)
          = l :: lines_at (content fl) (offset fl') /\
        offset fl < offset fl' <= len (content fl)
    end.
Proof.
  intros (Hf & Hl & H0 & Hc & Hn & Hlt & Hi).
  destruct (chain_skipn _ _ _ _ _ Hc H0 Hi) as (Ho & _).
  pose proof (lines_at_unfold (content fl) (offset fl) Ho) as Hu.
  cbv zeta in Hu.
  unfold FR._get_line. rewrite Hf.
  destruct fl as [c o]. cbn [content offset] in *.
  destruct (readline (mkPyFile c o)) as [l fl'] eqn:R.
  pose proof (readline_spec c o Ho) as (Hs & Hle & _). cbv zeta in Hs, Hle.
  rewrite R in Hle. cbn [fst] in Hle.
  rewrite R in Hs. cbn [fst snd] in Hs, Hu. subst fl'.
  destruct l as [|a l'].
  - (* end of file *)
    cbn [len List.length Z.of_nat null] in *. rewrite Z.add_0_r in *.
    exists None, (FR.mkFileReader (Some (mkPyFile c o)) (FR.line2pos s)
                    (FR.lineno s)), (mkPyFile c o), [].
    rewrite app_nil_r. cbn [Z.eqb].
    split; [reflexivity|]. split; [|split; [reflexivity|auto]].
    unfold wf_facts. cbn. repeat split; auto.
  - cbn [null] in Hu.
    assert (Hz : (len (a :: l') =? 0) = false).
    { apply Z.eqb_neq. unfold len. cbn [List.length]. lia. }
    assert (Hrange : o < o + len (a :: l') <= len c).
    { unfold len in *. cbn [List.length] in *. lia. }
    rewrite Hz. set (o' := o + len (a :: l')) in *.
    destruct (len (FR.line2pos s) <=? FR.lineno s + 1) eqn:Ea.
    + (* the line is new: the index grows *)
      apply Z.leb_le in Ea. rewrite Hl in Ea.
      assert (Hk : Z.to_nat (FR.lineno s) = List.length rest).
      { unfold len in *. cbn [List.length] in *. lia. }
      exists (Some (a :: l')),
        (FR.mkFileReader (Some (mkPyFile c o')) (FR.line2pos s ++ [o'])
           (FR.lineno s + 1)), (mkPyFile c o'), [o'].
      split; [reflexivity|].
      split; [|split; [reflexivity|cbn [offset FR.lineno]; auto]].
      unfold wf_facts. cbn [FR.f FR.line2pos FR.lineno content offset].
      rewrite Hl. split; [reflexivity|]. split; [reflexivity|].
      split; [assumption|]. split.
      { apply chain_app; [assumption|]. cbv zeta.
        rewrite Hk, nth_error_last in Hi. inv Hi.
        rewrite R. cbn [fst]. split; [discriminate | reflexivity]. }
      split; [lia|]. split.
      { unfold len in *. cbn [List.length] in *. rewrite length_app.
        cbn [List.length]. lia. }
      replace (Z.to_nat (FR.lineno s + 1)) with (List.length (o0 :: rest))
        by (cbn [List.length]; lia).
      change (o0 :: rest ++ [o']) with ((o0 :: rest) ++ [o']).
      rewrite nth_error_app2 by lia. rewrite Nat.sub_diag. reflexivity.
    + (* the line was read before *)
      apply Z.leb_gt in Ea. rewrite Hl in Ea.
      exists (Some (a :: l')),
        (FR.mkFileReader (Some (mkPyFile c o')) (FR.line2pos s)
           (FR.lineno s + 1)), (mkPyFile c o'), [].
      rewrite app_nil_r.
      split; [reflexivity|].
      split; [|split; [reflexivity|cbn [offset FR.lineno]; auto]].
      unfold wf_facts. cbn [FR.f FR.line2pos FR.lineno content offset].
      repeat split; auto; try lia.
      replace (Z.to_nat (FR.lineno s + 1)) with (S (Z.to_nat (FR.lineno s)))
        by lia.
      destruct (nth_error (o0 :: rest) (S (Z.to_nat (FR.lineno s))))
        as [o1|] eqn:E1.
      * destruct (chain_next _ _ _ _ _ _ Hc Hi E1) as (_ & E2).
        rewrite R in E2. cbn [fst] in E2. subst o1. reflexivity.
      * apply nth_error_None in E1. unfold len in Ea.
        cbn [List.length] in *. lia.
Qed.

Lemma until_cons end_ k l ls :
  match end_ with Some e => k <> e | None => True end ->
  until end_ k (l :: ls) = l :: until end_ (k + 1) ls.
Proof.
  unfold until. destruct end_ as [e|]; [|reflexivity]. intros Hne.
  destruct (k <=? e) eqn:E1, (k + 1 <=? e) eqn:E2;
    try apply Z.leb_le in E1; try apply Z.leb_le in E2;
    try apply Z.leb_gt in E1; try apply Z.leb_gt in E2; try lia;
    [|reflexivity].
  replace (Z.to_nat (e - k)) with (S (Z.to_nat (e - (k + 1)))) by lia.
  reflexivity.
Qed.

Lemma raw_loop_spec end_ fuel :
  forall acc s fl o0 rest,
  wf_facts s fl o0 rest ->
  (Z.to_nat (len (content fl) - offset fl) < fuel)%nat ->
  exists s' fl' ext,
    FR.raw_loop fuel end_ acc s
      = Ok (acc ++ until end_ (FR.lineno s)
                     (lines_at (content fl) (offset fl)), s') /\
    wf_facts s' fl' o0 (rest ++ ext) /\ content fl' = content fl.
Proof.
  induction fuel as [|fuel IH]; intros acc s fl o0 rest W Hf; [lia|].
  cbn [FR.raw_loop].
  destruct (match end_ with Some e => FR.lineno s =? e | None => false end)
    eqn:Estop.
  - destruct end_ as [e|]; [|discriminate]. apply Z.eqb_eq in Estop.
    exists s, fl, []. rewrite app_nil_r. split; [|split; auto].
    unfold until. rewrite Estop, Z.leb_refl, Z.sub_diag. cbn [Z.to_nat firstn].
    rewrite app_nil_r. reflexivity.
  - assert (Hne : match end_ with Some e => FR.lineno s <> e | None => True end).
    { destruct end_ as [e|]; [|exact I]. apply Z.eqb_neq. exact Estop. }
    destruct (FR_get_line_wf s fl o0 rest W)
      as (x & s1 & fl1 & ext1 & G & W1 & C1 & Hx).
    rewrite G. destruct x as [l|].
    + destruct Hx as (Hn & Hl & Hr).
      destruct (IH (acc ++ [l]) s1 fl1 o0 (rest ++ ext1) W1)
        as (s2 & fl2 & ext2 & R2 & W2 & C2); [rewrite C1; lia|].
      exists s2, fl2, (ext1 ++ ext2). rewrite app_assoc.
      split; [|split; [exact W2 | congruence]].
      rewrite R2. rewrite Hl, until_cons by exact Hne.
      rewrite Hn, C1, <- app_assoc. reflexivity.
    + destruct Hx as (-> & Hn & Hl).
      exists s1, fl, ext1. split; [|split; auto].
      rewrite Hl. unfold until. destruct end_ as [e|]; [|rewrite app_nil_r; auto].
      destruct (_ <=? _); [rewrite firstn_nil|]; rewrite app_nil_r; reflexivity.
Qed.

Lemma slice_firstn_skipn {A} (l : list A) a e :
  0 <= a <= e ->
  slice l (Some a) (Some e)
    = firstn (Z.to_nat (e - a)) (skipn (Z.to_nat a) l).
Proof.
  intros H. unfold slice, clamp, len.
  destruct (a <? 0) eqn:Ea; [apply Z.ltb_lt in Ea; lia|].
  destruct (e <? 0) eqn:Ee; [apply Z.ltb_lt in Ee; lia|].
  set (n := Z.of_nat (List.length l)).
  destruct (Z.le_gt_cases n a) as [Hge|Hlt].
  - rewrite !skipn_all2 by (unfold n in *; lia). rewrite !firstn_nil.
    reflexivity.
  - replace (Z.min a n) with a by lia.
    destruct (Z.le_gt_cases e n) as [He|He].
    + replace (Z.min e n) with e by lia. reflexivity.
    + replace (Z.min e n) with n by lia.
      rewrite !firstn_all2; [reflexivity| |];
        rewrite length_skipn; unfold n in *; lia.
Qed.

Lemma slice_from {A} (l : list A) a :
  0 <= a -> slice l (Some a) None = skipn (Z.to_nat a) l.
Proof.
  intros H. unfold slice, clamp, len.
  destruct (a <? 0) eqn:Ea; [apply Z.ltb_lt in Ea; lia|].
  set (n := Z.of_nat (List.length l)).
  destruct (Z.le_gt_cases n a) as [Hge|Hlt].
  - rewrite !skipn_all2 by (unfold n in *; lia). apply firstn_nil.
  - replace (Z.min a n) with a by lia.
    apply firstn_all2. rewrite length_skipn. unfold n in *. lia.
Qed.

(** *** Reading on from file readers that look alike *)

Lemma sim_ret {A} (a : A) : sim (ret a).
Proof. intros r1 r2 H. cbn. auto. Qed.

Lemma sim_raise {A} e : sim (@raise _ A e).
Proof. intros r1 r2 H. cbn. auto. Qed.

Lemma sim_lift_result {A} (x : result A) : sim (lift_result x).
Proof. intros r1 r2 H. unfold lift_result. destruct x; cbn; auto. Qed.

Lemma sim_bound {A} (i : option A) : sim (bound i).
Proof. destruct i; [apply sim_ret | apply sim_raise]. Qed.

Lemma sim_bind {A B} (m : M _ A) (k : A -> M _ B) :
  sim m -> (forall a, sim (k a)) -> sim (bind m k).
Proof.
  intros Hm Hk r1 r2 H. unfold bind. specialize (Hm r1 r2 H).
  unfold same_outcome in Hm.
  destruct (m r1) as [[a r1']| |], (m r2) as [[b r2']| |];
    try contradiction; cbn; auto.
  destruct Hm as (-> & Hr). apply Hk. exact Hr.
Qed.

Lemma sim_with_line v : sim (modify (with_line v)).
Proof.
  intros r1 r2 (H1 & H2 & H3 & H4 & H5 & H6). cbn.
  split; [reflexivity|]. repeat split; cbn; auto; apply H6.
Qed.

Lemma sim_tab_size : sim (gets tab_size).
Proof. intros r1 r2 H. cbn. split; [apply H | exact H]. Qed.

Lemma FR_get_line_same a b :
  same_view a b ->
  match FR._get_line a, FR._get_line b with
  | Ok (x, a'), Ok (y, b') => x = y /\ same_view a' b'
  | _, _ => False
  end.
Proof.
  intros (Hf & Hn). unfold FR._get_line. rewrite Hf.
  destruct (FR.f b) as [fl|] eqn:Eb;
    [|split; [reflexivity | split; congruence]].
  destruct (readline fl) as [l fl'].
  destruct (len l =? 0); (split; [reflexivity|]); split; cbn; congruence.
Qed.

Lemma sim_get_line : sim _get_line.
Proof.
  intros r1 r2 H. unfold _get_line, lift.
  cbn [impl_get_line FR.impl].
  pose proof (FR_get_line_same (impl r1) (impl r2)) as G.
  destruct H as (H1 & H2 & H3 & H4 & H5 & H6). specialize (G H6).
  destruct (FR._get_line (impl r1)) as [[x a']| |],
           (FR._get_line (impl r2)) as [[y b']| |]; try contradiction.
  destruct G as (-> & G). cbn. split; [reflexivity|].
  repeat split; cbn; auto; apply G.
Qed.

Lemma sim_pget_loop fuel ind nest skip :
  forall i, sim (pget_loop fuel ind nest skip i).
Proof.
  induction fuel as [|fuel IH]; intros i; cbn [pget_loop].
  - intros r1 r2 H. exact I.
  - apply sim_bind; [apply sim_get_line|]. intros [l|]; [|apply sim_ret].
    apply sim_bind; [apply sim_tab_size|]. intros ts.
    apply sim_bind; [apply sim_lift_result|]. intros i1.
    apply sim_bind.
    { destruct (nest >? 0); [|apply sim_ret].
      apply sim_bind; [apply sim_bound | intros; apply sim_ret]. }
    intros i2. apply sim_bind.
    { destruct skip; [|apply sim_ret].
      apply sim_bind; [apply sim_bound | intros; apply sim_ret]. }
    intros [|]; [apply IH | apply sim_ret].
Qed.

Lemma sim_pget_line ind nest scr skip : sim (pget_line ind nest scr skip).
Proof.
  unfold pget_line. apply sim_bind.
  - intros r1 r2 H. unfold fetch_line, bind, get.
    assert (E : lines_left (impl r1) = lines_left (impl r2)).
    { cbn [lines_left FR.impl]. unfold FR.lines_left.
      destruct H as (_ & _ & _ & _ & _ & (Hf & _)). rewrite Hf. reflexivity. }
    rewrite E. apply sim_pget_loop. exact H.
  - intros [[l i]|]; [|apply sim_ret].
    destruct (negb (endswith l [nl])); [apply sim_ret|].
    apply sim_bind; [apply sim_bound|]. intros k.
    apply sim_bind; [|intros; apply sim_ret].
    destruct (_ && _); apply sim_with_line.
Qed.

Lemma sim_get_line_method skip : sim (get_line skip).
Proof.
  intros r1 r2 H. unfold get_line, bind, get.
  destruct H as (H1 & H2 & H3 & H4 & H5 & H6).
  rewrite H2, H3, H4. apply sim_pget_line. repeat split; auto; apply H6.
Qed.

(** C10, as the code has it.  On a file reader as its methods leave it,
    [get_raw_lines] with a [start] past the lines read so far raises
    [IndexError].  With a [start] among the lines read so far it returns;
    when there is no [end], or [end] is not before [start], what it
    returns are the lines of the stream from [start] up to [end]; the
    position and the file offset are as before the call, so that
    [get_line] after it behaves as [get_line] without it. *)
Theorem get_raw_lines_frame (s : FR.FileReader) (start : Z)
    (end_ : option Z) :
  FR_wf s = true ->
  (len (FR.line2pos s) <= start ->
   FR.get_raw_lines start end_ s = Raise IndexError) /\
  (0 <= start < len (FR.line2pos s) ->
   exists ls s',
     FR.get_raw_lines start end_ s = Ok (ls, s') /\
     (match end_ with Some e => start <= e | None => True end ->
      ls = slice (stream_lines s) (Some start) end_) /\
     FR.get_pos s' 0 = FR.get_pos s 0 /\
     FR.f s' = FR.f s /\
     FR_wf s' = true /\
     forall (r : Reader FR.FileReader) (skip_comments : bool),
       impl r = s ->
       same_outcome (get_line skip_comments (with_impl s' r))
                    (get_line skip_comments r)).
Proof.
  intros W. apply FR_wf_elim in W. destruct W as (fl & o0 & rest & W).
  pose proof W as (Hf & Hl & H0 & Hc & Hn & Hlt & Hi).
  split.
  { intros Hs. unfold FR.get_raw_lines, bind, get.
    unfold FR.set_pos at 1. rewrite Hf.
    assert (E : index (FR.line2pos s) start = None).
    { unfold index. destruct (start <? 0) eqn:E0.
      - apply Z.ltb_lt in E0. unfold len in Hs. lia.
      - rewrite E0. apply Z.leb_le in Hs. rewrite Hs. reflexivity. }
    rewrite E. reflexivity. }
  intros Hs.
  rewrite Hl in Hs.
  destruct (nth_error (o0 :: rest) (Z.to_nat start)) as [p|] eqn:Ep;
    [|apply nth_error_None in Ep; unfold len in Hs; lia].
  destruct (chain_skipn _ _ _ _ _ Hc H0 Ep) as (Hp & Lp).
  destruct (chain_skipn _ _ _ _ _ Hc H0 Hi) as (Ho & _).
  set (c := content fl) in *.
  set (s1 := FR.mkFileReader (Some (mkPyFile c p)) (FR.line2pos s) start).
  assert (W1 : wf_facts s1 (mkPyFile c p) o0 rest).
  { unfold wf_facts, s1. cbn [FR.f FR.line2pos FR.lineno content offset].
    split; [reflexivity|]. split; [exact Hl|]. split; [exact H0|].
    split; [exact Hc|]. split; [lia|]. split; [lia|]. exact Ep. }
  destruct (raw_loop_spec end_ (S (FR.lines_left s1)) [] s1 _ o0 rest W1)
    as (s2 & fl2 & ext & R & W2 & C2).
  { unfold s1, FR.lines_left. cbn. lia. }
  pose proof W2 as (Hf2 & Hl2 & _ & Hc2 & _ & _ & _).
  cbn [content offset FR.lineno s1 app] in R, C2.
  set (s' := FR.mkFileReader (Some fl) (FR.line2pos s2) (FR.lineno s + 0)).
  assert (E : FR.get_raw_lines start end_ s
              = Ok (until end_ start (lines_at c p), s')).
  { unfold FR.get_raw_lines, bind, get, ret, FR.get_pos.
    unfold FR.set_pos at 1. rewrite Hf, Hl.
    rewrite index_nth_error, Ep by lia.
    unfold seek. destruct (p <? 0) eqn:Ep0; [apply Z.ltb_lt in Ep0; lia|].
    fold c. rewrite <- Hl. fold s1. rewrite R.
    unfold FR.set_pos. rewrite Hf2, Hl2.
    rewrite index_nth_error by lia.
    change (o0 :: rest ++ ext) with ((o0 :: rest) ++ ext).
    rewrite nth_error_app1 by (unfold len in Hlt; lia).
    rewrite Z.add_0_r, Hi.
    unfold seek. destruct (offset fl <? 0) eqn:Eo0;
      [apply Z.ltb_lt in Eo0; lia|].
    rewrite C2. unfold s'. rewrite Z.add_0_r, Hl2.
    replace (mkPyFile c (offset fl)) with fl
      by (subst c; destruct fl; reflexivity).
    reflexivity. }
  assert (V : same_view s' s).
  { unfold same_view, s'. cbn. split; [congruence | lia]. }
  exists (until end_ start (lines_at c p)), s'.
  split; [exact E|]. split; [|split; [|split; [|split]]].
  - intros He. unfold stream_lines. rewrite Hf, Hl. fold c.
    change (read_lines (S (List.length c)) c o0) with (lines_at c o0).
    rewrite <- Lp. unfold until.
    destruct end_ as [e|]; [|symmetry; apply slice_from; lia].
    apply Z.leb_le in He. rewrite He. apply Z.leb_le in He.
    symmetry. apply slice_firstn_skipn. lia.
  - unfold FR.get_pos, s'. cbn. lia.
  - apply V.
  - apply (FR_wf_intro s' fl o0 (rest ++ ext)).
    unfold wf_facts, s'. cbn [FR.f FR.line2pos FR.lineno].
    rewrite Z.add_0_r.
    split; [reflexivity|]. split; [exact Hl2|]. split; [exact H0|].
    split; [rewrite C2 in Hc2; exact Hc2|]. split; [exact Hn|].
    split.
    { unfold len in *. cbn [List.length] in *. rewrite length_app. lia. }
    change (o0 :: rest ++ ext) with ((o0 :: rest) ++ ext).
    rewrite nth_error_app1 by (unfold len in Hlt; lia). exact Hi.
  - intros r skip Hr. apply sim_get_line_method.
    destruct r as [ts ind nest scr l i]. cbn in Hr. subst i.
    unfold with_impl. cbn. repeat split; auto; apply V.
Qed.

Lemma get_raw_lines_frame_mid_read :
  exists ls s',
    FR.get_raw_lines 0 (Some 2) mid_read = Ok (ls, s') /\
    ls = [ln "a"; ln "b"] /\
    FR.get_pos s' 0 = 1 /\
    FR.f s' = Some (mkPyFile three_lines 2) /\
    FR_wf s' = true /\
    forall (r : Reader FR.FileReader) (skip_comments : bool),
      impl r = mid_read ->
      same_outcome (get_line skip_comments (with_impl s' r))
                   (get_line skip_comments r).
Proof.
  assert (Hs : 0 <= 0 < len (FR.line2pos mid_read))
    by (vm_compute; split; [discriminate | reflexivity]).
  destruct (proj2 (get_raw_lines_frame mid_read 0 (Some 2) eq_refl) Hs)
    as (ls & s' & E & Hr & Hp & Hf & Hw & Hsim).
  exists ls, s'. split; [exact E|].
  split; [rewrite Hr; [reflexivity | lia]|].
  split; [exact Hp|]. split; [exact Hf|]. split; [exact Hw | exact Hsim].
Defined.

(** C10 as the spec states it fails: a file reader that has read nothing
    yet knows the place of its first line alone; asked for the second
    line of a stream of three, it raises [IndexError]. *)
Lemma get_raw_lines_not_every_range :
  stream_lines (FR.file_reader (mkPyFile three_lines 0))
    = [ln "a"; ln "b"; ln "c"] /\
  FR.get_raw_lines 1 (Some 2) (FR.file_reader (mkPyFile three_lines 0))
    = Raise IndexError.
Proof.
  split; vm_compute; reflexivity.
Qed.

(* ================================================================== *)
(** * Further properties of the module *)
(* ================================================================== *)

(** ** The line a read leaves in the reader *)

Lemma endswith_nl_inv (l : str) :
  endswith l [nl] = true -> exists body, l = body ++ [nl].
Proof.
  unfold endswith. cbn [rev app]. intros H.
  destruct (rev l) as [|c t] eqn:E; [discriminate|].
  cbn [startswith] in H. apply andb_true_iff in H. destruct H as (H & _).
  apply Ascii.eqb_eq in H. subst c.
  exists (rev t). rewrite <- (rev_involutive l), E. reflexivity.
Qed.

Lemma endswith_nl_app (body : str) : endswith (body ++ [nl]) [nl] = true.
Proof.
  unfold endswith. rewrite rev_app_distr. cbn [rev app startswith].
  rewrite Ascii.eqb_refl. destruct (rev body); reflexivity.
Qed.

Lemma indent_scan_range ts ind : forall l cur i k,
  indent_scan ts ind cur i l = Ok k ->
  i - 1 <= k <= i + len l - 1 /\ (l <> [] -> i <= k).
Proof.
  induction l as [|c l IH]; intros cur i k H; cbn [indent_scan] in H.
  - inv H. unfold len. cbn [List.length]. split; [lia|congruence].
  - assert (Hl : len (c :: l) = len l + 1)
      by (unfold len; cbn [List.length]; lia).
    rewrite Hl.
    destruct (cur >=? ind); [inv H; unfold len; split; [lia|lia]|].
    destruct (Ascii.eqb c tab).
    + destruct (ts =? 0); [discriminate|].
      apply IH in H. split; [lia|]. intros _. lia.
    + destruct (_ || _).
      * apply IH in H. split; [lia|]. intros _. lia.
      * inv H. unfold len. split; [lia|lia].
Qed.

Lemma startswith_app (s p : str) :
  startswith s p = true -> exists t, s = p ++ t.
Proof.
  revert s. induction p as [|c p IH]; intros s H.
  - exists s. reflexivity.
  - destruct s as [|d s]; [discriminate|]. cbn [startswith] in H.
    apply andb_true_iff in H. destruct H as (Hc & Hs).
    apply Ascii.eqb_eq in Hc. subst d.
    destruct (IH s Hs) as (t & ->). exists t. reflexivity.
Qed.

(** Taking a mail quote off a line that ends in a newline leaves the index
    inside the line. *)
Lemma unquote_range (l : str) :
  endswith l [nl] = true ->
  forall n k, 0 <= k < len l -> k <= unquote n l k < len l.
Proof.
  intros He. induction n as [|n IH]; intros k Hk; cbn [unquote]; [lia|].
  destruct (startswith_at l (lit "- ") k) eqn:Es; [|lia].
  unfold startswith_at in Es. rewrite slice_from in Es by lia.
  apply startswith_app in Es. destruct Es as (t & Et).
  assert (Hl : l = firstn (Z.to_nat k) l ++ lit "- " ++ t).
  { rewrite <- Et. symmetry. apply firstn_skipn. }
  assert (Hlen : len l = k + 2 + len t).
  { unfold len in *. rewrite Hl at 1. rewrite !length_app, length_firstn.
    cbn [List.length lit list_ascii_of_string]. lia. }
  destruct t as [|c t].
  - exfalso. rewrite Hl in He. unfold endswith in He.
    rewrite !rev_app_distr in He. cbn in He. discriminate.
  - assert (k + 2 < len l).
    { rewrite Hlen. unfold len. cbn [List.length]. lia. }
    specialize (IH (k + 2)). lia.
Qed.

Lemma skipn_keeps_nl (body : str) (k : Z) :
  0 <= k < len (body ++ [nl]) ->
  exists body', slice (body ++ [nl]) (Some k) None = body' ++ [nl].
Proof.
  intros Hk. rewrite slice_from by lia.
  unfold len in Hk. rewrite length_app in Hk. cbn [List.length] in Hk.
  exists (skipn (Z.to_nat k) body).
  rewrite skipn_app.
  replace (Z.to_nat k - List.length body)%nat with O by lia.
  reflexivity.
Qed.

Section LineAfterRead.
Context {I : Type} {RI : ReaderImpl I}.

(** The index the loop of [pget_line] stops with lies inside the line it
    stops at, when that line ends in a newline. *)
Lemma pget_loop_index fuel ind nest skip :
  forall i (r r' : Reader I) l io,
  pget_loop fuel ind nest skip i r = Ok (Some (l, io), r') ->
  endswith l [nl] = true ->
  exists k, io = Some k /\ 0 <= k < len l.
Proof.
  induction fuel as [|fuel IH]; intros i r r' l io H He;
    cbn [pget_loop] in H; [discriminate|].
  msimpl_in H.
  destruct (_get_line r) as [[o r1]| |]; try discriminate.
  destruct o as [l1|]; [|discriminate].
  destruct (for_indent (tab_size r1) ind l1 i) as [i1| |] eqn:F;
    try discriminate.
  assert (Hstep : forall (i2 : option Z) (needmore : bool),
    (if needmore then pget_loop fuel ind nest skip i2
     else fun s => Ok (Some (l1, i2), s)) r1 = Ok (Some (l, io), r') ->
    (l1 = l -> exists k, i2 = Some k /\ 0 <= k < len l) ->
    exists k, io = Some k /\ 0 <= k < len l).
  { intros i2 [|] H2 Hi2.
    - eapply IH; eauto.
    - inv H2. apply Hi2. reflexivity. }
  assert (Hfor : l1 = l -> exists k, i1 = Some k /\ 0 <= k < len l).
  { intros El. subst l1. unfold for_indent in F.
    destruct l as [|c t]; [discriminate He|].
    unfold rbind in F.
    destruct (indent_scan (tab_size r1) ind 0 0 (c :: t)) as [k| |] eqn:S;
      inv F.
    apply indent_scan_range in S. destruct S as (S1 & S2).
    exists k. split; [reflexivity|].
    assert (Hne : c :: t <> []) by discriminate. specialize (S2 Hne). lia. }
  destruct (nest >? 0), skip, i1 as [k|]; msimpl_in H; try discriminate;
    first [ eapply Hstep; [exact H|] | eapply (Hstep _ false); [exact H|] ];
    intros E; destruct (Hfor E) as (k0 & Hk0 & Hr);
    inv Hk0; eexists; (split; [reflexivity|]); try lia;
    match goal with
    | He' : endswith ?x [nl] = true |- _ =>
        pose proof (unquote_range x He' (Z.to_nat nest) k0 Hr); lia
    end.
Qed.

(** X1.  After [pget_line] has returned True, and so after [get_line] and
    [get_raw_line] have, the reader's [line] ends in a newline: it is never
    empty. *)
Theorem line_after_read_ends_in_newline (r r' : Reader I)
    (indent0 nesting : Z) (cr_mode skip_comments : bool) :
  pget_line indent0 nesting cr_mode skip_comments r = Ok (true, r') ->
  exists body, line r' = body ++ [nl].
Proof.
  unfold pget_line, fetch_line. msimpl. intros H.
  destruct (pget_loop _ indent0 nesting skip_comments None r)
    as [[x r1]| |] eqn:L; try discriminate.
  destruct x as [[l i]|]; [|discriminate].
  destruct (endswith l [nl]) eqn:En; cbn [negb] in H; [|discriminate].
  destruct (pget_loop_index _ _ _ _ _ _ _ _ _ L En) as (k & -> & Hk).
  destruct (cr_mode && _).
  - inv H. cbn. eauto.
  - inv H. cbn. apply endswith_nl_inv in En. destruct En as (body & ->).
    apply skipn_keeps_nl. exact Hk.
Qed.

End LineAfterRead.

Lemma line_after_read_ends_in_newline_header :
  exists body, line header_read = body ++ [nl].
Proof.
  apply (line_after_read_ends_in_newline chopped_hunk header_read
           0 0 false true).
  vm_compute. reflexivity.
Defined.

(** ** Reads that raise, and reads that cannot *)

Lemma indent_scan_ok ts ind : ts <> 0 -> forall l cur i,
  exists k, indent_scan ts ind cur i l = Ok k.
Proof.
  intros Hts. induction l as [|c l IH]; intros cur i; cbn [indent_scan];
    [eauto|].
  destruct (cur >=? ind); [eauto|].
  destruct (Ascii.eqb c tab).
  - destruct (ts =? 0) eqn:E; [apply Z.eqb_eq in E; contradiction|].
    apply IH.
  - destruct (_ || _); [apply IH | eauto].
Qed.

Lemma index_in_range {A} (l : list A) (i : Z) :
  0 <= i < len l -> exists x, index l i = Some x /\ In x l.
Proof.
  intros Hi. rewrite index_nth_error by lia.
  destruct (nth_error l (Z.to_nat i)) as [x|] eqn:E.
  - exists x. split; [reflexivity|]. eapply nth_error_In; eauto.
  - apply nth_error_None in E. unfold len in Hi. lia.
Qed.

(** The loop of [pget_line] over lines none of which is empty, with a tab
    size that is not zero, returns. *)
Lemma pget_loop_returns fuel ind nest skip :
  forall i (r : Reader LineReader),
  tab_size r <> 0 -> 0 <= pos r ->
  Forall (fun l => l <> []) (input r) ->
  (lines_left (impl r) < fuel)%nat ->
  exists x r', pget_loop fuel ind nest skip i r = Ok (x, r').
Proof.
  induction fuel as [|fuel IH]; intros i r Hts Hp Hne Hf; [lia|].
  cbn [pget_loop]. msimpl.
  destruct r as [ts ind0 nest0 scr ln0 [ls n]].
  cbn [tab_size impl lines lineno] in *.
  unfold _get_line, lift. cbn [impl impl_get_line LineReader_impl].
  unfold LineReader_get_line. cbn [lines lineno].
  destruct (n >=? len ls) eqn:E; [eauto|].
  rewrite Z.geb_leb in E. apply Z.leb_gt in E.
  destruct (index_in_range ls n) as (l & Hl & Hin); [lia|].
  rewrite Hl. cbn [with_impl tab_size].
  rewrite Forall_forall in Hne. pose proof (Hne l Hin) as Hl0.
  unfold for_indent. destruct l as [|c t] eqn:El; [congruence|].
  destruct (indent_scan_ok ts ind Hts (c :: t) 0 0) as (k & Hk).
  rewrite Hk. cbn [rbind].
  set (r1 := with_impl (with_lineno (n + 1) (mkLineReader ls n))
               (mkReader ts ind0 nest0 scr ln0 (mkLineReader ls n))).
  assert (Hr1 : forall i2, exists x r',
            pget_loop fuel ind nest skip i2 r1 = Ok (x, r')).
  { intros i2. apply IH; cbn; auto; try lia.
    - rewrite Forall_forall. exact Hne.
    - cbn in Hf. lia. }
  destruct (nest >? 0), skip; cbn;
    try (destruct (startswith_at _ _ _); [apply Hr1 | eauto]); eauto.
Qed.




(** X2.  Over a list of lines none of which is the empty string, with a
    tab size that is not zero and from a position that is not negative,
    [get_line] returns: it raises no exception. *)
Theorem get_line_raises_nothing (skip_comments : bool)
    (r : Reader LineReader) :
  tab_size r <> 0 -> 0 <= pos r ->
  Forall (fun l => l <> []) (input r) ->
  exists b r', get_line skip_comments r = Ok (b, r').
Proof.
  intros Hts Hp Hne. rewrite get_line_unfold.
  unfold pget_line, fetch_line. msimpl.
  destruct (pget_loop_returns (S (lines_left (impl r))) (indent r)
              (rfc934_nesting r) skip_comments None r Hts Hp Hne)
    as (x & r1 & L); [lia|].
  rewrite L. destruct x as [[l i]|]; [|eauto].
  destruct (endswith l [nl]) eqn:En; cbn [negb]; [|eauto].
  destruct (pget_loop_index _ _ _ _ _ _ _ _ _ L En) as (k & -> & Hk).
  destruct (strip_cr r && _); eauto.
Qed.

Lemma get_line_raises_nothing_cut_input :
  exists b r', get_line true cut_input = Ok (b, r').
Proof.
  apply (get_line_raises_nothing true cut_input).
  - vm_compute. discriminate.
  - vm_compute. discriminate.
  - repeat constructor; discriminate.
Defined.

(** X3.  When the next line of the input is the empty string, the index of the
    loop of [pget_line] is never bound: [get_line] raises
    [UnboundLocalError] as soon as it reads the index, which it does to
    skip comments and to take mail quotes off; otherwise it returns False
    one line further. *)
Theorem get_line_empty_string (r : Reader LineReader) :
  0 <= pos r ->
  index (input r) (pos r) = Some [] ->
  get_line true r = Raise UnboundLocalError /\
  (0 < rfc934_nesting r -> get_line false r = Raise UnboundLocalError) /\
  (rfc934_nesting r <= 0 ->
   get_line false r
     = Ok (false, with_impl (with_lineno (pos r + 1) (impl r)) r)).
Proof.
  intros Hp Hi.
  assert (Hlt : (pos r >=? len (input r)) = false).
  { rewrite Z.geb_leb. apply Z.leb_gt. unfold index in Hi.
    destruct (pos r <? 0) eqn:E; [apply Z.ltb_lt in E; lia|].
    destruct ((pos r <? 0) || (len (input r) <=? pos r)) eqn:E2;
      [discriminate|].
    rewrite E in E2. cbn [orb] in E2. apply Z.leb_gt in E2. exact E2. }
  assert (G : _get_line r
              = Ok (Some [], with_impl (with_lineno (pos r + 1) (impl r)) r)).
  { unfold _get_line, lift. cbn [impl_get_line LineReader_impl].
    unfold LineReader_get_line. rewrite Hlt, Hi. reflexivity. }
  rewrite !get_line_unfold. unfold pget_line, fetch_line.
  cbn [pget_loop]. msimpl. rewrite G. cbn [for_indent lift_result].
  split; [|split].
  - destruct (rfc934_nesting r >? 0); reflexivity.
  - intros Hn. apply Z.gtb_lt in Hn. rewrite Hn. reflexivity.
  - intros Hn. destruct (rfc934_nesting r >? 0) eqn:E;
      [apply Z.gtb_lt in E; lia|]. reflexivity.
Qed.

Lemma get_line_empty_string_blank :
  get_line true (line_reader [[]; ln "x"]) = Raise UnboundLocalError.
Proof.
  apply (get_line_empty_string (line_reader [[]; ln "x"])).
  - vm_compute. discriminate.
  - reflexivity.
Defined.

(** ** [Reader.strip_indent] *)

Lemma strip_scan_spec ts : forall l ind i ind' k,
  strip_scan ts ind i l = Ok (ind', k) -> l <> [] ->
  exists n, k = i + Z.of_nat n /\ (n < List.length l)%nat /\
    forallb is_indent_char (firstn n l) = true /\
    match skipn n l with
    | c :: rest => is_indent_char c = false \/ rest = []
    | [] => False
    end /\
    (0 < ts -> ind + Z.of_nat n <= ind').
Proof.
  induction l as [|c l IH]; intros ind i ind' k H Hne; [congruence|].
  cbn [strip_scan] in H.
  assert (Hrec : forall ind2,
            (0 < ts -> ind + 1 <= ind2) ->
            is_indent_char c = true ->
            strip_scan ts ind2 (i + 1) l = Ok (ind', k) ->
            exists n, k = i + Z.of_nat n /\ (n < List.length (c :: l))%nat /\
              forallb is_indent_char (firstn n (c :: l)) = true /\
              match skipn n (c :: l) with
              | c0 :: rest => is_indent_char c0 = false \/ rest = []
              | [] => False
              end /\
              (0 < ts -> ind + Z.of_nat n <= ind')).
  { intros ind2 Hind Hc H2. destruct l as [|d l'].
    - cbn [strip_scan] in H2. inv H2. exists O.
      cbn [firstn skipn forallb List.length].
      repeat split; auto; try lia.
    - apply IH in H2; [|discriminate].
      destruct H2 as (n & -> & Hn & Hall & Hsk & Hle).
      exists (S n). cbn [firstn skipn forallb]. rewrite Hc, Hall.
      cbn [List.length] in *.
      split; [lia|]. split; [lia|]. split; [reflexivity|].
      split; [exact Hsk|]. intros Hts.
      specialize (Hind Hts). specialize (Hle Hts). lia. }
  unfold is_indent_char in Hrec.
  destruct (Ascii.eqb c tab) eqn:Et.
  - destruct (ts =? 0); [discriminate|].
    apply Hrec in H; auto.
    intros Hts. pose proof (Z.mod_pos_bound ind ts Hts). lia.
  - destruct (Ascii.eqb c " "%char || Ascii.eqb c "X"%char) eqn:Es.
    + apply Hrec in H; auto. intros; lia.
    + inv H. exists O. cbn [firstn skipn forallb List.length].
      unfold is_indent_char. rewrite Et, Es.
      repeat split; auto; try lia.
Qed.

Section StripIndent.
Context {I : Type} {RI : ReaderImpl I}.

(** X4.  [strip_indent] on an empty [line] raises [UnboundLocalError].
    Otherwise it takes a run of indentation characters off the front of
    [line] and leaves the rest, which is never empty: the rest begins with
    the first character that is no indentation, or is the last character
    of a line that is all indentation.  The indentation it returns is at
    least the number of characters taken off when the tab size is
    positive; the subclass's state is not touched. *)
Theorem strip_indent_spec (r : Reader I) :
  (line r = [] -> strip_indent r = Raise UnboundLocalError) /\
  (forall ind r',
     strip_indent r = Ok (ind, r') ->
     impl r' = impl r /\
     exists taken,
       line r = taken ++ line r' /\
       forallb is_indent_char taken = true /\
       match line r' with
       | c :: rest => is_indent_char c = false \/ rest = []
       | [] => False
       end /\
       (0 < tab_size r -> len taken <= ind)).
Proof.
  unfold strip_indent. msimpl. split.
  - intros ->. reflexivity.
  - intros ind r'. destruct (line r) as [|c t] eqn:El; [discriminate|].
    destruct (strip_scan (tab_size r) 0 0 (c :: t)) as [[ind' k]| |] eqn:S;
      try discriminate.
    intros H. inv H. cbn [impl line with_line]. split; [reflexivity|].
    apply strip_scan_spec in S; [|discriminate].
    destruct S as (n & -> & Hn & Hall & Hsk & Hle).
    rewrite slice_from by lia.
    replace (Z.to_nat (0 + Z.of_nat n)) with n by lia.
    exists (firstn n (c :: t)).
    split; [symmetry; apply firstn_skipn|]. split; [exact Hall|].
    split; [exact Hsk|]. intros Hts. specialize (Hle Hts).
    unfold len. rewrite length_firstn. lia.
Qed.

End StripIndent.

(* ================================================================== *)
(** ** The lexical helpers *)
(* ================================================================== *)

(** *** [fetchmode] *)

Lemma octal_char_facts c :
  is_octal c = true ->
  is_int_space c = false /\ Ascii.eqb c "+"%char = false /\
  Ascii.eqb c "-"%char = false /\ Ascii.eqb c "_"%char = false /\
  Ascii.eqb c "o"%char = false /\ Ascii.eqb c "O"%char = false /\
  digit_value c = Some (code c - 48) /\ (code c - 48 <? 8) = true.
Proof.
  destruct c as [[] [] [] [] [] [] [] []]; vm_compute; intros H;
    try discriminate H; repeat split.
Qed.

Lemma int_lstrip_nonspace c t :
  is_int_space c = false -> int_lstrip (c :: t) = c :: t.
Proof. intros H. cbn [int_lstrip]. rewrite H. reflexivity. Qed.

Lemma int_digits_octal : forall s seen acc,
  forallb is_octal s = true ->
  int_digits 8 s false seen acc
    = if seen || negb (null s)
      then Some (fold_left (fun a c => a * 8 + (code c - 48)) s acc)
      else None.
Proof.
  induction s as [|c s IH]; intros seen acc H; cbn [int_digits].
  - destruct seen; reflexivity.
  - cbn [forallb] in H. apply andb_true_iff in H. destruct H as (Hc & Hs).
    destruct (octal_char_facts c Hc) as (_ & _ & _ & Hu & _ & _ & Hd & Hb).
    rewrite Hu, Hd, Hb, (IH true _ Hs). cbn [orb null negb fold_left].
    rewrite orb_true_r. reflexivity.
Qed.

Lemma int_octal c t :
  forallb is_octal (c :: t) = true ->
  int_prefix 8 (c :: t) = c :: t.
Proof.
  intros H. cbn [forallb] in H. apply andb_true_iff in H.
  destruct H as (Hc & Ht). destruct t as [|p t']; [reflexivity|].
  cbn [forallb] in Ht. apply andb_true_iff in Ht. destruct Ht as (Hp & _).
  destruct (octal_char_facts p Hp) as (_ & _ & _ & _ & Ho & HO & _).
  cbn [int_prefix]. rewrite Ho, HO. cbn [orb andb].
  rewrite !andb_false_r. reflexivity.
Qed.

Lemma last_octal_rev s :
  s <> [] -> forallb is_octal s = true ->
  exists c t, rev s = c :: t /\ is_octal c = true.
Proof.
  intros Hne H. destruct (rev s) as [|c t] eqn:E.
  - apply (f_equal (@rev _)) in E. rewrite rev_involutive in E.
    cbn in E. contradiction.
  - exists c, t. split; [reflexivity|].
    assert (Hin : In c s) by (apply in_rev; rewrite E; left; reflexivity).
    rewrite forallb_forall in H. apply H. exact Hin.
Qed.

Lemma strip_octal s :
  s <> [] -> forallb is_octal s = true ->
  int_strip s = s /\ int_strip (s ++ [nl]) = s.
Proof.
  intros Hne H. destruct s as [|c t] eqn:Es; [congruence|]. rewrite <- Es in *.
  assert (Hc : is_int_space c = false).
  { subst s. cbn [forallb] in H. apply andb_true_iff in H.
    apply (octal_char_facts c). apply H. }
  destruct (last_octal_rev s Hne H) as (d & u & Er & Hd).
  assert (Hds : is_int_space d = false) by (apply (octal_char_facts d Hd)).
  unfold int_strip. split.
  - rewrite Es at 1. rewrite (int_lstrip_nonspace c t Hc), <- Es.
    rewrite Er, (int_lstrip_nonspace d u Hds), <- Er.
    apply rev_involutive.
  - rewrite Es at 1. cbn [app]. rewrite (int_lstrip_nonspace c _ Hc).
    change (c :: t ++ [nl]) with ((c :: t) ++ [nl]). rewrite <- Es.
    rewrite rev_app_distr. cbn [rev app int_lstrip].
    replace (is_int_space nl) with true by reflexivity.
    rewrite Er, (int_lstrip_nonspace d u Hds), <- Er. apply rev_involutive.
Qed.

Lemma int_octal_digits s :
  s <> [] -> forallb is_octal s = true ->
  int 8 s = Some (octal_value s) /\ int 8 (s ++ [nl]) = Some (octal_value s).
Proof.
  intros Hne H. destruct (strip_octal s Hne H) as (S1 & S2).
  assert (V : forall x, int_strip x = s -> int 8 x = Some (octal_value s)).
  { intros x Hx. unfold int. rewrite Hx.
    destruct s as [|c t] eqn:Es; [congruence|].
    assert (Hc : is_octal c = true).
    { cbn [forallb] in H. apply andb_true_iff in H. apply H. }
    destruct (octal_char_facts c Hc) as (_ & Hp & Hm & Hu & _).
    rewrite Hp, Hm, (int_octal c t H), Hu.
    rewrite (int_digits_octal (c :: t) false 0 H).
    cbn [orb null negb option_map]. unfold octal_value.
    f_equal. lia. }
  split; apply V; assumption.
Qed.

(** X5.  [fetchmode] of the octal digits of a mode, alone or followed by the
    newline of their line, is the number they write. *)
Theorem fetchmode_octal (s : str) :
  s <> [] -> forallb is_octal s = true ->
  fetchmode s = octal_value s /\ fetchmode (s ++ [nl]) = octal_value s.
Proof.
  intros Hne H. unfold fetchmode.
  destruct (int_octal_digits s Hne H) as (-> & ->). split; reflexivity.
Qed.

Lemma fetchmode_octal_100644 :
  fetchmode (lit "100644") = 33188 /\ fetchmode (ln "100644") = 33188.
Proof.
  apply (fetchmode_octal (lit "100644")).
  - discriminate.
  - reflexivity.
Defined.

(** *** [parse_c_name] and [parse_name] *)

Lemma span_all p (s : str) : forallb p s = true -> span p s = (s, []).
Proof.
  induction s as [|c s IH]; intros H; cbn [span]; [reflexivity|].
  cbn [forallb] in H. apply andb_true_iff in H. destruct H as (Hc & Hs).
  rewrite Hc, (IH Hs). reflexivity.
Qed.

Lemma span_app p : forall (s a b : str),
  span p s = (a, b) -> s = a ++ b.
Proof.
  induction s as [|c s IH]; intros a b H; cbn [span] in H.
  - inv H. reflexivity.
  - destruct (p c).
    + destruct (span p s) as [a' b'] eqn:S. inv H. cbn [app].
      f_equal. apply IH. reflexivity.
    + inv H. reflexivity.
Qed.

Lemma cstring_scan_plain rest : forall s acc,
  forallb plain_char s = true ->
  cstring_scan (s ++ dquote :: rest) acc = Some (rev acc ++ s ++ [dquote], rest)
  /\ cstring_scan s acc = None.
Proof.
  induction s as [|c s IH]; intros acc H.
  - cbn [app cstring_scan]. rewrite Ascii.eqb_refl. cbn [rev].
    split; reflexivity.
  - cbn [forallb] in H. apply andb_true_iff in H. destruct H as (Hc & Hs).
    unfold plain_char in Hc. apply andb_true_iff in Hc.
    destruct Hc as (Hq & Hb).
    apply negb_true_iff in Hq, Hb.
    cbn [app cstring_scan]. rewrite Hq, Hb.
    destruct (IH (c :: acc) Hs) as (E1 & E2). rewrite E1, E2.
    cbn [rev]. rewrite <- app_assoc. split; reflexivity.
Qed.

Lemma sub_unescape_no_backslash : forall s,
  forallb (fun c => negb (Ascii.eqb c bslash)) s = true ->
  sub_unescape s None = Some s.
Proof.
  induction s as [|c s IH]; intros H; cbn [sub_unescape]; [reflexivity|].
  cbn [forallb] in H. apply andb_true_iff in H. destruct H as (Hc & Hs).
  apply negb_true_iff in Hc. rewrite Hc, (IH Hs). reflexivity.
Qed.

(** X6.  [parse_c_name] on a quoted name that holds no quote and no backslash
    returns the name with its two quotes, and the rest of the line; a name
    whose closing quote is missing is refused and the text handed back. *)
Theorem parse_c_name_plain (s rest : str) :
  forallb plain_char s = true ->
  forallb not_nl rest = true ->
  parse_c_name (dquote :: s ++ dquote :: rest)
    = (Some (dquote :: s ++ [dquote]), rest) /\
  parse_c_name (dquote :: s) = (None, dquote :: s).
Proof.
  intros Hs Hr. unfold parse_c_name, re_cstring. rewrite Ascii.eqb_refl.
  destruct (cstring_scan_plain rest s [dquote] Hs) as (E1 & E2).
  rewrite E1, E2. cbn [rev app]. rewrite (span_all _ _ Hr). cbn [fst].
  split; [|reflexivity].
  rewrite sub_unescape_no_backslash; [reflexivity|].
  cbn [forallb]. rewrite forallb_app. cbn [forallb].
  replace (negb (Ascii.eqb dquote bslash)) with true by reflexivity.
  cbn [andb]. rewrite andb_true_r.
  rewrite forallb_forall in Hs |- *. intros c Hc. specialize (Hs c Hc).
  unfold plain_char in Hs. apply andb_true_iff in Hs. apply Hs.
Qed.

Lemma parse_c_name_plain_file :
  parse_c_name (dquote :: lit "a b" ++ dquote :: lit " x")
    = (Some (dquote :: lit "a b" ++ [dquote]), lit " x") /\
  parse_c_name (dquote :: lit "a b") = (None, dquote :: lit "a b").
Proof.
  apply (parse_c_name_plain (lit "a b") (lit " x")); reflexivity.
Defined.

Lemma startswith_prefix (a b : str) : startswith (a ++ b) a = true.
Proof.
  induction a as [|c a IH]; [destruct b; reflexivity|].
  cbn [app startswith]. rewrite Ascii.eqb_refl. exact IH.
Qed.

Lemma lstrip_suffix : forall s, exists pre, s = pre ++ lstrip s.
Proof.
  induction s as [|c s (pre & IH)]; [exists []; reflexivity|].
  cbn [lstrip]. destruct (is_space c).
  - exists (c :: pre). cbn [app]. f_equal. exact IH.
  - exists []. reflexivity.
Qed.

Lemma rstrip_prefix s : exists t, s = rstrip s ++ t.
Proof.
  unfold rstrip. destruct (lstrip_suffix (rev s)) as (pre & E).
  exists (rev pre). rewrite <- rev_app_distr, <- E. symmetry.
  apply rev_involutive.
Qed.

(** X7.  [parse_name] on a text that does not begin, after its leading white
    space, with a quote always returns a name: a prefix of the text after
    the white space, without a tab, and without any white space unless the
    name is cut at a tab; what it returns as the rest holds no newline. *)
Theorem parse_name_unquoted (spec : str) (tabterm : bool)
    (n : option str) (rest : str) :
  parse_name spec tabterm = (n, rest) ->
  startswith (lstrip spec) [dquote] = false ->
  exists g, n = Some g /\
    startswith (lstrip spec) g = true /\
    forallb not_tab g = true /\
    (tabterm = false -> forallb not_space g = true) /\
    forallb not_nl rest = true.
Proof.
  unfold parse_name. intros H Hq. rewrite Hq in H.
  assert (Hdef : forall n rest,
            (let '(g1, r) := span (fun c => negb (is_space c)) (lstrip spec) in
             (Some g1, fst (span not_nl (lstrip r)))) = (n, rest) ->
            exists g, n = Some g /\
              startswith (lstrip spec) g = true /\
              forallb not_tab g = true /\
              forallb not_space g = true /\
              forallb not_nl rest = true).
  { intros n0 rest0 D.
    destruct (span (fun c => negb (is_space c)) (lstrip spec)) as [g1 r] eqn:S.
    inv D. exists g1. split; [reflexivity|].
    pose proof (span_forallb _ _ _ _ S) as Hg.
    rewrite (span_app _ _ _ _ S).
    split; [apply startswith_prefix|].
    split; [|split; [exact Hg|]].
    - rewrite forallb_forall in Hg |- *. intros c Hc. specialize (Hg c Hc).
      unfold not_tab. destruct (Ascii.eqb_spec c tab) as [->|]; [|reflexivity].
      discriminate Hg.
    - destruct (span not_nl (lstrip r)) as [a b] eqn:S2.
      exact (span_forallb _ _ _ _ S2). }
  destruct tabterm.
  - unfold re_tabterm in H.
    destruct (span (fun c => negb (Ascii.eqb c tab)) (lstrip spec))
      as [g1 r] eqn:S.
    destruct r as [|c r'].
    + apply Hdef in H. destruct H as (g & Hn & Hp & Ht & _ & Hr).
      exists g. repeat split; auto. discriminate.
    + inv H. exists (rstrip g1). split; [reflexivity|].
      pose proof (span_forallb _ _ _ _ S) as Hg.
      destruct (rstrip_prefix g1) as (t & Et).
      split; [|split; [|split; [discriminate|]]].
      * rewrite (span_app _ _ _ _ S). rewrite Et at 1.
        rewrite <- app_assoc. apply startswith_prefix.
      * rewrite Et in Hg. rewrite forallb_app in Hg.
        apply andb_true_iff in Hg. apply Hg.
      * destruct (span not_nl r') as [a b] eqn:S2.
        exact (span_forallb _ _ _ _ S2).
  - apply Hdef in H. destruct H as (g & Hn & Hp & Ht & Hs & Hr).
    exists g. repeat split; auto.
Qed.

Lemma parse_name_unquoted_tab :
  exists g, Some (lit "a b") = Some g /\
    startswith (lstrip (lit " a b " ++ tab :: ln "2020")) g = true /\
    forallb not_tab g = true /\
    (true = false -> forallb not_space g = true) /\
    forallb not_nl (lit "2020") = true.
Proof.
  apply (parse_name_unquoted (lit " a b " ++ tab :: ln "2020") true);
    reflexivity.
Defined.

(** *** [get_edcmd] *)

Lemma ed_letter_shape allowed s g rest :
  Re.ed_letter allowed s = Some (g, rest) ->
  (exists c, g = [c] /\ existsb (Ascii.eqb c) allowed = true) \/
  (exists x, g = lit "s/" ++ x :: lit "//" /\ x <> nl).
Proof.
  unfold Re.ed_letter. destruct s as [|c r]; [discriminate|].
  destruct (existsb (Ascii.eqb c) allowed) eqn:Ec.
  - intros H; inv H. left. eauto.
  - destruct r as [|s1 [|x [|s3 [|s4 r']]]]; try discriminate.
    destruct (Ascii.eqb_spec c "s"%char) as [->|]; [|discriminate].
    destruct (Ascii.eqb_spec s1 "/"%char) as [->|]; [|discriminate].
    destruct (Ascii.eqb_spec x nl) as [->|Hx]; [discriminate|].
    destruct (Ascii.eqb_spec s3 "/"%char) as [->|]; [|discriminate].
    destruct (Ascii.eqb_spec s4 "/"%char) as [->|]; [|discriminate].
    cbn. intros H; inv H. right. exists x. split; [reflexivity | exact Hx].
Qed.

(** X8.  The command [get_edcmd] finds on a line is one of the letters a, i, c,
    d, or a substitute command of five characters; the test
    [edcmd in 'ds'] of [EdHunk.parse] holds for the letter d alone, so
    that every other command, the substitute command too, is read on to a
    line with a single dot. *)
Theorem get_edcmd_commands (l edcmd : str) :
  get_edcmd l = Some edcmd ->
  ((exists c, edcmd = [c] /\ existsb (Ascii.eqb c) (lit "aicd") = true) \/
   (exists x, edcmd = lit "s/" ++ x :: lit "//" /\ x <> nl)) /\
  contains (lit "ds") edcmd = str_eqb edcmd (lit "d").
Proof.
  intros H. split; [|apply (get_edcmd_in_ds l); exact H].
  revert H. unfold get_edcmd, Re.re_edcmd.
  destruct (span is_digit l) as [d1 r]. destruct r as [|c r']; [discriminate|].
  destruct (Ascii.eqb c ","%char).
  - destruct (null d1); [discriminate|].
    destruct (span is_digit r') as [d2 r''].
    destruct (null d2); [discriminate|].
    destruct (Re.ed_letter (lit "cd") r'') as [[g rest]|] eqn:E; [|discriminate].
    destruct (Re.line_end rest); [|discriminate]. intros H; inv H.
    apply ed_letter_shape in E. destruct E as [(c0 & -> & Hc)|E]; [|auto].
    left. exists c0. split; [reflexivity|].
    cbn in Hc |- *.
    destruct (Ascii.eqb c0 "c"), (Ascii.eqb c0 "d"),
             (Ascii.eqb c0 "a"), (Ascii.eqb c0 "i"); auto.
  - destruct (Re.ed_letter (lit "aicd") (c :: r')) as [[g rest]|] eqn:E;
      [|discriminate].
    destruct (Re.line_end rest); [|discriminate]. intros H; inv H.
    apply ed_letter_shape in E. exact E.
Qed.

Lemma get_edcmd_commands_change :
  ((exists c, lit "c" = [c] /\ existsb (Ascii.eqb c) (lit "aicd") = true) \/
   (exists x, lit "c" = lit "s/" ++ x :: lit "//" /\ x <> nl)) /\
  contains (lit "ds") (lit "c") = str_eqb (lit "c") (lit "d").
Proof.
  apply (get_edcmd_commands (ln "3,4c")). reflexivity.
Defined.

(* ================================================================== *)
(** ** What the hunk parsers record *)
(* ================================================================== *)

Section NormalHunks.
Context {I : Type} {RI : ReaderImpl I}.

(** X9.  A hunk [NormalHunk.parse] accepts is read from one call of
    [get_line]: the reader is where that call left it, on a line the
    command pattern matches.  The hunk holds the two line numbers of the
    command and nothing else: no change, no section, no position. *)
Theorem NormalHunk_parse_accepts (r r' : Reader I) (h : Hunk) :
  NormalHunk_parse new_hunk r = Ok (true, h, r') ->
  get_line true r = Ok (true, r') /\
  exists g1 g2 cmd g4 g5,
    Re.re_cmd (line r') = Some (g1, g2, cmd, g4, g5) /\
    h = mkHunk (Some (int10 g1)) (Some (int10 g4)) None [] [] None None.
Proof.
  unfold NormalHunk_parse. msimpl.
  destruct (get_line true r) as [[ok r1]| |]; try discriminate.
  destruct ok; cbn [negb]; [|discriminate].
  destruct (Re.re_cmd (line r1)) as [[[[[g1 g2] cmd] g4] g5]|] eqn:E.
  - intros H; inv H. split; [reflexivity|].
    exists g1, g2, cmd, g4, g5. split; [exact E | reflexivity].
  - destruct (set_pos _ r1) as [[[] r2]| |]; discriminate.
Qed.

End NormalHunks.

Lemma NormalHunk_parse_accepts_change :
  get_line true normal_diff = Ok (true, snd normal_diff_parsed) /\
  exists g1 g2 cmd g4 g5,
    Re.re_cmd (line (snd normal_diff_parsed)) = Some (g1, g2, cmd, g4, g5) /\
    fst normal_diff_parsed
      = mkHunk (Some (int10 g1)) (Some (int10 g4)) None [] [] None None.
Proof.
  apply (NormalHunk_parse_accepts normal_diff). vm_compute. reflexivity.
Defined.

Lemma ed_body_span fuel :
  forall h (r r' : Reader LineReader) h',
  ed_body fuel h r = Ok (true, h', r') ->
  h' = with_hunk_end (Some (pos r' - 1)) h /\ pos r < pos r' /\
  line r' = lit "." ++ [nl].
Proof.
  induction fuel as [|fuel IH]; intros h r r' h' H; cbn [ed_body] in H.
  - discriminate.
  - msimpl_in H.
    destruct (get_line false r) as [[ok r1]| |] eqn:G; try discriminate.
    apply get_line_pos in G. destruct G as (Gi & Gp & Gt).
    destruct ok; cbn [negb] in H; [|discriminate].
    specialize (Gt eq_refl).
    destruct (str_eqb (line r1) (lit "." ++ [nl])) eqn:E.
    + inv H. apply str_eqb_eq in E.
      cbn [impl_get_pos LineReader_impl].
      replace (pos r' + -1) with (pos r' - 1) by lia. auto.
    + apply IH in H. destruct H as (-> & Hp & Hl).
      split; [reflexivity|]. split; [lia | exact Hl].
Qed.

(** X10.  A hunk [EdHunk.parse] accepts records as [begin] the position
    of its command line, the line the first [get_line] stopped at, and as
    [end] the position of the last line read; it holds nothing else, no
    change and no line number.  For a command the test [edcmd in 'ds']
    lets through the hunk ends at the command line; for any other command
    lines were read after it, and the last line read is a single dot. *)
Theorem EdHunk_parse_span (r r' : Reader LineReader) (h : Hunk) :
  EdHunk_parse new_hunk r = Ok (true, h, r') ->
  exists r1 edcmd,
    get_line true r = Ok (true, r1) /\
    get_edcmd (line r1) = Some edcmd /\
    h = mkHunk None None None [] [] (Some (pos r1 - 1)) (Some (pos r' - 1)) /\
    pos r < pos r1 /\
    (if contains (lit "ds") edcmd then r' = r1
     else pos r1 < pos r' /\ line r' = lit "." ++ [nl]).
Proof.
  unfold EdHunk_parse. msimpl.
  destruct (get_line true r) as [[ok r1]| |] eqn:G; try discriminate.
  pose proof (get_line_pos _ _ _ _ G) as (_ & _ & Gt).
  destruct ok; cbn [negb]; [|discriminate].
  specialize (Gt eq_refl). cbn [impl_get_pos LineReader_impl].
  destruct (get_edcmd (line r1)) as [edcmd|] eqn:Ec; [|discriminate].
  intros H. exists r1, edcmd. split; [reflexivity|]. split; [exact Ec|].
  destruct (contains (lit "ds") edcmd).
  - inv H. split; [|split; [exact Gt | reflexivity]].
    unfold with_hunk_end, with_hunk_begin, new_hunk. cbn.
    f_equal; f_equal; lia.
  - apply ed_body_span in H. destruct H as (-> & Hp & Hl).
    split; [|split; [exact Gt | split; [exact Hp | exact Hl]]].
    unfold with_hunk_end, with_hunk_begin, new_hunk. cbn.
    f_equal; f_equal; lia.
Qed.

Lemma EdHunk_parse_span_script :
  exists r1 edcmd,
    get_line true ed_script = Ok (true, r1) /\
    get_edcmd (line r1) = Some edcmd /\
    fst ed_script_parsed
      = mkHunk None None None [] []
          (Some (pos r1 - 1)) (Some (pos (snd ed_script_parsed) - 1)) /\
    pos ed_script < pos r1 /\
    (if contains (lit "ds") edcmd then snd ed_script_parsed = r1
     else pos r1 < pos (snd ed_script_parsed) /\
          line (snd ed_script_parsed) = lit "." ++ [nl]).
Proof.
  apply (EdHunk_parse_span ed_script). vm_compute. reflexivity.
Defined.

Lemma uni_body_end fuel :
  forall p q h (r r' : Reader LineReader) h',
  uni_body fuel p q h r = Ok (true, h', r') ->
  hunk_end h' = Some (pos r' - 1).
Proof.
  induction fuel as [|fuel IH]; intros p q h r r' h' H; cbn [uni_body] in H.
  - destruct ((p >? 0) || (q >? 0)); msimpl_in H; [discriminate|].
    inv H. cbn. f_equal; lia.
  - destruct ((p >? 0) || (q >? 0)); msimpl_in H.
    + destruct (get_line true r) as [[ok r1]| |]; try discriminate.
      destruct (if negb ok || (len (line r1) <? 1) then _ else _) as [l|];
        msimpl_in H; [|discriminate].
      destruct (uni_line l p q h) as [[[[p1 q1] h1]|]| |];
        msimpl_in H; try discriminate.
      eapply IH; eauto.
    + inv H. cbn. f_equal; lia.
Qed.

(** X11.  A hunk [UniHunk.parse] accepts records as [begin] the position of its
    [@@] line, the line the first [get_line] stopped at, and as [end] the
    position of the last line read; its section is the text the [@@] line
    carries after the second [@@]. *)
Theorem UniHunk_parse_span (r r' : Reader LineReader) (h : Hunk) :
  UniHunk_parse new_hunk r = Ok (true, h, r') ->
  exists r1 g1 g2 g3 g4 g5,
    get_line true r = Ok (true, r1) /\
    Re.re_unihunk (line r1) = Some (g1, g2, g3, g4, g5) /\
    hunk_begin h = Some (pos r1 - 1) /\ hunk_end h = Some (pos r' - 1) /\
    section h = g5 /\
    pos r < pos r1 /\ pos r1 <= pos r'.
Proof.
  intros H.
  destruct (get_line true r) as [[ok r1]| |] eqn:G;
    try (unfold UniHunk_parse in H; msimpl_in H; rewrite G in H;
         discriminate).
  destruct ok;
    [|unfold UniHunk_parse in H; msimpl_in H; rewrite G in H; discriminate].
  destruct (Re.re_unihunk (line r1)) as [[[[[g1 g2] g3] g4] g5]|] eqn:E.
  - unfold UniHunk_parse in H. msimpl_in H. rewrite G in H.
    cbn [negb] in H. rewrite E in H.
    destruct (uni_header_spec g1 g2 g3 g4 g5
                (impl_get_pos (impl r1) (-1)) new_hunk)
      as (h1 & Eh & _ & _ & Hsec & Hbeg & _).
    rewrite Eh in H.
    destruct (re_unihunk_declared _ _ _ _ _ _ E) as (Hp & Hq).
    pose proof (uni_body_end _ _ _ _ _ _ _ H) as He.
    pose proof (uni_body_header _ _ _ _ _ _ _ _ Hp Hq H)
      as (_ & _ & Hs & Hb).
    pose proof (uni_body_pos _ _ _ _ _ _ _ _ H) as (_ & Hpos).
    pose proof (get_line_pos _ _ _ _ G) as (_ & _ & Gt).
    specialize (Gt eq_refl).
    exists r1, g1, g2, g3, g4, g5. split; [reflexivity|].
    split; [exact E|]. split.
    { rewrite Hb, Hbeg. cbn [impl_get_pos LineReader_impl]. f_equal; lia. }
    split; [exact He|]. split; [congruence|]. split; [exact Gt | exact Hpos].
  - unfold UniHunk_parse in H. msimpl_in H. rewrite G in H.
    cbn [negb] in H. rewrite E in H.
    rewrite set_pos_LineReader in H. discriminate.
Qed.

Lemma UniHunk_parse_span_chopped :
  exists r1 g1 g2 g3 g4 g5,
    get_line true chopped_hunk = Ok (true, r1) /\
    Re.re_unihunk (line r1) = Some (g1, g2, g3, g4, g5) /\
    hunk_begin chopped_hunk_parsed = Some (pos r1 - 1) /\
    hunk_end chopped_hunk_parsed = Some (pos chopped_hunk_after - 1) /\
    section chopped_hunk_parsed = g5 /\
    pos chopped_hunk < pos r1 /\ pos r1 <= pos chopped_hunk_after.
Proof.
  apply (UniHunk_parse_span chopped_hunk). vm_compute. reflexivity.
Defined.

(* ================================================================== *)
(** ** [Patch.parse] *)
(* ================================================================== *)

Section PatchParse.
Variable Stamp : Type.

(** X12.  The patches of the context formats and the git binary patch cannot be
    parsed: [Patch.parse] raises [NotImplementedError] for them, whatever
    the reader holds. *)
Theorem Patch_parse_not_implemented {I : Type} {RI : ReaderImpl I}
    (p : Patch Stamp) (r : Reader I) :
  patch_class Stamp p = ContextPatch \/
  patch_class Stamp p = NewContextPatch \/
  patch_class Stamp p = GitBinaryPatch ->
  Patch_parse Stamp p r = Raise NotImplementedError.
Proof.
  intros Hc. unfold Patch_parse. msimpl.
  destruct (patch_begin Stamp p); cbn [parse_hunks]; msimpl;
    cbn [patch_class with_patch_begin];
    destruct Hc as [-> | [-> | ->]]; reflexivity.
Qed.

Lemma parse_hunks_pos fuel c :
  forall acc (r r' : Reader LineReader) hs,
  parse_hunks fuel c acc r = Ok (hs, r') ->
  pos r <= pos r' /\ len hs - len acc <= pos r' - pos r.
Proof.
  induction fuel as [|fuel IH]; intros acc r r' hs H; cbn [parse_hunks] in H.
  - discriminate.
  - msimpl_in H.
    destruct (next_hunk_parse c r) as [[[ok h] r1]| |] eqn:N; try discriminate.
    apply next_hunk_parse_pos in N. destruct N as (_ & Np & Nt).
    destruct ok.
    + apply IH in H. specialize (Nt eq_refl). destruct H as (Hp & Hl).
      unfold len in *. rewrite length_app in Hl. cbn [List.length] in Hl.
      lia.
    + inv H. lia.
Qed.

(** X13.  [Patch.parse] over a list of lines never moves the reader back, and
    reads at least one line for every hunk it collects.  The patch keeps
    its class and its header; its [begin] is the one it had, or the
    position of the call when it had none, and its [end] is the position
    before the one the reader is left at. *)
Theorem Patch_parse_span (p p' : Patch Stamp) (r r' : Reader LineReader) :
  Patch_parse Stamp p r = Ok (p', r') ->
  patch_class Stamp p' = patch_class Stamp p /\
  patch_header Stamp p' = patch_header Stamp p /\
  patch_begin Stamp p'
    = Some (match patch_begin Stamp p with Some b => b | None => pos r end) /\
  patch_end Stamp p' = Some (pos r' - 1) /\
  input r' = input r /\ pos r <= pos r' /\
  len (hunks Stamp p') <= pos r' - pos r.
Proof.
  unfold Patch_parse. msimpl. intros H.
  assert (Hq : forall q : Patch Stamp,
    match parse_hunks (S (lines_left (impl r))) (patch_class Stamp q) [] r with
    | Ok (hs, r1) =>
        Ok (with_patch_end Stamp (Some (impl_get_pos (impl r1) (-1)))
              (with_hunks Stamp hs q), r1)
    | Raise e => Raise e
    | Fuel => Fuel
    end = Ok (p', r') ->
    patch_class Stamp p' = patch_class Stamp q /\
    patch_header Stamp p' = patch_header Stamp q /\
    patch_begin Stamp p' = patch_begin Stamp q /\
    patch_end Stamp p' = Some (pos r' - 1) /\
    input r' = input r /\ pos r <= pos r' /\
    len (hunks Stamp p') <= pos r' - pos r).
  { intros q Hq.
    destruct (parse_hunks _ (patch_class Stamp q) [] r) as [[hs r1]| |] eqn:P;
      try discriminate.
    inv Hq. pose proof (parse_hunks_input _ _ _ _ _ _ P) as Hi.
    apply parse_hunks_pos in P. destruct P as (Hp & Hl).
    cbn [patch_class patch_header patch_begin patch_end hunks
         with_patch_end with_hunks impl_get_pos LineReader_impl].
    split; [reflexivity|]. split; [reflexivity|]. split; [reflexivity|].
    split; [f_equal; lia|]. split; [exact Hi|]. split; [exact Hp|].
    unfold len in *. cbn [List.length] in Hl. lia. }
  destruct (patch_begin Stamp p) as [b|] eqn:Eb.
  - apply Hq in H. rewrite Eb in H. exact H.
  - apply Hq in H. cbn in H. rewrite Z.add_0_r in H. exact H.
Qed.

End PatchParse.

Lemma Patch_parse_not_implemented_context :
  Patch_parse Z (new_patch Z scenario_dates 0 ContextPatch None)
    (line_reader scenario1) = Raise NotImplementedError.
Proof.
  apply (Patch_parse_not_implemented Z). left. reflexivity.
Defined.

Lemma Patch_parse_span_chopped :
  patch_class Z (fst bare_uni_patch_parsed) = patch_class Z bare_uni_patch /\
  patch_header Z (fst bare_uni_patch_parsed)
    = patch_header Z bare_uni_patch /\
  patch_begin Z (fst bare_uni_patch_parsed)
    = Some (match patch_begin Z bare_uni_patch with
            | Some b => b
            | None => pos chopped_hunk
            end) /\
  patch_end Z (fst bare_uni_patch_parsed)
    = Some (pos (snd bare_uni_patch_parsed) - 1) /\
  input (snd bare_uni_patch_parsed) = input chopped_hunk /\
  pos chopped_hunk <= pos (snd bare_uni_patch_parsed) /\
  len (hunks Z (fst bare_uni_patch_parsed))
    <= pos (snd bare_uni_patch_parsed) - pos chopped_hunk.
Proof.
  apply (Patch_parse_span Z bare_uni_patch). vm_compute. reflexivity.
Defined.

(* ================================================================== *)
(** ** [PatchFile.add_patch] *)
(* ================================================================== *)

Section AddPatch.
Variable Stamp : Type.
Variable dateparse : str -> option Stamp.
Variable epoch : Stamp.

(** X14.  [add_patch] over a list of lines leaves the lines and the file header
    as they are.  When it returns True it has appended exactly one patch,
    and a patch whose header has a [begin] begins there, at or after the
    position of the call; when it returns False the patches are as they
    were. *)
Theorem add_patch_appends_one (need_header : bool)
    (f f' : PatchFile Stamp) (r r' : Reader LineReader) (found : bool) :
  add_patch Stamp dateparse epoch need_header f r = Ok (found, f', r') ->
  input r' = input r /\ pf_header Stamp f' = pf_header Stamp f /\
  if found
  then exists p,
         patches Stamp f' = patches Stamp f ++ [p] /\
         forall b, hdr_begin Stamp (patch_header Stamp p) = Some b ->
                   patch_begin Stamp p = Some b /\ pos r <= b
  else patches Stamp f' = patches Stamp f.
Proof.
  intros H. apply add_patch_inv in H. exact H.
Qed.

End AddPatch.

Lemma add_patch_appends_one_scenario1 :
  input (snd scenario1_added) = input (line_reader scenario1) /\
  pf_header Z (fst scenario1_added) = pf_header Z empty_patch_file /\
  exists p,
    patches Z (fst scenario1_added) = patches Z empty_patch_file ++ [p] /\
    forall b, hdr_begin Z (patch_header Z p) = Some b ->
              patch_begin Z p = Some b /\ pos (line_reader scenario1) <= b.
Proof.
  apply (add_patch_appends_one Z scenario_dates 0 true empty_patch_file
           (fst scenario1_added) (line_reader scenario1)
           (snd scenario1_added) true).
  vm_compute. reflexivity.
Defined.

(* ================================================================== *)
(** ** The file reader and the lines of its file *)
(* ================================================================== *)

Lemma skipn_head {A} : forall (n : nat) (l : list A) x t,
  skipn n l = x :: t -> nth_error l n = Some x.
Proof.
  induction n as [|n IH]; intros l x t H.
  - cbn in H. subst l. reflexivity.
  - destruct l as [|y l]; [discriminate|]. cbn in H |- *. eapply IH; eauto.
Qed.

Lemma skipn_nil_length {A} : forall (n : nat) (l : list A),
  skipn n l = [] -> (List.length l <= n)%nat.
Proof.
  induction n as [|n IH]; intros l H.
  - cbn in H. subst l. cbn. lia.
  - destruct l as [|y l]; [cbn; lia|]. cbn in H |- *.
    apply IH in H. lia.
Qed.

Lemma stream_lines_wf s fl o0 rest :
  wf_facts s fl o0 rest ->
  stream_lines s = lines_at (content fl) o0 /\
  skipn (Z.to_nat (FR.lineno s)) (stream_lines s)
    = lines_at (content fl) (offset fl).
Proof.
  intros (Hf & Hl & H0 & Hc & Hn & Hlt & Hi).
  assert (E : stream_lines s = lines_at (content fl) o0).
  { unfold stream_lines. rewrite Hf, Hl. reflexivity. }
  split; [exact E|]. rewrite E.
  apply (chain_skipn _ _ _ _ _ Hc H0 Hi).
Qed.

(** X15.  [FileReader._get_line] on a file reader as its methods leave it
    returns the line of the stream at the reader's position, or None when
    the position is past the last line; the position moves by one line
    when a line is returned, and the reader stays as its methods leave it,
    over the same stream.  A [LineReader] over the lines of the stream, at
    the same position, returns the same and moves alike. *)
Theorem FileReader_get_line_next (s : FR.FileReader) :
  FR_wf s = true ->
  exists x s',
    FR._get_line s = Ok (x, s') /\
    x = nth_error (stream_lines s) (Z.to_nat (FR.lineno s)) /\
    FR.lineno s' = match x with
                   | Some _ => FR.lineno s + 1
                   | None => FR.lineno s
                   end /\
    FR_wf s' = true /\ stream_lines s' = stream_lines s /\
    LineReader_get_line (mkLineReader (stream_lines s) (FR.lineno s))
      = Ok (x, mkLineReader (stream_lines s) (FR.lineno s')).
Proof.
  intros W. apply FR_wf_elim in W. destruct W as (fl & o0 & rest & W).
  destruct (stream_lines_wf _ _ _ _ W) as (Es & Ek).
  pose proof W as (_ & _ & _ & _ & Hn & _ & _).
  destruct (FR_get_line_wf s fl o0 rest W)
    as (x & s' & fl' & ext & G & W' & C & Hx).
  destruct (stream_lines_wf _ _ _ _ W') as (Es' & _).
  exists x, s'. split; [exact G|].
  assert (Hst : stream_lines s' = stream_lines s) by congruence.
  unfold LineReader_get_line. cbn [lines lineno with_lineno].
  destruct x as [l|].
  - destruct Hx as (Hl & Hx & _). rewrite Hx in Ek.
    pose proof (skipn_head _ _ _ _ Ek) as Hnth.
    assert (Hlt : FR.lineno s < len (stream_lines s)).
    { assert (nth_error (stream_lines s) (Z.to_nat (FR.lineno s)) <> None)
        as Hsome by congruence.
      apply nth_error_Some in Hsome. unfold len. lia. }
    split; [symmetry; exact Hnth|]. split; [exact Hl|].
    split; [eapply FR_wf_intro; eauto|]. split; [exact Hst|].
    destruct (FR.lineno s >=? len (stream_lines s)) eqn:E;
      [rewrite Z.geb_leb in E; apply Z.leb_le in E; lia|].
    rewrite index_nth_error, Hnth, Hl by lia. reflexivity.
  - destruct Hx as (_ & Hl & Hx). rewrite Hx in Ek.
    apply skipn_nil_length in Ek.
    assert (Hnth : nth_error (stream_lines s) (Z.to_nat (FR.lineno s)) = None)
      by (apply nth_error_None; exact Ek).
    split; [symmetry; exact Hnth|]. split; [exact Hl|].
    split; [eapply FR_wf_intro; eauto|]. split; [exact Hst|].
    destruct (FR.lineno s >=? len (stream_lines s)) eqn:E;
      [rewrite Hl; reflexivity|].
    rewrite Z.geb_leb in E. apply Z.leb_gt in E. unfold len in E. lia.
Qed.

Lemma FileReader_get_line_next_two_read :
  exists x s',
    FR._get_line two_read = Ok (x, s') /\
    x = nth_error (stream_lines two_read) (Z.to_nat (FR.lineno two_read)) /\
    FR.lineno s' = match x with
                   | Some _ => FR.lineno two_read + 1
                   | None => FR.lineno two_read
                   end /\
    FR_wf s' = true /\ stream_lines s' = stream_lines two_read /\
    LineReader_get_line
      (mkLineReader (stream_lines two_read) (FR.lineno two_read))
      = Ok (x, mkLineReader (stream_lines two_read) (FR.lineno s')).
Proof.
  apply (FileReader_get_line_next two_read). reflexivity.
Defined.

(** X16.  [FileReader.set_pos] to a line read before puts the reader at that
    line: the position is the one asked for, the line index and the stream
    are as before, and the reader is as its methods leave it, so that the
    next [_get_line] returns that line.  Setting the position the reader
    is at changes nothing. *)
Theorem FileReader_set_pos_known (s : FR.FileReader) (p : Z) :
  FR_wf s = true ->
  0 <= p < len (FR.line2pos s) ->
  exists s',
    FR.set_pos p s = Ok (tt, s') /\
    FR.get_pos s' 0 = p /\ FR.line2pos s' = FR.line2pos s /\
    FR_wf s' = true /\ stream_lines s' = stream_lines s /\
    (p = FR.get_pos s 0 -> s' = s).
Proof.
  intros W Hp. apply FR_wf_elim in W. destruct W as (fl & o0 & rest & W).
  pose proof W as (Hf & Hl & H0 & Hc & Hn & Hlt & Hi).
  rewrite Hl in Hp.
  destruct (nth_error (o0 :: rest) (Z.to_nat p)) as [op|] eqn:Ep;
    [|apply nth_error_None in Ep; unfold len in Hp; lia].
  destruct (chain_skipn _ _ _ _ _ Hc H0 Ep) as (Hop & _).
  set (s' := FR.mkFileReader (Some (mkPyFile (content fl) op))
               (FR.line2pos s) p).
  assert (W' : wf_facts s' (mkPyFile (content fl) op) o0 rest).
  { unfold wf_facts, s'. cbn [FR.f FR.line2pos FR.lineno content offset].
    split; [reflexivity|]. split; [exact Hl|]. split; [exact H0|].
    split; [exact Hc|]. split; [lia|]. split; [lia|]. exact Ep. }
  exists s'. split.
  { unfold FR.set_pos. rewrite Hf, Hl, index_nth_error, Ep by lia.
    unfold seek. destruct (op <? 0) eqn:E; [apply Z.ltb_lt in E; lia|].
    rewrite <- Hl. reflexivity. }
  split; [unfold FR.get_pos, s'; cbn; lia|].
  split; [reflexivity|]. split; [eapply FR_wf_intro; eauto|].
  split.
  { destruct (stream_lines_wf _ _ _ _ W) as (E1 & _).
    destruct (stream_lines_wf _ _ _ _ W') as (E2 & _).
    rewrite E1, E2. reflexivity. }
  unfold FR.get_pos. intros ->. rewrite Z.add_0_r in Ep.
  rewrite Hi in Ep. inv Ep. unfold s'. rewrite Z.add_0_r.
  destruct s as [sf sl sn]. cbn [FR.f FR.line2pos FR.lineno] in *.
  subst sf. destruct fl. reflexivity.
Qed.

Lemma FileReader_set_pos_known_two_read :
  exists s',
    FR.set_pos 1 two_read = Ok (tt, s') /\
    FR.get_pos s' 0 = 1 /\ FR.line2pos s' = FR.line2pos two_read /\
    FR_wf s' = true /\ stream_lines s' = stream_lines two_read /\
    (1 = FR.get_pos two_read 0 -> s' = two_read).
Proof.
  apply (FileReader_set_pos_known two_read 1).
  - reflexivity.
  - vm_compute. split; [discriminate | reflexivity].
Defined.

(* ================================================================== *)
(** ** A driver that never returns *)
(* ================================================================== *)

Lemma slice_all {A} (l : list A) : slice l (Some 0) None = l.
Proof. rewrite slice_from by lia. reflexivity. Qed.

Lemma index_some_range {A} (l : list A) (n : Z) (x : A) :
  0 <= n -> index l n = Some x -> (n >=? len l) = false.
Proof.
  intros Hn Hi. rewrite Z.geb_leb. apply Z.leb_gt. unfold index in Hi.
  destruct (n <? 0) eqn:E; [apply Z.ltb_lt in E; lia|].
  destruct ((n <? 0) || (len l <=? n)) eqn:E2; [discriminate|].
  rewrite E in E2. cbn [orb] in E2. apply Z.leb_gt in E2. exact E2.
Qed.

(** A read with no indentation to take off, no mail quote and no carriage
    return to strip, of a line that is no comment: the line is taken as it
    is. *)
Lemma pget_line_plain ts ind nest scr ln0 ls n (l : str) skip :
  0 <= n -> index ls n = Some l ->
  endswith l [nl] = true -> startswith l (lit "#") = false ->
  pget_line 0 0 false skip
    (mkReader ts ind nest scr ln0 (mkLineReader ls n))
  = Ok (true, mkReader ts ind nest scr l (mkLineReader ls (n + 1))).
Proof.
  intros Hn Hi He Hc.
  unfold pget_line, fetch_line. cbn [pget_loop]. msimpl.
  unfold _get_line, lift. cbn [impl impl_get_line LineReader_impl].
  unfold LineReader_get_line. cbn [lines lineno].
  rewrite (index_some_range _ _ _ Hn Hi), Hi.
  cbn [with_impl with_lineno tab_size indent rfc934_nesting strip_cr line
       impl lines lineno].
  destruct l as [|c l']; [discriminate He|].
  cbn [for_indent indent_scan].
  replace (0 >=? 0) with true by reflexivity.
  replace (0 >? 0) with false by reflexivity.
  cbn [rbind lift_result]. cbv beta iota.
  destruct skip; cbv beta iota; unfold startswith_at;
    rewrite ?slice_all, ?Hc, ?He; cbn [negb andb]; cbv beta iota;
    unfold with_line;
    cbn [tab_size indent rfc934_nesting strip_cr line impl with_impl
         with_lineno lines lineno];
    rewrite ?slice_all; reflexivity.
Qed.

Section Stuck.
Variable Stamp : Type.
Variable dateparse : str -> option Stamp.
Variable epoch : Stamp.

Local Abbreviation Scan := (Scan Stamp).

Lemma stuck_strip_indent ts ind nest scr ls n l t :
  l = lit "@@ -" ++ t ->
  strip_indent (mkReader ts ind nest scr l (mkLineReader ls n))
  = Ok (0, mkReader ts ind nest scr l (mkLineReader ls n)).
Proof.
  intros ->.
  assert (S : strip_scan ts 0 0 (lit "@@ -" ++ t) = Ok (0, 0))
    by reflexivity.
  unfold strip_indent. msimpl. cbn [line tab_size].
  change (lit "@@ -" ++ t) with ("@"%char :: lit "@ -" ++ t) at 1.
  cbv beta iota. rewrite S. cbn [lift_result]. cbv beta iota.
  unfold with_line. cbn [tab_size indent rfc934_nesting strip_cr impl line].
  rewrite slice_all. reflexivity.
Qed.


Lemma stuck_header_chain dt b (s : Scan) (r1 : Reader LineReader) l t :
  l = lit "@@ -" ++ t ->
  need_header Stamp s = false -> edcmdpos Stamp s = None ->
  git_diff Stamp s = false ->
  header_chain Stamp dateparse epoch dt 0 l b s r1 = Ok (Some (0, l, s), r1).
Proof.
  intros -> Hn He Hg. unfold header_chain. rewrite Hn, He, Hg.
  replace (Re.re_cmd (lit "@@ -" ++ t)) with
    (@None (str * option str * ascii * str * option str)) by reflexivity.
  replace (get_edcmd (lit "@@ -" ++ t)) with (@None str)
    by (destruct t; reflexivity).
  replace (startswith (lit "@@ -" ++ t) (lit "*** ")) with false
    by reflexivity.
  replace (startswith (lit "@@ -" ++ t) (lit "+++ ")) with false
    by reflexivity.
  replace (startswith (lit "@@ -" ++ t) (lit "Index:")) with false
    by reflexivity.
  replace (startswith (lit "@@ -" ++ t) (lit "Prereq:")) with false
    by reflexivity.
  replace (startswith (lit "@@ -" ++ t) (lit "diff --git ")) with false
    by reflexivity.
  replace (dash_prefix (lit "@@ -" ++ t)) with 0 by reflexivity.
  unfold startswith_at. rewrite slice_all.
  replace (startswith (lit "@@ -" ++ t) (lit "--- ")) with false
    by reflexivity.
  cbn [is_some truthy negb andb]. rewrite !andb_false_r. reflexivity.
Qed.

Lemma stuck_trigger_chain dt b (s : Scan) (r1 : Reader LineReader) l t :
  l = lit "@@ -" ++ t ->
  dt = ANY_DIFF \/ dt = UNI_DIFF ->
  need_header Stamp s = false -> edcmdpos Stamp s = None ->
  exists s',
    trigger_chain Stamp dateparse epoch dt 0 l b s r1
      = Ok (Some s', with_indent 0 r1) /\
    start Stamp s' = Some (pos r1 - 1) /\
    exists h, patch Stamp s'
              = Some (new_patch Stamp dateparse epoch UniPatch (Some h)) /\
              hdr_begin Stamp h = hdr_begin Stamp (hdr Stamp s).
Proof.
  intros -> Hdt Hn He. unfold trigger_chain. rewrite Hn, He.
  cbn [is_some andb].
  rewrite startswith_prefix.
  replace (dt_in dt [ANY_DIFF; UNI_DIFF]) with true
    by (destruct Hdt as [-> | ->]; reflexivity).
  cbn [andb]. msimpl. cbn [impl with_indent impl_get_pos LineReader_impl].
  eexists. split; [reflexivity|].
  cbn [start patch with_patch].
  split; [f_equal; lia|]. eexists. split; reflexivity.
Qed.


Lemma stuck_UniHunk_parse ts ln0 ls n l :
  0 <= n -> index ls n = Some l -> stuck_line l ->
  UniHunk_parse new_hunk (mkReader ts 0 0 false ln0 (mkLineReader ls n))
  = Ok (false, new_hunk, mkReader ts 0 0 false l (mkLineReader ls n)).
Proof.
  intros Hn Hi (t & El & He & Hre).
  assert (Hc : startswith l (lit "#") = false) by (subst l; reflexivity).
  unfold UniHunk_parse. msimpl. rewrite get_line_unfold.
  cbn [indent rfc934_nesting strip_cr].
  rewrite (pget_line_plain ts 0 0 false ln0 ls n l true Hn Hi He Hc).
  cbn [negb line]. rewrite Hre.
  cbn [impl impl_get_pos LineReader_impl lineno].
  unfold set_pos, lift. cbn [impl impl_set_pos LineReader_impl].
  unfold modify, with_impl, with_lineno.
  cbn [tab_size indent rfc934_nesting strip_cr line impl lines].
  replace (n + 1 + -1) with n by lia. reflexivity.
Qed.

Lemma stuck_Patch_parse (p : Patch Stamp) ts ln0 ls n l :
  patch_class Stamp p = UniPatch ->
  0 <= n -> index ls n = Some l -> stuck_line l ->
  exists p',
    Patch_parse Stamp p (mkReader ts 0 0 false ln0 (mkLineReader ls n))
    = Ok (p', mkReader ts 0 0 false l (mkLineReader ls n)).
Proof.
  intros Hc Hn Hi Hs. unfold Patch_parse. msimpl.
  pose proof (stuck_UniHunk_parse ts ln0 ls n l Hn Hi Hs) as U.
  destruct (patch_begin Stamp p); cbn [parse_hunks]; msimpl;
    cbn [patch_class with_patch_begin]; rewrite Hc;
    cbn [next_hunk_parse]; rewrite U; eexists; reflexivity.
Qed.

Lemma add_patch_loop_found fuel dt (s : Scan) (r : Reader LineReader) p :
  patch Stamp s = Some p ->
  add_patch_loop Stamp dateparse epoch fuel dt s r = Ok (s, r).
Proof. intros H. destruct fuel; cbn [add_patch_loop]; rewrite H; reflexivity. Qed.

Lemma stuck_add_patch dt (f : PatchFile Stamp) ts ind nest ln0 ls n l :
  pf_diff_type Stamp f = dt -> dt = ANY_DIFF \/ dt = UNI_DIFF ->
  0 <= n -> index ls n = Some l -> stuck_line l ->
  exists f',
    add_patch Stamp dateparse epoch false f
      (mkReader ts ind nest false ln0 (mkLineReader ls n))
    = Ok (true, f', mkReader ts 0 0 false l (mkLineReader ls n)) /\
    pf_diff_type Stamp f' = dt.
Proof.
  intros Hf Hdt Hn Hi Hs. pose proof Hs as (t & El & He & Hre).
  assert (Hc : startswith l (lit "#") = false) by (subst l; reflexivity).
  unfold add_patch. rewrite Hf.
  replace (if dt_in dt [ED_DIFF; NORMAL_DIFF] then false else false)
    with false by (destruct Hdt as [-> | ->]; reflexivity).
  msimpl.
  set (s0 := mkScan Stamp false None false false
               (new_header Stamp dateparse epoch) None None
               (revision Stamp f)).
  set (r0 := mkReader ts ind 0 false ln0 (mkLineReader ls n)).
  set (r1 := mkReader ts ind 0 false l (mkLineReader ls (n + 1))).
  destruct (stuck_trigger_chain dt
              (str_eqb (slice l (Some (-2)) None) [cr; nl]) s0 r1 l t El Hdt
              eq_refl eq_refl) as (s' & T & Hst & h & Hp & Hb).
  assert (L : forall k, add_patch_loop Stamp dateparse epoch (S k) dt s0 r0
                        = Ok (s', with_indent 0 r1)).
  { intros k. cbn [add_patch_loop]. cbn [patch s0]. msimpl.
    unfold get_raw_line. unfold r0.
    rewrite (pget_line_plain ts ind 0 false ln0 ls n l true Hn Hi He Hc).
    cbn [negb]. fold r1. unfold add_patch_pass. msimpl.
    unfold r1 at 1. rewrite (stuck_strip_indent _ _ _ _ _ _ _ _ El).
    fold r1. cbn [line r1].
    rewrite (stuck_header_chain dt _ s0 r1 l t El eq_refl eq_refl eq_refl).
    rewrite T.
    apply (add_patch_loop_found _ _ _ _ _ Hp). }
  change (with_rfc934_nesting 0
            (mkReader ts ind nest false ln0 (mkLineReader ls n))) with r0.
  rewrite L. rewrite Hp. cbv beta iota.
  unfold add_patch_parse. msimpl. rewrite Hst, Hp. cbv beta iota.
  unfold set_pos, lift. cbn [impl impl_set_pos LineReader_impl].
  unfold modify. unfold with_indent, r1, with_impl, with_lineno.
  cbn [tab_size indent rfc934_nesting strip_cr line impl lines lineno].
  replace (n + 1 - 1) with n by lia.
  destruct (stuck_Patch_parse
              (new_patch Stamp dateparse epoch UniPatch (Some h))
              ts l ls n l eq_refl Hn Hi Hs) as (p' & P).
  rewrite P. eexists. split; [reflexivity | exact Hf].
Qed.

Lemma index_last {A} (l : list A) (x : A) : index (l ++ [x]) (-1) = Some x.
Proof.
  unfold index, len. rewrite length_app. cbn [List.length].
  replace (-1 <? 0) with true by reflexivity.
  destruct (-1 + Z.of_nat (List.length l + 1) <? 0) eqn:E1;
    [apply Z.ltb_lt in E1; lia|].
  destruct (Z.of_nat (List.length l + 1)
            <=? -1 + Z.of_nat (List.length l + 1)) eqn:E2;
    [apply Z.leb_le in E2; lia|].
  cbn [orb].
  replace (Z.to_nat (-1 + Z.of_nat (List.length l + 1)))
    with (List.length l) by lia.
  rewrite nth_error_app2 by lia. rewrite Nat.sub_diag. reflexivity.
Qed.

Lemma stuck_init_loop sp dt ls n l :
  dt = ANY_DIFF \/ dt = UNI_DIFF ->
  0 <= n -> index ls n = Some l -> stuck_line l ->
  forall fuel (f : PatchFile Stamp) ts ind nest ln0,
  pf_diff_type Stamp f = dt ->
  init_loop Stamp dateparse epoch fuel false sp f
    (mkReader ts ind nest false ln0 (mkLineReader ls n)) = Fuel.
Proof.
  intros Hdt Hn Hi Hs. induction fuel as [|fuel IH];
    intros f ts ind nest ln0 Hf; cbn [init_loop]; [reflexivity|].
  msimpl.
  destruct (stuck_add_patch dt f ts ind nest ln0 ls n l Hf Hdt Hn Hi Hs)
    as (f' & A & Hf').
  rewrite A.
  destruct (pf_header Stamp f') eqn:Eh.
  - apply IH. exact Hf'.
  - pose proof (add_patch_inv _ _ _ _ _ _ _ _ _ A) as (_ & _ & p & Hp & _).
    unfold last_patch. rewrite Hp, index_last.
    rewrite get_raw_lines_LineReader. apply IH.
    cbn. exact Hf'.
Qed.

(** X17.  On a reader whose next line begins like the header of a unified hunk
    and is none, [PatchFile(reader, need_header=False)] does not return:
    the header scan takes the line for the start of a unified patch, the
    hunk parser refuses it and sets the reader back, and [add_patch]
    returns True with the reader at the same line, so that the loop of
    [__init__] calls it again on the same input, however often it has run.
    The same holds for the diff type [UNI_DIFF]. *)
Theorem PatchFile_init_never_returns (fuel : nat) (dt : DiffType)
    (r : Reader LineReader) (l : str) :
  dt = ANY_DIFF \/ dt = UNI_DIFF ->
  strip_cr r = false -> 0 <= pos r ->
  index (input r) (pos r) = Some l -> stuck_line l ->
  PatchFile_init Stamp dateparse epoch fuel dt false r = Fuel /\
  exists f' r',
    add_patch Stamp dateparse epoch false
      (mkPatchFile Stamp dt None [] None None) r = Ok (true, f', r') /\
    impl r' = impl r.
Proof.
  intros Hdt Hcr Hn Hi Hs.
  destruct r as [ts ind nest scr ln0 [ls n]].
  cbn [strip_cr impl lines lineno] in *. subst scr. split.
  - unfold PatchFile_init. msimpl.
    rewrite (stuck_init_loop _ dt ls n l Hdt Hn Hi Hs); reflexivity.
  - destruct (stuck_add_patch dt (mkPatchFile Stamp dt None [] None None)
                ts ind nest ln0 ls n l eq_refl Hdt Hn Hi Hs) as (f' & A & _).
    eexists. eexists. split; [exact A | reflexivity].
Qed.

End Stuck.

Lemma PatchFile_init_never_returns_x :
  PatchFile_init Z scenario_dates 0 1000 ANY_DIFF false
    (line_reader [ln "@@ -x"]) = Fuel /\
  exists f' r',
    add_patch Z scenario_dates 0 false
      (mkPatchFile Z ANY_DIFF None [] None None)
      (line_reader [ln "@@ -x"]) = Ok (true, f', r') /\
    impl r' = impl (line_reader [ln "@@ -x"]).
Proof.
  apply (PatchFile_init_never_returns Z scenario_dates 0 1000 ANY_DIFF
           (line_reader [ln "@@ -x"]) (ln "@@ -x")).
  - left. reflexivity.
  - reflexivity.
  - vm_compute. discriminate.
  - reflexivity.
  - exists (ln "x"). repeat split; reflexivity.
Defined.

(* ================================================================== *)
(** ** The file header of a file whose first patch has no header *)
(* ================================================================== *)

Section WholeInput.
Variable Stamp : Type.
Variable dateparse : str -> option Stamp.
Variable epoch : Stamp.

(** X19.  When the header of the first patch has no [begin], as for the normal
    and ed patches, which have no header lines, the file header is not the
    text before the patch: it holds the input from the position
    [PatchFile] started at to its end, the lines of the patches
    included. *)
Theorem FileHeader_without_begin (fuel : nat) (diff_type : DiffType)
    (need_header : bool) (r r' : Reader LineReader) (f : PatchFile Stamp)
    (p : Patch Stamp) (rest : list (Patch Stamp)) :
  PatchFile_init Stamp dateparse epoch fuel diff_type need_header r
    = Ok (f, r') ->
  patches Stamp f = p :: rest ->
  hdr_begin Stamp (patch_header Stamp p) = None ->
  pf_header Stamp f
    = Some (mkFileHeader (slice (input r) (Some (pos r)) None)).
Proof.
  unfold PatchFile_init. msimpl. intros H Hp Hb.
  cbn [impl_get_pos LineReader_impl] in H. rewrite Z.add_0_r in H.
  destruct (init_loop _ _ _ fuel need_header (pos r) _ r)
    as [[f1 r1]| |] eqn:L; try discriminate.
  apply init_loop_inv with (ls := input r) (p0 := pos r) in L;
    [|left; split; reflexivity|reflexivity|reflexivity].
  destruct L as ([(Hh & Hn) | (q & rest' & Hps & Hk & Hh)] & Li).
  - rewrite Hh in H. rewrite get_raw_lines_LineReader in H. inv H.
    cbn in Hp. rewrite Hn in Hp. discriminate.
  - rewrite Hh in H. inv H. rewrite Hps in Hp. inv Hp.
    rewrite Hh, Hb. reflexivity.
Qed.

End WholeInput.

Lemma FileHeader_without_begin_normal :
  pf_header Z (fst normal_diff_file)
    = Some (mkFileHeader
              (slice (input normal_diff_in_mail)
                     (Some (pos normal_diff_in_mail)) None)).
Proof.
  destruct (patches Z (fst normal_diff_file)) as [|p rest] eqn:E;
    [vm_compute in E; discriminate E|].
  apply (FileHeader_without_begin Z scenario_dates 0 3 ANY_DIFF false
           normal_diff_in_mail (snd normal_diff_file) (fst normal_diff_file)
           p rest).
  - vm_compute. reflexivity.
  - exact E.
  - vm_compute in E. inv E. reflexivity.
Defined.
